(** * Solvro error handling: the error model, its normaliser and the
      cause-chain analyser

    A shallow embedding of [lib/base.ts] and [lib/reporting.ts].

    - [Module Str]: the string operations of the JavaScript standard library
      that the code calls ([split], [trim], [startsWith], [replace]).
    - [Module Reporting]: [analyzeErrorStack] and [serializeErrorReport] over
      the static type [IBaseError] that they declare for their input.
    - [Module Js]: untyped JavaScript values living in a store of objects,
      with [typeof], [in], property reads and writes, [delete], [String] and
      [JSON.stringify].
    - [Module Base]: [shallowIsIBaseError], [isIBaseError] and [toIBaseError],
      which take [unknown] and therefore work on [Js] values.
    - [Module Logging]: [prepareReportForLogging].

    Numbers are modelled by [Z]: the numbers the code inspects are HTTP
    status codes, and the only arithmetic is the comparison [status < 500].
    A [Z] stands for the number equal to it: the numbers that are no
    integers, [NaN] and the infinities are left out, and an integer that is
    no number (such as 2^53 + 1) stands for no JavaScript value.
    Strings are Rocq strings holding the UTF-8 encoding of the JavaScript
    string. *)

From Stdlib Require Import String Ascii ZArith List Bool Lia DecimalString.
From stdpp Require Import base option list gmap strings fin_maps.
Import ListNotations.

Set Warnings "-register-all".

Local Open Scope string_scope.
Local Open Scope Z_scope.

(* ===================================================================== *)
(** ** JavaScript string operations *)
(* ===================================================================== *)

Module Str.

Definition LF : ascii := "010"%char.

(** A string holds the UTF-8 encoding of the JavaScript string.  The
    white space that [String.prototype.trim] removes and that [\s] matches
    is made of the code points U+0009 to U+000D, U+0020, U+00A0, U+1680,
    U+2000 to U+200A, U+2028, U+2029, U+202F, U+205F, U+3000 and U+FEFF;
    UTF-8 encodes each of them in one, two or three bytes. *)
Definition whiteSpace1 (c : ascii) : bool :=
  match nat_of_ascii c with
  | 9%nat | 10%nat | 11%nat | 12%nat | 13%nat | 32%nat => true
  | _ => false
  end.

(** U+00A0 is C2 A0. *)
Definition whiteSpace2 (c1 c2 : ascii) : bool :=
  Nat.eqb (nat_of_ascii c1) 194 && Nat.eqb (nat_of_ascii c2) 160.

(** U+1680 is E1 9A 80; U+2000 to U+200A are E2 80 80 to E2 80 8A; U+2028,
    U+2029 and U+202F are E2 80 A8, E2 80 A9 and E2 80 AF; U+205F is
    E2 81 9F; U+3000 is E3 80 80; U+FEFF is EF BB BF. *)
Definition whiteSpace3 (c1 c2 c3 : ascii) : bool :=
  let b1 := nat_of_ascii c1 in
  let b2 := nat_of_ascii c2 in
  let b3 := nat_of_ascii c3 in
  (Nat.eqb b1 225 && Nat.eqb b2 154 && Nat.eqb b3 128)
  || (Nat.eqb b1 226 && Nat.eqb b2 128
      && ((Nat.leb 128 b3 && Nat.leb b3 138)
          || Nat.eqb b3 168 || Nat.eqb b3 169 || Nat.eqb b3 175))
  || (Nat.eqb b1 226 && Nat.eqb b2 129 && Nat.eqb b3 159)
  || (Nat.eqb b1 227 && Nat.eqb b2 128 && Nat.eqb b3 128)
  || (Nat.eqb b1 239 && Nat.eqb b2 187 && Nat.eqb b3 191).

(** The string is one white space character. *)
Definition isWhiteSpace (s : string) : bool :=
  match s with
  | String c1 EmptyString => whiteSpace1 c1
  | String c1 (String c2 EmptyString) => whiteSpace2 c1 c2
  | String c1 (String c2 (String c3 EmptyString)) => whiteSpace3 c1 c2 c3
  | _ => false
  end.

(** [s.split(sep)] for a one-character separator. *)
Fixpoint split (sep : ascii) (s : string) : list string :=
  match s with
  | EmptyString => [EmptyString]
  | String c rest =>
      if Ascii.eqb c sep then EmptyString :: split sep rest
      else match split sep rest with
           | [] => [String c EmptyString]
           | first :: others => String c first :: others
           end
  end.

(** [s.trimStart()]: the white space characters at the start go, one
    after the other. *)
Fixpoint trimStart (s : string) : string :=
  match s with
  | EmptyString => EmptyString
  | String c1 rest1 =>
      if whiteSpace1 c1 then trimStart rest1
      else
        match rest1 with
        | EmptyString => s
        | String c2 rest2 =>
            if whiteSpace2 c1 c2 then trimStart rest2
            else
              match rest2 with
              | EmptyString => s
              | String c3 rest3 =>
                  if whiteSpace3 c1 c2 c3 then trimStart rest3 else s
              end
        end
  end.

(** [s.trimEnd()]: what is kept of [s] is its first byte and what is kept
    of the rest, unless that is one white space character, which then
    goes as well. *)
Fixpoint trimEnd (s : string) : string :=
  match s with
  | EmptyString => EmptyString
  | String c rest =>
      let kept := String c (trimEnd rest) in
      if isWhiteSpace kept then EmptyString else kept
  end.

(** [s.trim()] *)
Definition trim (s : string) : string := trimEnd (trimStart s).

(** [s.startsWith(p)] *)
Definition startsWith (p s : string) : bool := String.prefix p s.

Fixpoint drop (n : nat) (s : string) : string :=
  match n, s with
  | O, _ => s
  | S n', String _ rest => drop n' rest
  | S _, EmptyString => EmptyString
  end.

(** [s.replace(pattern, replacement)] for a string pattern: only the first
    occurrence is replaced.  (The replacements used by the code contain no
    [$], so no replacement pattern is expanded.) *)
Fixpoint replace (pattern replacement s : string) : string :=
  if String.prefix pattern s then replacement ++ drop (String.length pattern) s
  else match s with
       | EmptyString => EmptyString
       | String c rest => String c (replace pattern replacement rest)
       end.

(** [s.replace(/^at\s+/, "")]: the match needs at least one white space
    character after [at], and takes all that follow. *)
Definition stripAt (s : string) : string :=
  match s with
  | String "a" (String "t" rest) =>
      let stripped := trimStart rest in
      if String.eqb stripped rest then s else stripped
  | _ => s
  end.

End Str.

(* ===================================================================== *)
(** ** Untyped JavaScript values in a store of objects *)
(* ===================================================================== *)

Module Js.

(** The address of an object in the store. *)
Abbreviation loc := nat (only parsing).

(** A JavaScript value: a primitive, or a reference to an object.  Two
    references are the same object exactly when they are equal.  (Symbols
    and functions are left out.) *)
Inductive value : Type :=
| JsUndefined
| JsNull
| JsBoolean (b : bool)
| JsNumber (n : Z)
| JsBigInt (n : Z)
| JsString (s : string)
| JsRef (l : loc).

(** An object: a plain object with its own enumerable properties in
    enumeration order, or an array (without named properties of its own). *)
Inductive cell : Type :=
| PlainObject (props : list (string * value))
| ArrayObject (items : list value).

Abbreviation store := (list cell) (only parsing).

Inductive Exception : Type :=
| TypeError.

(** The result of running code: it returns, it throws, or the model ran
    out of fuel before the code finished. *)
Inductive Outcome (A : Type) : Type :=
| Return (a : A)
| Throw (e : Exception)
| Exhausted.
Arguments Return {A} a.
Arguments Throw {A} e.
Arguments Exhausted {A}.

Definition bind {A B} (m : Outcome A) (k : A -> Outcome B) : Outcome B :=
  match m with
  | Return a => k a
  | Throw e => Throw e
  | Exhausted => Exhausted
  end.

(** [typeof v] *)
Definition typeof (v : value) : string :=
  match v with
  | JsUndefined => "undefined"
  | JsNull => "object"
  | JsBoolean _ => "boolean"
  | JsNumber _ => "number"
  | JsBigInt _ => "bigint"
  | JsString _ => "string"
  | JsRef _ => "object"
  end.

(** [v === undefined], [v === null] *)
Definition isUndefined (v : value) : bool :=
  match v with JsUndefined => true | _ => false end.
Definition isNull (v : value) : bool :=
  match v with JsNull => true | _ => false end.

(** The names every object inherits from [Object.prototype]; the [in]
    operator finds them too. *)
Definition objectPrototypeKeys : list string :=
  [ "constructor"; "__defineGetter__"; "__defineSetter__"; "hasOwnProperty";
    "__lookupGetter__"; "__lookupSetter__"; "isPrototypeOf";
    "propertyIsEnumerable"; "toString"; "valueOf"; "__proto__";
    "toLocaleString" ].

Definition inherited (key : string) : bool :=
  existsb (String.eqb key) objectPrototypeKeys.

Fixpoint lookupProp (key : string) (props : list (string * value)) : option value :=
  match props with
  | [] => None
  | (k, v) :: rest => if String.eqb k key then Some v else lookupProp key rest
  end.

(** [obj.key = v] on the properties of a plain object: an existing
    property keeps its place, a new one goes last. *)
Fixpoint setProp (key : string) (v : value) (props : list (string * value))
    : list (string * value) :=
  match props with
  | [] => [(key, v)]
  | (k, x) :: rest =>
      if String.eqb k key then (k, v) :: rest else (k, x) :: setProp key v rest
  end.

(** [delete obj.key] on the properties of a plain object. *)
Fixpoint deleteProp (key : string) (props : list (string * value))
    : list (string * value) :=
  match props with
  | [] => []
  | (k, x) :: rest =>
      if String.eqb k key then deleteProp key rest else (k, x) :: deleteProp key rest
  end.

(** [key in c] for an object [c].  For an array the answer is given for
    the names that are neither an index, nor [length], nor a method of
    [Array.prototype]; the code asks for no other. *)
Definition cellHas (key : string) (c : cell) : bool :=
  match c with
  | PlainObject props =>
      match lookupProp key props with
      | Some _ => true
      | None => inherited key
      end
  | ArrayObject _ => inherited key
  end.

(** [c.key] for an object [c], for a name that is not inherited. *)
Definition cellGet (key : string) (c : cell) : value :=
  match c with
  | PlainObject props => default JsUndefined (lookupProp key props)
  | ArrayObject _ => JsUndefined
  end.

(** [c.key = v] and [delete c.key].  The code assigns to and deletes from
    plain objects; an array, which has no named property here, is left as
    it is. *)
Definition cellSet (key : string) (v : value) (c : cell) : cell :=
  match c with
  | PlainObject props => PlainObject (setProp key v props)
  | ArrayObject items => ArrayObject items
  end.

Definition cellDelete (key : string) (c : cell) : cell :=
  match c with
  | PlainObject props => PlainObject (deleteProp key props)
  | ArrayObject items => ArrayObject items
  end.

(** [key in v], where the code has made sure that [v] is an object. *)
Definition hasProperty (h : store) (key : string) (v : value) : bool :=
  match v with
  | JsRef l =>
      match h !! l with
      | Some c => cellHas key c
      | None => false
      end
  | _ => false
  end.

(** [key in v] for any [v]: the operator throws a [TypeError] when its
    right operand is not an object. *)
Definition js_in (h : store) (key : string) (v : value) : Outcome bool :=
  match v with
  | JsRef _ => Return (hasProperty h key v)
  | _ => Throw TypeError
  end.

(** [v.key], where the code has made sure that [v] is an object. *)
Definition get (h : store) (v : value) (key : string) : value :=
  match v with
  | JsRef l =>
      match h !! l with
      | Some c => cellGet key c
      | None => JsUndefined
      end
  | _ => JsUndefined
  end.

(** [v.key = x] *)
Definition set (h : store) (v : value) (key : string) (x : value) : store :=
  match v with
  | JsRef l =>
      match h !! l with
      | Some c => <[l := cellSet key x c]> h
      | None => h
      end
  | _ => h
  end.

(** [delete v.key] *)
Definition delete (h : store) (v : value) (key : string) : store :=
  match v with
  | JsRef l =>
      match h !! l with
      | Some c => <[l := cellDelete key c]> h
      | None => h
      end
  | _ => h
  end.

(** A new object: it gets the next free address. *)
Definition alloc (h : store) (c : cell) : value * store :=
  (JsRef (List.length h), (h ++ [c])%list).

(** [Array.isArray(v)] *)
Definition isArray (h : store) (v : value) : bool :=
  match v with
  | JsRef l =>
      match h !! l with
      | Some (ArrayObject _) => true
      | _ => false
      end
  | _ => false
  end.

(** The elements of the array [v]. *)
Definition arrayItems (h : store) (v : value) : list value :=
  match v with
  | JsRef l =>
      match h !! l with
      | Some (ArrayObject items) => items
      | _ => []
      end
  | _ => []
  end.

(** The decimal digits of an integer, with its sign: [BigInt::toString]. *)
Definition decimal (n : Z) : string := NilZero.string_of_int (Z.to_int n).

(** *** [Number::toString]

    A number is given by the integer it is equal to.  Below 2^53 every
    integer is a number and [String] gives its digits.  From 2^53 on the
    numbers are the integers [m * 2^e] with [m] below 2^53, and [String]
    gives the fewest digits [s] with [s * 10^(n-k)] still rounding to the
    number, followed by zeros, or the exponent form when [n] is above 21. *)

(** The integer [v] is nearer to the number [x], which is at least 2^53,
    than to the numbers next to [x], or half way when the mantissa of [x]
    is even: [v] rounds to [x]. *)
Definition roundsTo (x v : Z) : bool :=
  let e := Z.log2 x - 52 in
  let m := Z.shiftr x e in
  let up := 2 ^ e in
  let down := if m =? 2 ^ 52 then 2 ^ (e - 1) else 2 ^ e in
  if Z.even m
  then (2 * x - down <=? 2 * v) && (2 * v <=? 2 * x + up)
  else (2 * x - down <? 2 * v) && (2 * v <? 2 * x + up).

Definition digitCount (x : Z) : Z := Z.of_nat (String.length (decimal x)).

(** The pairs [(s, n)] with [k] digits in [s] such that [s * 10^(n-k)]
    rounds to [x]. *)
Definition candidates (x k : Z) : list (Z * Z) :=
  flat_map
    (fun n =>
       if k <=? n then
         let p := 10 ^ (n - k) in
         List.filter
           (fun sn : Z * Z =>
              (10 ^ (k - 1) <=? fst sn) && (fst sn <? 10 ^ k)
              && roundsTo x (fst sn * p))
           [(x / p, n); (x / p + 1, n)]
       else [])
    [digitCount x; digitCount x + 1].

(** Of two candidates the nearer to [x]; of two equally near, the one
    with [s] even. *)
Definition nearer (x k : Z) (a b : Z * Z) : Z * Z :=
  let distance (sn : Z * Z) := Z.abs (fst sn * 10 ^ (snd sn - k) - x) in
  if distance b <? distance a then b
  else if (distance b =? distance a) && Z.even (fst b) then b
  else a.

Definition nearest (x k : Z) (l : list (Z * Z)) : option (Z * Z) :=
  match l with
  | [] => None
  | a :: rest => Some (fold_left (nearer x k) rest a)
  end.

(** The first [k] that has a candidate, with the nearest one. *)
Fixpoint shortest (x : Z) (ks : list Z) : option (Z * Z * Z) :=
  match ks with
  | [] => None
  | k :: rest =>
      match nearest x k (candidates x k) with
      | Some sn => Some (sn, k)
      | None => shortest x rest
      end
  end.

Fixpoint zeros (n : nat) : string :=
  match n with
  | O => EmptyString
  | S n => String "0" (zeros n)
  end.

(** The digits [s] as the integer [s * 10^(n-k)], or in exponent form. *)
Definition formatNumber (s n k : Z) : string :=
  if n <=? 21 then (decimal s ++ zeros (Z.to_nat (n - k)))%string
  else
    match decimal s with
    | String c EmptyString => (String c EmptyString ++ "e+" ++ decimal (n - 1))%string
    | String c rest => (String c ("." ++ rest) ++ "e+" ++ decimal (n - 1))%string
    | EmptyString => EmptyString
    end.

(** [String(x)] for a number [x]; 17 digits are always enough. *)
Definition numberToString (x : Z) : string :=
  if Z.abs x <? 2 ^ 53 then decimal x
  else
    let sign : string := if x <? 0 then "-" else "" in
    match shortest (Z.abs x) (map Z.of_nat (seq 1 17)) with
    | Some (s, n, k) => (sign ++ formatNumber s n k)%string
    | None => decimal x
    end.

(** [String(v)] for a primitive [v]. *)
Definition toString (v : value) : string :=
  match v with
  | JsUndefined => "undefined"
  | JsNull => "null"
  | JsBoolean true => "true"
  | JsBoolean false => "false"
  | JsNumber n => numberToString n
  | JsBigInt n => decimal n
  | JsString s => s
  | JsRef _ => "[object Object]"
  end.

(** *** [JSON.stringify] *)

Definition hexDigit (n : nat) : ascii :=
  ascii_of_nat (if Nat.ltb n 10 then 48 + n else 87 + n).

Definition quoteChar (c : ascii) : string :=
  let n := nat_of_ascii c in
  let backslash := String (ascii_of_nat 92) EmptyString in
  if Nat.eqb n 8 then backslash ++ "b"
  else if Nat.eqb n 9 then backslash ++ "t"
  else if Nat.eqb n 10 then backslash ++ "n"
  else if Nat.eqb n 12 then backslash ++ "f"
  else if Nat.eqb n 13 then backslash ++ "r"
  else if Nat.eqb n 34 then backslash ++ String c EmptyString
  else if Nat.eqb n 92 then backslash ++ backslash
  else if Nat.ltb n 32 then
    backslash ++ "u00"
      ++ String (hexDigit (Nat.div n 16)) (String (hexDigit (Nat.modulo n 16)) EmptyString)
  else String c EmptyString.

Fixpoint quoteChars (s : string) : string :=
  match s with
  | EmptyString => EmptyString
  | String c rest => quoteChar c ++ quoteChars rest
  end.

(** [QuoteJSONString] *)
Definition quote (s : string) : string :=
  let dq := String (ascii_of_nat 34) EmptyString in
  dq ++ quoteChars s ++ dq.

Fixpoint join (sep : string) (parts : list string) : string :=
  match parts with
  | [] => EmptyString
  | [p] => p
  | p :: rest => p ++ sep ++ join sep rest
  end.

Fixpoint mapM {A B} (f : A -> Outcome B) (l : list A) : Outcome (list B) :=
  match l with
  | [] => Return []
  | a :: rest =>
      bind (f a) (fun b => bind (mapM f rest) (fun bs => Return (b :: bs)))
  end.

(** [SerializeJSONProperty]: [None] is the result [undefined].  [stack]
    holds the objects being serialised; meeting one of them again is a
    cycle, which throws.  A [BigInt] throws. *)
Fixpoint serializeProperty (fuel : nat) (h : store) (stack : list loc) (v : value)
    : Outcome (option string) :=
  match v with
  | JsUndefined => Return None
  | JsNull => Return (Some "null")
  | JsBoolean true => Return (Some "true")
  | JsBoolean false => Return (Some "false")
  | JsNumber n => Return (Some (numberToString n))
  | JsBigInt _ => Throw TypeError
  | JsString s => Return (Some (quote s))
  | JsRef l =>
      if existsb (Nat.eqb l) stack then Throw TypeError
      else
        match fuel with
        | O => Exhausted
        | S fuel' =>
            match h !! l with
            | Some (ArrayObject items) =>
                bind (mapM (fun item =>
                              bind (serializeProperty fuel' h (l :: stack) item)
                                   (fun text => Return (default "null" text)))
                           items)
                     (fun parts => Return (Some ("[" ++ join "," parts ++ "]")))
            | Some (PlainObject props) =>
                bind (mapM (fun kv : string * value =>
                              bind (serializeProperty fuel' h (l :: stack) (snd kv))
                                   (fun text =>
                                      Return (match text with
                                              | Some t => [quote (fst kv) ++ ":" ++ t]
                                              | None => []
                                              end)))
                           props)
                     (fun members => Return (Some ("{" ++ join "," (concat members) ++ "}")))
            | None => Return (Some "{}")
            end
        end
  end.

(** [JSON.stringify(v)].  Nesting is at most as deep as the store has
    objects, or a cycle is met before. *)
Definition JSON_stringify (h : store) (v : value) : Outcome (option string) :=
  serializeProperty (S (List.length h)) h [] v.

End Js.

(* ===================================================================== *)
(** ** [lib/base.ts]: the declared types *)
(* ===================================================================== *)

(** [type JsonEncodable = string | number | boolean | null | JsonObject |
    JsonEncodable[]] *)
Inductive JsonEncodable : Type :=
| JsonString (s : string)
| JsonNumber (n : Z)
| JsonBoolean (b : bool)
| JsonNull
| JsonObject (fields : gmap string JsonEncodable)
| JsonArray (items : list JsonEncodable).

(** [type ExtraResponseFields = Record<Exclude<string, "error">, JsonEncodable>].
    In TypeScript [Exclude<string, "error">] is [string]: the type does not
    rule the key out, the code does at run time. *)
Abbreviation ExtraResponseFields := (gmap string JsonEncodable) (only parsing).

(** Modelled from the spec: the type [ExtraErrorIdentifiers], which
    [reporting.ts] imports from [base.ts] and [base.ts] does not declare;
    the spec has it as a mapping from strings to JSON values. *)
Abbreviation ExtraErrorIdentifiers := (gmap string JsonEncodable) (only parsing).

(** [interface ValidationIssue { message: string }] *)
Module ValidationIssue.
Record t : Type := make { message : string }.
End ValidationIssue.

(** [interface IBaseError].  An optional field is an [option]: [None] is an
    absent field or one holding [undefined].  [extraErrorIdentifiers] is the
    field that [reporting.ts] reads from an [IBaseError]; the interface in
    [base.ts] does not list it. *)
Module IBaseError.
Inductive t : Type := make {
  message : string;
  code : option string;
  status : option Z;
  messages : option (list ValidationIssue.t);
  stack : option string;
  cause : option t;
  sensitive : option bool;
  silent : option bool;
  extraResponseFields : option ExtraResponseFields;
  extraErrorIdentifiers : option ExtraErrorIdentifiers
}.

End IBaseError.

(* ===================================================================== *)
(** ** [lib/base.ts]: the checks and the normaliser *)
(* ===================================================================== *)

Module Base.
Import Js.

Notation "'let*' x ':=' m 'in' k" := (bind m (fun x => k))
  (at level 10, x pattern, m at level 100, k at level 200, only parsing).

(** [!(key in error) || error.key === undefined || typeof error.key === type] *)
Definition optionalFieldOk (h : store) (error : value) (key type : string) : bool :=
  negb (hasProperty h key error)
  || isUndefined (get h error key)
  || String.eqb (typeof (get h error key)) type.

(** Lines 115-120: the callback of [every]. *)
Definition isValidationIssue (h : store) (value : value) : bool :=
  String.eqb (typeof value) "object"
  && negb (isNull value)
  && hasProperty h "message" value
  && String.eqb (typeof (get h value "message")) "string".

(** [shallowIsIBaseError(error)], lines 96-141. *)
Definition shallowIsIBaseError (h : store) (error : value) : bool :=
  String.eqb (typeof error) "object"
  && negb (isNull error)
  && hasProperty h "message" error
  && String.eqb (typeof (get h error "message")) "string"
  && optionalFieldOk h error "code" "string"
  && optionalFieldOk h error "status" "number"
  && (negb (hasProperty h "messages" error)
      || isUndefined (get h error "messages")
      || (isArray h (get h error "messages")
          && forallb (isValidationIssue h) (arrayItems h (get h error "messages"))))
  && optionalFieldOk h error "stack" "string"
  && optionalFieldOk h error "sensitive" "boolean"
  && optionalFieldOk h error "silent" "boolean"
  && (negb (hasProperty h "extraResponseFields" error)
      || isUndefined (get h error "extraResponseFields")
      || (String.eqb (typeof (get h error "extraResponseFields")) "object"
          && negb (isNull (get h error "extraResponseFields"))
          && negb (hasProperty h "error" (get h error "extraResponseFields")))).

(** [isIBaseError(error)], lines 149-158.  The recursion follows [cause];
    [None] says that [fuel] calls were not enough. *)
Fixpoint isIBaseError (fuel : nat) (h : store) (error : value) : option bool :=
  match fuel with
  | O => None
  | S fuel =>
      if String.eqb (typeof error) "object"
         && negb (isNull error)
         && shallowIsIBaseError h error
      then
        if negb (hasProperty h "cause" error) || isUndefined (get h error "cause")
        then Some true
        else isIBaseError fuel h (get h error "cause")
      else Some false
  end.

Definition unserializableError : string :=
  "<an error value so weird, that i've got zero idea how to handle it>".

Definition unserializableIssue : string :=
  "<the original validation message was really weird and could not be serialized>".

(** Lines 196-209: the callback of [error.messages.map]. *)
Definition reconstructIssue (h : store) (message : value) : Outcome (value * store) :=
  if String.eqb (typeof message) "string" then
    Return (alloc h (PlainObject [("message", message)]))
  else
    let* passes := (if String.eqb (typeof message) "object"
               then js_in h "message" message
               else Return false) in
    if (passes : bool) then Return (message, h)
    else
      let* text := JSON_stringify h message in
      Return (alloc h (PlainObject
                         [("message", JsString (default unserializableIssue text))])).

(** [error.messages.map(...)]: the callback runs on each element in turn. *)
Fixpoint mapIssues (h : store) (items : list value) : Outcome (list value * store) :=
  match items with
  | [] => Return ([], h)
  | message :: rest =>
      let* (issue, h) := reconstructIssue h message in
      let* (issues, h) := mapIssues h rest in
      Return (issue :: issues, h)
  end.

(** Lines 181-188: the message of the reconstructed object. *)
Definition reconstructMessage (h : store) (error : value) : Outcome value :=
  if hasProperty h "message" error
     && String.eqb (typeof (get h error "message")) "string"
  then Return (get h error "message")
  else
    let* text := JSON_stringify h error in
    Return (JsString (default unserializableError text)).

(** [if (key in error && typeof error.key === type) reconstructed.key = error.key] *)
Definition copyIfTyped (key type : string) (error reconstructed : value) (h : store)
    : store :=
  if hasProperty h key error && String.eqb (typeof (get h error key)) type
  then set h reconstructed key (get h error key)
  else h.

(** Lines 195-210.  The new array is put in the store after its elements. *)
Definition reconstructMessages (error reconstructed : value) (h : store)
    : Outcome store :=
  if hasProperty h "messages" error && isArray h (get h error "messages") then
    let* (issues, h) := mapIssues h (arrayItems h (get h error "messages")) in
    let '(messages, h) := alloc h (ArrayObject issues) in
    Return (set h reconstructed "messages" messages)
  else Return h.

(** Lines 220-222. *)
Definition reconstructCause (self : store -> value -> Outcome (value * store))
    (error reconstructed : value) (h : store) : Outcome store :=
  if hasProperty h "cause" error
     && negb (isUndefined (get h error "cause"))
     && negb (isNull (get h error "cause"))
  then
    let* (cause, h) := self h (get h error "cause") in
    Return (set h reconstructed "cause" cause)
  else Return h.

(** Lines 223-236. *)
Definition reconstructExtraResponseFields (error reconstructed : value) (h : store)
    : store :=
  if hasProperty h "extraResponseFields" error
     && negb (isUndefined (get h error "extraResponseFields"))
     && negb (isNull (get h error "extraResponseFields"))
     && String.eqb (typeof (get h error "extraResponseFields")) "object"
  then
    let h := set h reconstructed "extraResponseFields" (get h error "extraResponseFields") in
    if hasProperty h "error" (get h reconstructed "extraResponseFields")
    then delete h (get h reconstructed "extraResponseFields") "error"
    else h
  else h.

(** Lines 180-237: the reconstruction of an object that fails the shallow
    check; [self] is [toIBaseError]. *)
Definition reconstruct (self : store -> value -> Outcome (value * store))
    (h : store) (error : value) : Outcome (value * store) :=
  let* message := reconstructMessage h error in
  let '(reconstructed, h) := alloc h (PlainObject [("message", message)]) in
  let h := copyIfTyped "code" "string" error reconstructed h in
  let h := copyIfTyped "status" "number" error reconstructed h in
  let* h := reconstructMessages error reconstructed h in
  let h := copyIfTyped "stack" "string" error reconstructed h in
  let h := copyIfTyped "sensitive" "boolean" error reconstructed h in
  let h := copyIfTyped "silent" "boolean" error reconstructed h in
  let* h := reconstructCause self error reconstructed h in
  let h := reconstructExtraResponseFields error reconstructed h in
  Return (reconstructed, h).

(** Lines 240-247: the object passes the shallow check and is kept; its
    [cause] is corrected in place. *)
Definition correctCause (self : store -> value -> Outcome (value * store))
    (h : store) (error : value) : Outcome (value * store) :=
  if hasProperty h "cause" error then
    if isUndefined (get h error "cause") || isNull (get h error "cause")
    then Return (error, delete h error "cause")
    else
      let* (cause, h) := self h (get h error "cause") in
      Return (error, set h error "cause" cause)
  else Return (error, h).

(** [toIBaseError(error)], lines 173-248.  [fuel] bounds the depth of the
    recursion along [cause]. *)
Fixpoint toIBaseError (fuel : nat) (h : store) (error : value)
    : Outcome (value * store) :=
  match fuel with
  | O => Exhausted
  | S fuel =>
      if negb (String.eqb (typeof error) "object") || isNull error then
        Return (alloc h (PlainObject [("message", JsString (toString error))]))
      else if negb (shallowIsIBaseError h error) then
        reconstruct (toIBaseError fuel) h error
      else
        correctCause (toIBaseError fuel) h error
  end.

End Base.

(* ===================================================================== *)
(** ** [lib/reporting.ts] *)
(* ===================================================================== *)

Module ErrorReport.
Record t : Type := make {
  message : string;
  code : string;
  status : Z;
  validationIssues : option (list ValidationIssue.t);
  causeStack : list string;
  rootStackTrace : list string;
  sensitive : bool;
  silent : bool;
  extraResponseFields : ExtraResponseFields;
  extraErrorIdentifiers : ExtraErrorIdentifiers
}.
End ErrorReport.

(** The accumulator [result] of [analyzeErrorStack]:
    [Partial<ErrorReport> & { causeStack; extraResponseFields;
    extraErrorIdentifiers }]. *)
Module PartialReport.
Record t : Type := make {
  status : option Z;
  code : option string;
  validationIssues : option (list ValidationIssue.t);
  sensitive : option bool;
  silent : option bool;
  causeStack : list string;
  extraResponseFields : ExtraResponseFields;
  extraErrorIdentifiers : ExtraErrorIdentifiers
}.
End PartialReport.

Module SerializedErrorReport.
Record t : Type := make {
  message : string;
  code : string;
  validationIssues : option (list ValidationIssue.t);
  causeStack : option (list string);
  rootStackTrace : option (list string)
}.
End SerializedErrorReport.

(** [Partial<SerializeErrorReportOptions>] *)
Module SerializeErrorReportOptions.
Record t : Type := make { includeStackTrace : option bool }.
End SerializeErrorReportOptions.

Module Reporting.

(** [a ?? b] *)
Definition nullish {A} (a b : option A) : option A :=
  match a with
  | Some _ => a
  | None => b
  end.

(** [key in obj] for a plain object [obj]. *)
Definition js_in {A} (key : string) (obj : gmap string A) : bool :=
  bool_decide (is_Some (obj !! key)) || Js.inherited key.

(** Lines 92-98: the loop over [Object.entries(currentError.extraResponseFields)]. *)
Definition mergeResponseFields (fields acc : ExtraResponseFields) : ExtraResponseFields :=
  map_fold (fun key value acc =>
              if negb (String.eqb key "error") && negb (js_in key acc)
              then <[key := value]> acc else acc)
           acc fields.

(** Lines 101-107: the loop over [Object.entries(currentError.extraErrorIdentifiers)]. *)
Definition mergeErrorIdentifiers (ids acc : ExtraErrorIdentifiers) : ExtraErrorIdentifiers :=
  map_fold (fun key value acc =>
              if negb (js_in key acc) then <[key := value]> acc else acc)
           acc ids.

(** The variables the [while] loop updates, other than [currentError]. *)
Record LoopState : Type := mkLoopState {
  lastStack : option string;
  result : PartialReport.t
}.

(** Lines 68-78. *)
Definition initialState : LoopState :=
  {| lastStack := None;
     result := PartialReport.make None None None None None [] ∅ ∅ |}.

(** Lines 81-108: one iteration, [currentError] being already advanced. *)
Definition visit (currentError : IBaseError.t) (st : LoopState) : LoopState :=
  let r := result st in
  {| lastStack := lastStack st;
     result :=
       {| PartialReport.causeStack :=
            PartialReport.causeStack r ++ [IBaseError.message currentError];
          PartialReport.status :=
            nullish (PartialReport.status r) (IBaseError.status currentError);
          PartialReport.code :=
            nullish (PartialReport.code r) (IBaseError.code currentError);
          PartialReport.validationIssues :=
            nullish (PartialReport.validationIssues r) (IBaseError.messages currentError);
          PartialReport.sensitive :=
            nullish (PartialReport.sensitive r) (IBaseError.sensitive currentError);
          PartialReport.silent :=
            nullish (PartialReport.silent r)
              (nullish (IBaseError.silent currentError)
                 (match IBaseError.status currentError with
                  | Some status => Some (status <? 500)
                  | None => None
                  end));
          PartialReport.extraResponseFields :=
            match IBaseError.extraResponseFields currentError with
            | Some fields => mergeResponseFields fields (PartialReport.extraResponseFields r)
            | None => PartialReport.extraResponseFields r
            end;
          PartialReport.extraErrorIdentifiers :=
            match IBaseError.extraErrorIdentifiers currentError with
            | Some ids => mergeErrorIdentifiers ids (PartialReport.extraErrorIdentifiers r)
            | None => PartialReport.extraErrorIdentifiers r
            end |} |}.

(** Lines 79-109: [while (currentError.cause !== undefined)], entered with
    [currentError = {cause: error}]. *)
Fixpoint loop (error : IBaseError.t) (st : LoopState) : LoopState :=
  let st' := visit error st in
  match IBaseError.cause error with
  | Some next => loop next st'
  | None => st'
  end.

(** Lines 123-141: the callback of [flatMap]. *)
Definition parseStackLine (cwd : option string) (line : string) : list string :=
  let line := Str.trim line in
  if negb (Str.startsWith "at " line) then []
  else
    let line := Str.replace "file://" "" (Str.stripAt line) in
    match cwd with
    | Some cwd =>
        [Str.replace cwd "." (Str.replace (cwd ++ "/node_modules/") "" line)]
    | None => [line]
    end.

(** [lastStack?.split("\n").flatMap(...) ?? []] *)
Definition parseStack (cwd : option string) (lastStack : option string) : list string :=
  match lastStack with
  | Some text => flat_map (parseStackLine cwd) (Str.split Str.LF text)
  | None => []
  end.

(** [analyzeErrorStack(topError)].  [cwd] is what [process.cwd()] gave, or
    [None] when it threw. *)
Definition analyzeErrorStack (cwd : option string) (topError : IBaseError.t) : ErrorReport.t :=
  let st := loop topError initialState in
  let result := result st in
  {| ErrorReport.message := IBaseError.message topError;
     ErrorReport.status := default 500 (PartialReport.status result);
     ErrorReport.code := default "E_UNEXPECTED_ERROR" (PartialReport.code result);
     ErrorReport.validationIssues := PartialReport.validationIssues result;
     ErrorReport.causeStack := PartialReport.causeStack result;
     ErrorReport.sensitive := default false (PartialReport.sensitive result);
     ErrorReport.silent := default false (PartialReport.silent result);
     ErrorReport.rootStackTrace := parseStack cwd (lastStack st);
     ErrorReport.extraResponseFields := PartialReport.extraResponseFields result;
     ErrorReport.extraErrorIdentifiers := PartialReport.extraErrorIdentifiers result |}.

(** A property of the response object: the report under [error], or a
    spread extra response field. *)
Inductive ResponseValue : Type :=
| RError (e : SerializedErrorReport.t)
| RField (v : JsonEncodable).

Definition serializeDefaults : bool := false.

(** [{...serializeDefaults, ...options}.includeStackTrace]: a key that
    [options] has replaces the default, also when it holds [undefined]
    (which is falsy, like the default). *)
Definition fullOptions (options : SerializeErrorReportOptions.t) : bool :=
  default serializeDefaults (SerializeErrorReportOptions.includeStackTrace options).

(** Lines 256-264: the object under [error]. *)
Definition serializedError (report : ErrorReport.t)
    (options : SerializeErrorReportOptions.t) : SerializedErrorReport.t :=
  {| SerializedErrorReport.message := ErrorReport.message report;
     SerializedErrorReport.code := ErrorReport.code report;
     SerializedErrorReport.validationIssues := ErrorReport.validationIssues report;
     SerializedErrorReport.causeStack :=
       if ErrorReport.sensitive report then None
       else Some (ErrorReport.causeStack report);
     SerializedErrorReport.rootStackTrace :=
       if fullOptions options then Some (ErrorReport.rootStackTrace report)
       else None |}.

(** [serializeErrorReport(report, options)]: the object literal
    [{ error: {...}, ...report.extraResponseFields }]; a spread key
    replaces an earlier property of the same name. *)
Definition serializeErrorReport (report : ErrorReport.t)
    (options : SerializeErrorReportOptions.t) : gmap string ResponseValue :=
  (RField <$> ErrorReport.extraResponseFields report)
    ∪ {[ "error" := RError (serializedError report options) ]}.

(** [(options = {})] *)
Definition defaultOptions : SerializeErrorReportOptions.t :=
  SerializeErrorReportOptions.make None.

End Reporting.

(* ===================================================================== *)
(** ** The cause chain, as the specification speaks of it *)
(* ===================================================================== *)

Module Chain.

(** The nodes of the chain from the top error down to the root cause. *)
Fixpoint nodes (e : IBaseError.t) : list IBaseError.t :=
  e :: match IBaseError.cause e with
       | Some next => nodes next
       | None => []
       end.

(** The number of [cause] links below an error. *)
Fixpoint links (e : IBaseError.t) : nat :=
  match IBaseError.cause e with
  | Some next => S (links next)
  | None => O
  end.

(** The deepest node, which has no cause. *)
Fixpoint root (e : IBaseError.t) : IBaseError.t :=
  match IBaseError.cause e with
  | Some next => root next
  | None => e
  end.

(** The value of the node closest to the top that defines a field. *)
Fixpoint firstDefined {A} (field : IBaseError.t -> option A)
    (chain : list IBaseError.t) : option A :=
  match chain with
  | [] => None
  | node :: below =>
      match field node with
      | Some a => Some a
      | None => firstDefined field below
      end
  end.

(** What one node says about [silent]: its explicit value, else
    [status < 500] when it has a status, else nothing. *)
Definition resolveSilent (node : IBaseError.t) : option bool :=
  match IBaseError.silent node with
  | Some b => Some b
  | None =>
      match IBaseError.status node with
      | Some status => Some (status <? 500)
      | None => None
      end
  end.

(** The frames of the stack text of the root cause, as the analyser is
    meant to report them. *)
Definition rootFrames (cwd : option string) (e : IBaseError.t) : list string :=
  Reporting.parseStack cwd (IBaseError.stack (root e)).

End Chain.

(* ===================================================================== *)
(** ** The shape of one error, as the specification speaks of it *)
(* ===================================================================== *)

Module Shape.
Import Js.

(** The field names of the error shape. *)
Definition reservedFieldNames : list string :=
  [ "message"; "code"; "status"; "messages"; "stack"; "cause"; "sensitive";
    "silent"; "extraResponseFields"; "extraErrorIdentifiers" ].

(** The type constraints of the optional fields. *)
Inductive FieldType : Type :=
| StringField
| NumberField
| BooleanField
| IssuesField
| ResponseFieldsField.

(** A validation issue: an object with a string [message]. *)
Definition IsIssue (h : store) (item : value) : Prop :=
  exists l s, item = JsRef l /\ get h item "message" = JsString s.

Definition hasType (h : store) (t : FieldType) (v : value) : Prop :=
  match t with
  | StringField => exists s, v = JsString s
  | NumberField => exists n, v = JsNumber n
  | BooleanField => exists b, v = JsBoolean b
  | IssuesField =>
      exists l items,
        v = JsRef l /\ h !! l = Some (ArrayObject items) /\ Forall (IsIssue h) items
  | ResponseFieldsField =>
      exists l, v = JsRef l /\ hasProperty h "error" v = false
  end.

(** The optional fields that have a constraint on one node. *)
Definition fieldTypes : list (string * FieldType) :=
  [ ("code", StringField); ("status", NumberField); ("messages", IssuesField);
    ("stack", StringField); ("sensitive", BooleanField); ("silent", BooleanField);
    ("extraResponseFields", ResponseFieldsField) ].

(** A non-null object with a string [message], each of whose optional
    fields, when present and not [undefined], has its type. *)
Definition ShallowConformant (h : store) (v : value) : Prop :=
  (exists l, v = JsRef l)
  /\ (exists s, get h v "message" = JsString s)
  /\ forall key t,
      In (key, t) fieldTypes ->
      hasProperty h key v = true ->
      get h v key <> JsUndefined ->
      hasType h t (get h v key).

End Shape.

(* ===================================================================== *)
(** ** What a call may change in the store *)
(* ===================================================================== *)

Module Frame.
Import Js.

(** How an object may change while [toIBaseError] runs: it stays of its
    kind, an array keeps its elements, and when [strict] a plain object
    keeps every property other than [cause] and [error]. *)
Definition cellEvolves (strict : Prop) (c c' : cell) : Prop :=
  match c, c' with
  | PlainObject props, PlainObject props' =>
      strict ->
      forall key, key <> "cause" -> key <> "error" ->
                  lookupProp key props = lookupProp key props'
  | ArrayObject items, ArrayObject items' => items = items'
  | _, _ => False
  end.

(** Every object of [h] is still in [h'], changed at most as
    [cellEvolves] allows; the objects below address [n] strictly so. *)
Definition evolves (n : nat) (h h' : store) : Prop :=
  forall l c, h !! l = Some c ->
              exists c', h' !! l = Some c' /\ cellEvolves (l < n)%nat c c'.

(** The objects below address [n] are untouched. *)
Definition sameBelow (n : nat) (h h' : store) : Prop :=
  forall l, (l < n)%nat -> h' !! l = h !! l.

End Frame.

(* ===================================================================== *)
(** ** Examples *)
(* ===================================================================== *)

Module Examples.

(** A three-line stack text with two frames. *)
Definition stackText : string :=
  "Error: hi" ++ String Str.LF
    ("    at foo (file:///srv/app/a.js:1:1)" ++ String Str.LF
       "    at bar (/srv/app/node_modules/pkg/b.js:2:2)").

Definition thrown : IBaseError.t :=
  IBaseError.make "hi" None None None (Some stackText) None None None None None.

(** The chain A (top, no status) -> B (status 418) -> C (status 500). *)
Definition nodeC : IBaseError.t :=
  IBaseError.make "C" None (Some 500) None None None None None None None.
Definition nodeB : IBaseError.t :=
  IBaseError.make "B" None (Some 418) None None (Some nodeC) None None None None.
Definition nodeA : IBaseError.t :=
  IBaseError.make "A" None None None None (Some nodeB) None None None None.

(** Errors after those of the repository's tests of [analyzeErrorStack]:
    [new BaseError("hi")], and a nested error with properties, to which
    extra response fields and error identifiers are added. *)
Definition simpleError : IBaseError.t :=
  IBaseError.make "hi" None None None None None None None None None.
Definition innerError : IBaseError.t :=
  IBaseError.make "hi" (Some "E_LO_ZELO") (Some 418) None None None
    (Some true) (Some true) None (Some {[ "prop1" := JsonNumber 2 ]}).
Definition outerError : IBaseError.t :=
  IBaseError.make "helo" (Some "E_BRUH_MOMENT") None
    (Some [ValidationIssue.make "bruh"; ValidationIssue.make "elo"]) None
    (Some innerError) None (Some false)
    (Some {[ "error" := JsonString "mine"; "hint" := JsonString "retry" ]})
    (Some {[ "prop1" := JsonNumber 1 ]}).

(** A report whose extra response fields hold one key. *)
Definition report : ErrorReport.t :=
  ErrorReport.make "hi" "E_TEAPOT" 418 None ["hi"; "why"] ["foo (./a.js:1:1)"]
    false true {[ "retryAfter" := JsonNumber 3 ]} ∅.

(** [{ message: "bad", messages: [{ message: 5 }] }] *)
Definition issueNotString : Js.store :=
  [ Js.PlainObject [("message", Js.JsString "bad"); ("messages", Js.JsRef 1)];
    Js.ArrayObject [Js.JsRef 2];
    Js.PlainObject [("message", Js.JsNumber 5)] ].

(** [{ message: "bad", messages: [null] }] *)
Definition issueNull : Js.store :=
  [ Js.PlainObject [("message", Js.JsString "bad"); ("messages", Js.JsRef 1)];
    Js.ArrayObject [Js.JsNull] ].

(** [{ reason: 10n }] *)
Definition bigIntField : Js.store :=
  [ Js.PlainObject [("reason", Js.JsBigInt 10)] ].

(** [{ message: "x", extraErrorIdentifiers: { message: 1 } }] *)
Definition reservedIdentifier : Js.store :=
  [ Js.PlainObject [("message", Js.JsString "x"); ("extraErrorIdentifiers", Js.JsRef 1)];
    Js.PlainObject [("message", Js.JsNumber 1)] ].

(** [{ message: "x", extraErrorIdentifiers: 5 }] *)
Definition identifiersNotObject : Js.store :=
  [ Js.PlainObject [("message", Js.JsString "x");
                    ("extraErrorIdentifiers", Js.JsNumber 5)] ].

(** [{ message: "error", extraResponseFields: [] }] *)
Definition arrayResponseFields : Js.store :=
  [ Js.PlainObject [("message", Js.JsString "error"); ("extraResponseFields", Js.JsRef 1)];
    Js.ArrayObject [] ].


(** U+00A0. *)
Definition noBreakSpace : string :=
  String (ascii_of_nat 194) (String (ascii_of_nat 160) EmptyString).

(** A report whose extra response fields hold the key [error]. *)
Definition reportWithError : ErrorReport.t :=
  ErrorReport.make "hi" "E_TEAPOT" 418 None ["hi"] [] false true
    {[ "error" := JsonString "mine" ]} ∅.

(** [{ message: "x", code: 3, extraResponseFields: { error: 1, more: "a" } }] *)
Definition badCode : Js.store :=
  [ Js.PlainObject [("message", Js.JsString "x"); ("code", Js.JsNumber 3);
                    ("extraResponseFields", Js.JsRef 1)];
    Js.PlainObject [("error", Js.JsNumber 1); ("more", Js.JsString "a")] ].

End Examples.

(* ===================================================================== *)
(** ** [lib/reporting.ts]: the log entry *)
(* ===================================================================== *)

Module PrepareErrorOptions.
Record t : Type := make { includeCodeAndStatus : bool }.
End PrepareErrorOptions.

Module Logging.


Section Log.
(** The order in which the properties of an object are enumerated, by
    [Object.entries] and by [JSON.stringify].  The maps of this
    development do not record it, so it is taken as given; what is proved
    assumes of it only that it lists the properties of the object, each
    once. *)
Variable entries : forall A, gmap string A -> list (string * A).




End Log.

End Logging.

(* ===================================================================== *)
(** ** Further notions used to state what the code does *)
(* ===================================================================== *)

Module Notions.
Import Js.

(** The value a node gives to one extra response field, and to one extra
    error identifier. *)
Definition responseField (key : string) (node : IBaseError.t) : option JsonEncodable :=
  match IBaseError.extraResponseFields node with
  | Some fields => fields !! key
  | None => None
  end.

Definition errorIdentifier (key : string) (node : IBaseError.t) : option JsonEncodable :=
  match IBaseError.extraErrorIdentifiers node with
  | Some ids => ids !! key
  | None => None
  end.


End Notions.

(* ===================================================================== *)
(** ** Notions used to state what the normaliser does to the store *)
(* ===================================================================== *)

Module StoreNotions.
Import Js.

(** An object after some of its [cause] properties were removed: every
    other property reads as before, and a removed [cause] held
    [undefined], or [null] when [allowNull]. *)
Definition cellPruned (allowNull : bool) (c c' : cell) : Prop :=
  match c, c' with
  | PlainObject props, PlainObject props' =>
      forall key,
        lookupProp key props' = lookupProp key props
        \/ (key = "cause"
            /\ lookupProp key props' = None
            /\ (lookupProp key props = Some JsUndefined
                \/ (allowNull = true /\ lookupProp key props = Some JsNull)))
  | ArrayObject items, ArrayObject items' => items = items'
  | _, _ => False
  end.

(** The store after such removals: the same objects at the same addresses. *)
Definition pruned (allowNull : bool) (h h' : store) : Prop :=
  List.length h' = List.length h
  /\ forall l c, h !! l = Some c ->
                 exists c', h' !! l = Some c' /\ cellPruned allowNull c c'.

(** Every error down the cause chain passes the shallow check, and the
    chain ends in an error without [cause], or with [cause] holding
    [undefined], or [null] when [allowNull]; [fuel] bounds the length of
    the chain. *)
Fixpoint chainShallow (allowNull : bool) (fuel : nat) (h : store) (error : value) : bool :=
  match fuel with
  | O => false
  | S fuel =>
      String.eqb (typeof error) "object"
      && negb (isNull error)
      && Base.shallowIsIBaseError h error
      && (negb (hasProperty h "cause" error)
          || isUndefined (get h error "cause")
          || (allowNull && isNull (get h error "cause"))
          || chainShallow allowNull fuel h (get h error "cause"))
  end.

(** The value is not an object. *)
Definition isPrimitive (v : value) : bool :=
  match v with
  | JsRef _ => false
  | _ => true
  end.

(** A reference refers to an object of the store. *)
Definition allocated (h : store) (v : value) : Prop :=
  match v with
  | JsRef l => is_Some (h !! l)
  | _ => True
  end.

(** What the code can find out about a property: whether [in] finds it,
    and its value. *)
Definition read (h : store) (v : value) (key : string) : bool * value :=
  (hasProperty h key v, get h v key).

(** [key in error && typeof error.key === type] *)
Definition wellTyped (h : store) (error : value) (key type : string) : bool :=
  hasProperty h key error && String.eqb (typeof (get h error key)) type.

(** The fields that the reconstruction copies when they have their type
    (lines 189-194 and 211-219). *)
Definition scalarFields : list (string * string) :=
  [ ("code", "string"); ("status", "number"); ("stack", "string");
    ("sensitive", "boolean"); ("silent", "boolean") ].

(** What no step of the normaliser does to an object: change its kind,
    change an array, change [message], or add [error]. *)
Definition cellSteady (c c' : cell) : Prop :=
  match c, c' with
  | PlainObject props, PlainObject props' =>
      lookupProp "message" props' = lookupProp "message" props
      /\ (lookupProp "error" props' = None
          \/ lookupProp "error" props' = lookupProp "error" props)
  | ArrayObject items, ArrayObject items' => items = items'
  | _, _ => False
  end.

(** Every object is still there and steady, and a new object has no
    [error]. *)
Definition steady (h h' : store) : Prop :=
  (forall l c, h !! l = Some c -> exists c', h' !! l = Some c' /\ cellSteady c c')
  /\ (forall l c', h !! l = None -> h' !! l = Some c' -> cellHas "error" c' = false).

End StoreNotions.

(* ===================================================================== *)
(** ** The cause chain in the store *)
(* ===================================================================== *)

Module ChainNotions.
Import Js.

(** The value, when a reference, refers to an object of the store. *)
Definition isAllocated (h : store) (v : value) : bool :=
  match v with
  | JsRef l => match h !! l with Some _ => true | None => false end
  | _ => true
  end.

(** An element of [messages] that the callback of [map] (lines 196-209)
    turns into, or keeps as, an issue with a string [message]: it is not
    an object that has a [message] of another type. *)
Definition issueOk (h : store) (m : value) : bool :=
  isAllocated h m
  && (negb (hasProperty h "message" m)
      || String.eqb (typeof (get h m "message")) "string").

(** The addresses of the objects met by following [cause] from [v], at
    most [k] of them. *)
Fixpoint chain (k : nat) (h : store) (v : value) : list nat :=
  match k with
  | O => []
  | S k =>
      match v with
      | JsRef l => l :: chain k h (get h v "cause")
      | _ => []
      end
  end.

(** The cause chain from [v] has at most [d] objects, each of them in the
    store together with its [messages], whose elements are as [issueOk]
    says. *)
Fixpoint chainOk (d : nat) (h : store) (v : value) {struct d} : bool :=
  match v with
  | JsRef l =>
      match d with
      | O => false
      | S d =>
          isAllocated h v
          && isAllocated h (get h v "messages")
          && forallb (issueOk h) (arrayItems h (get h v "messages"))
          && chainOk d h (get h v "cause")
      end
  | _ => true
  end.

(** An element of [messages] that the callback of [map] handles without
    serialising it: a string, or an object with a string [message]. *)
Definition issueSafe (h : store) (m : value) : bool :=
  String.eqb (typeof m) "string" || Base.isValidationIssue h m.

(** The cause chain from [v] has at most [d] objects, each of them in the
    store with a string [message] and with [messages] in the store, whose
    elements are as [issueSafe] says. *)
Fixpoint chainSafe (d : nat) (h : store) (v : value) {struct d} : bool :=
  match v with
  | JsRef l =>
      match d with
      | O => false
      | S d =>
          hasProperty h "message" v
          && String.eqb (typeof (get h v "message")) "string"
          && isAllocated h (get h v "messages")
          && forallb (issueSafe h) (arrayItems h (get h v "messages"))
          && chainSafe d h (get h v "cause")
      end
  | _ => true
  end.

End ChainNotions.

(* ===================================================================== *)
(** ** Further examples *)
(* ===================================================================== *)

Module MoreExamples.

(** [{ message: "a", cause: { message: "b", cause: null } }] *)
Definition nullCause : Js.store :=
  [ Js.PlainObject [("message", Js.JsString "a"); ("cause", Js.JsRef 1)];
    Js.PlainObject [("message", Js.JsString "b"); ("cause", Js.JsNull)] ].

(** [{ message: "a", cause: { message: "b", cause: undefined } }] *)
Definition conformant : Js.store :=
  [ Js.PlainObject [("message", Js.JsString "a"); ("cause", Js.JsRef 1)];
    Js.PlainObject [("message", Js.JsString "b"); ("cause", Js.JsUndefined)] ].

(** [{ message: "x", code: 3, status: 404, messages: ["a", { message: "b" }] }] *)
Definition mixed : Js.store :=
  [ Js.PlainObject [("message", Js.JsString "x"); ("code", Js.JsNumber 3);
                    ("status", Js.JsNumber 404); ("messages", Js.JsRef 1)];
    Js.ArrayObject [Js.JsString "a"; Js.JsRef 2];
    Js.PlainObject [("message", Js.JsString "b")] ].

(** [{ message: "top", code: 3, messages: ["a", { message: "b" }],
       cause: { message: "mid", cause: { status: "x", cause: "oops" } } }] *)
Definition mixedChain : Js.store :=
  [ Js.PlainObject [("message", Js.JsString "top"); ("code", Js.JsNumber 3);
                    ("messages", Js.JsRef 1); ("cause", Js.JsRef 3)];
    Js.ArrayObject [Js.JsString "a"; Js.JsRef 2];
    Js.PlainObject [("message", Js.JsString "b")];
    Js.PlainObject [("message", Js.JsString "mid"); ("cause", Js.JsRef 4)];
    Js.PlainObject [("status", Js.JsString "x"); ("cause", Js.JsString "oops")] ].

(** [{ message: "top", code: 3, messages: ["a", { message: "b" }],
       cause: { message: "mid", status: "x", cause: "oops" } }] *)
Definition safeChain : Js.store :=
  [ Js.PlainObject [("message", Js.JsString "top"); ("code", Js.JsNumber 3);
                    ("messages", Js.JsRef 1); ("cause", Js.JsRef 3)];
    Js.ArrayObject [Js.JsString "a"; Js.JsRef 2];
    Js.PlainObject [("message", Js.JsString "b")];
    Js.PlainObject [("message", Js.JsString "mid"); ("status", Js.JsString "x");
                    ("cause", Js.JsString "oops")] ].

End MoreExamples.

(* ===================================================================== *)
(** ** Facts about the cause chain and the analyser *)
(* ===================================================================== *)

Module ChainFacts.
Import Chain.

Lemma chain_ind (P : IBaseError.t -> Prop) :
  (forall e, IBaseError.cause e = None -> P e) ->
  (forall e next, IBaseError.cause e = Some next -> P next -> P e) ->
  forall e, P e.
Proof.
  intros Hroot Hlink. fix IH 1.
  intros [m c s ms st [next|] se si er ei].
  - apply (Hlink _ next); [reflexivity | apply IH].
  - apply Hroot. reflexivity.
Qed.

Lemma nodes_length e : List.length (nodes e) = S (links e).
Proof.
  induction e as [e He | e next He IH] using chain_ind;
    destruct e; simpl in *; subst; simpl; auto.
Qed.

Lemma firstDefined_app {A} (field : IBaseError.t -> option A) l1 l2 :
  firstDefined field (l1 ++ l2)%list
  = Reporting.nullish (firstDefined field l1) (firstDefined field l2).
Proof.
  induction l1 as [|n l1 IH]; simpl; [reflexivity|].
  destruct (field n); [reflexivity | exact IH].
Qed.

End ChainFacts.

Module ReportingFacts.
Import Chain ChainFacts Reporting.

(** The [while] loop is a left fold of [visit] over the nodes of the chain. *)
Lemma loop_fold e st :
  loop e st = fold_left (fun st node => visit node st) (nodes e) st.
Proof.
  revert st.
  induction e as [e He | e next He IH] using chain_ind; intros st;
    destruct e; simpl in *; subst; simpl; auto.
Qed.

Section FirstWriteWins.
Context {A : Type}.
(** [slot] reads a field of the accumulator that every iteration updates
    by [slot ??= field currentError]. *)
Variable slot : LoopState -> option A.
Variable field : IBaseError.t -> option A.
Hypothesis visit_slot :
  forall node st, slot (visit node st) = nullish (slot st) (field node).

Lemma fold_slot chain st :
  slot (fold_left (fun st node => visit node st) chain st)
  = nullish (slot st) (firstDefined field chain).
Proof using visit_slot.
  revert st. induction chain as [|node chain IH]; intros st; simpl.
  - destruct (slot st); reflexivity.
  - rewrite IH, visit_slot.
    destruct (slot st), (field node); reflexivity.
Qed.

Lemma loop_slot e :
  slot initialState = None ->
  slot (loop e initialState) = firstDefined field (nodes e).
Proof using visit_slot.
  intros H0. rewrite loop_fold, fold_slot, H0. reflexivity.
Qed.
End FirstWriteWins.

Lemma fold_causeStack chain st :
  PartialReport.causeStack (result (fold_left (fun st node => visit node st) chain st))
  = (PartialReport.causeStack (result st) ++ map IBaseError.message chain)%list.
Proof.
  revert st. induction chain as [|node chain IH]; intros st; simpl.
  - rewrite app_nil_r. reflexivity.
  - rewrite IH. simpl. rewrite <- app_assoc. reflexivity.
Qed.

Lemma fold_lastStack chain st :
  lastStack (fold_left (fun st node => visit node st) chain st) = lastStack st.
Proof.
  revert st. induction chain as [|node chain IH]; intros st; simpl;
    [reflexivity | rewrite IH; reflexivity].
Qed.

(** Merging never brings in the key [error]. *)
Lemma mergeResponseFields_error fields acc :
  mergeResponseFields fields acc !! "error" = acc !! "error".
Proof.
  unfold mergeResponseFields.
  apply (map_fold_weak_ind (fun r (_ : gmap string JsonEncodable) =>
                              r !! "error" = acc !! "error")); [reflexivity|].
  intros key value m r _ IH.
  destruct (String.eqb_spec key "error") as [-> | Hne]; simpl; [exact IH|].
  destruct (js_in key r); simpl; [exact IH|].
  rewrite lookup_insert_ne; [exact IH | exact Hne].
Qed.

Lemma fold_no_error chain st :
  PartialReport.extraResponseFields (result st) !! "error" = None ->
  PartialReport.extraResponseFields
    (result (fold_left (fun st node => visit node st) chain st)) !! "error" = None.
Proof.
  revert st. induction chain as [|node chain IH]; intros st H; simpl; [exact H|].
  apply IH. simpl.
  destruct (IBaseError.extraResponseFields node); [|exact H].
  rewrite mergeResponseFields_error. exact H.
Qed.

Lemma analyze_no_error cwd e :
  ErrorReport.extraResponseFields (analyzeErrorStack cwd e) !! "error" = None.
Proof.
  unfold analyzeErrorStack. simpl. rewrite loop_fold.
  apply fold_no_error. reflexivity.
Qed.

Lemma serialize_lookup report options key :
  serializeErrorReport report options !! key
  = match ErrorReport.extraResponseFields report !! key with
    | Some v => Some (RField v)
    | None => if String.eqb key "error" then Some (RError (serializedError report options))
              else None
    end.
Proof.
  unfold serializeErrorReport.
  rewrite lookup_union, lookup_fmap.
  destruct (ErrorReport.extraResponseFields report !! key) as [v|]; simpl.
  - destruct ({[ "error" := RError (serializedError report options) ]} !! key); reflexivity.
  - destruct (String.eqb_spec key "error") as [-> | Hne].
    + rewrite lookup_singleton_eq. reflexivity.
    + rewrite lookup_singleton_ne; [reflexivity | congruence].
Qed.

(** The expectations of [test/reporting.test.ts]. *)
Example test_simple_error :
  let report := analyzeErrorStack None Examples.simpleError in
  ErrorReport.message report = "hi"
  /\ ErrorReport.code report = "E_UNEXPECTED_ERROR"
  /\ ErrorReport.status report = 500
  /\ ErrorReport.causeStack report = ["hi"]
  /\ ErrorReport.sensitive report = false
  /\ ErrorReport.silent report = false.
Proof. repeat split. Qed.

Example test_nested_error_with_props :
  let report := analyzeErrorStack None Examples.outerError in
  ErrorReport.message report = "helo"
  /\ ErrorReport.code report = "E_BRUH_MOMENT"
  /\ ErrorReport.status report = 418
  /\ ErrorReport.causeStack report = ["helo"; "hi"]
  /\ ErrorReport.sensitive report = true
  /\ ErrorReport.silent report = false
  /\ ErrorReport.validationIssues report
     = Some [ValidationIssue.make "bruh"; ValidationIssue.make "elo"].
Proof. repeat split. Qed.

Example test_extra_duplicate_identifiers :
  ErrorReport.extraErrorIdentifiers (analyzeErrorStack None Examples.outerError)
  = {[ "prop1" := JsonNumber 1 ]}.
Proof. vm_compute. reflexivity. Qed.

(** The reserved key is left out of the merged response fields. *)
Example outerError_responseFields :
  ErrorReport.extraResponseFields (analyzeErrorStack None Examples.outerError)
  = {[ "hint" := JsonString "retry" ]}.
Proof. vm_compute. reflexivity. Qed.

Lemma analyze_status cwd e :
  ErrorReport.status (analyzeErrorStack cwd e)
  = default 500 (firstDefined IBaseError.status (nodes e)).
Proof.
  unfold analyzeErrorStack; simpl.
  rewrite (loop_slot (fun st => PartialReport.status (result st)) IBaseError.status);
    reflexivity.
Qed.

(** C1 (the code departs from it): the report's [rootStackTrace] is never
    taken from a stack text.  [lastStack] is declared and read but no
    iteration assigns it, so the trace is empty for every chain; for the
    cause-less error [Examples.thrown], whose own stack text holds two
    frame lines, it is empty too. *)
Theorem analyzeErrorStack_rootStackTrace_empty :
  (forall cwd topError,
      ErrorReport.rootStackTrace (analyzeErrorStack cwd topError) = [])
  /\ IBaseError.cause Examples.thrown = None
  /\ rootFrames None Examples.thrown
     = ["foo (/srv/app/a.js:1:1)"; "bar (/srv/app/node_modules/pkg/b.js:2:2)"]
  /\ rootFrames (Some "/srv/app") Examples.thrown
     = ["foo (./a.js:1:1)"; "bar (pkg/b.js:2:2)"]
  /\ ErrorReport.rootStackTrace (analyzeErrorStack (Some "/srv/app") Examples.thrown) = [].
Proof.
  assert (Hnil : forall cwd topError,
             ErrorReport.rootStackTrace (analyzeErrorStack cwd topError) = []).
  { intros cwd topError. unfold analyzeErrorStack; simpl.
    rewrite loop_fold, fold_lastStack. reflexivity. }
  split; [exact Hnil|].
  split; [reflexivity|].
  split; [vm_compute; reflexivity|].
  split; [vm_compute; reflexivity|].
  apply Hnil.
Qed.

(** C5: [status], [code], [validationIssues] and [sensitive] of the report
    are those of the node closest to the top that defines them, with the
    defaults 500, [E_UNEXPECTED_ERROR] and [false] when no node does; for
    a chain A -> B -> C with A.status unset, B.status = 418 and
    C.status = 500 the status is 418. *)
Theorem analyzeErrorStack_first_write_wins cwd topError :
  ErrorReport.status (analyzeErrorStack cwd topError)
  = default 500 (firstDefined IBaseError.status (nodes topError))
  /\ ErrorReport.code (analyzeErrorStack cwd topError)
     = default "E_UNEXPECTED_ERROR" (firstDefined IBaseError.code (nodes topError))
  /\ ErrorReport.validationIssues (analyzeErrorStack cwd topError)
     = firstDefined IBaseError.messages (nodes topError)
  /\ ErrorReport.sensitive (analyzeErrorStack cwd topError)
     = default false (firstDefined IBaseError.sensitive (nodes topError))
  /\ (forall a b c,
        nodes topError = [a; b; c] ->
        IBaseError.status a = None ->
        IBaseError.status b = Some 418 ->
        IBaseError.status c = Some 500 ->
        ErrorReport.status (analyzeErrorStack cwd topError) = 418).
Proof.
  split; [apply analyze_status|].
  split.
  { unfold analyzeErrorStack; simpl.
    rewrite (loop_slot (fun st => PartialReport.code (result st)) IBaseError.code);
      reflexivity. }
  split.
  { unfold analyzeErrorStack; simpl.
    rewrite (loop_slot (fun st => PartialReport.validationIssues (result st))
               IBaseError.messages); reflexivity. }
  split.
  { unfold analyzeErrorStack; simpl.
    rewrite (loop_slot (fun st => PartialReport.sensitive (result st))
               IBaseError.sensitive); reflexivity. }
  intros a b c Hnodes Ha Hb Hc.
  rewrite analyze_status, Hnodes. simpl. rewrite Ha, Hb. reflexivity.
Qed.

Lemma analyzeErrorStack_first_write_wins_witness :
  nodes Examples.nodeA = [Examples.nodeA; Examples.nodeB; Examples.nodeC]
  /\ ErrorReport.status (analyzeErrorStack None Examples.nodeA) = 418.
Proof.
  split; [reflexivity|].
  apply (proj2 (proj2 (proj2 (proj2
           (analyzeErrorStack_first_write_wins None Examples.nodeA))))
           Examples.nodeA Examples.nodeB Examples.nodeC); reflexivity.
Defined.

(** C6: [silent] of the report is what the first node resolves, scanning
    from the top: a node resolves to its explicit [silent], else to
    [status < 500] when it defines [status], else to nothing; the report
    has [false] when no node resolves. *)
Theorem analyzeErrorStack_silent cwd topError :
  ErrorReport.silent (analyzeErrorStack cwd topError)
  = default false (firstDefined resolveSilent (nodes topError)).
Proof.
  unfold analyzeErrorStack; simpl.
  rewrite (loop_slot (fun st => PartialReport.silent (result st)) resolveSilent);
    [reflexivity | | reflexivity].
  intros node st. simpl. unfold resolveSilent.
  destruct (IBaseError.silent node); reflexivity.
Qed.

(** C7: [causeStack] lists the messages of the nodes from the top error
    down to the root cause, so it has one entry more than there are cause
    links; [message] is the message of the top error. *)
Theorem analyzeErrorStack_causeStack cwd topError :
  ErrorReport.causeStack (analyzeErrorStack cwd topError)
  = map IBaseError.message (nodes topError)
  /\ List.length (ErrorReport.causeStack (analyzeErrorStack cwd topError))
     = (1 + links topError)%nat
  /\ ErrorReport.message (analyzeErrorStack cwd topError)
     = IBaseError.message topError.
Proof.
  assert (H : ErrorReport.causeStack (analyzeErrorStack cwd topError)
              = map IBaseError.message (nodes topError)).
  { unfold analyzeErrorStack; simpl. rewrite loop_fold, fold_causeStack. reflexivity. }
  split; [exact H|]. split; [|reflexivity].
  rewrite H, length_map, nodes_length. reflexivity.
Qed.

(** C8 (as amended): for every report and options the response is the
    object literal with [error] first and the extra response fields spread
    after it.  The object built for [error] has the report's message, code
    and validation issues; its [causeStack] is undefined exactly when the
    report is sensitive and is the report's otherwise; its
    [rootStackTrace] is defined exactly when [includeStackTrace] is true
    (absent counts as false) and is then the report's.  Every extra
    response field is a top-level property with its value, there is no
    other top-level property besides [error], and [error] holds the object
    built for it when the extra response fields have no key [error];
    when they have, [error] holds their value. *)
Theorem serializeErrorReport_response report options :
  exists error,
    SerializedErrorReport.message error = ErrorReport.message report
    /\ SerializedErrorReport.code error = ErrorReport.code report
    /\ SerializedErrorReport.validationIssues error = ErrorReport.validationIssues report
    /\ (SerializedErrorReport.causeStack error = None
        <-> ErrorReport.sensitive report = true)
    /\ (ErrorReport.sensitive report = false ->
        SerializedErrorReport.causeStack error = Some (ErrorReport.causeStack report))
    /\ (is_Some (SerializedErrorReport.rootStackTrace error)
        <-> SerializeErrorReportOptions.includeStackTrace options = Some true)
    /\ (SerializeErrorReportOptions.includeStackTrace options = Some true ->
        SerializedErrorReport.rootStackTrace error
        = Some (ErrorReport.rootStackTrace report))
    /\ serializeErrorReport report options
       = (RField <$> ErrorReport.extraResponseFields report) ∪ {[ "error" := RError error ]}
    /\ (forall key v,
          ErrorReport.extraResponseFields report !! key = Some v ->
          serializeErrorReport report options !! key = Some (RField v))
    /\ (forall key,
          key <> "error" ->
          serializeErrorReport report options !! key
          = RField <$> ErrorReport.extraResponseFields report !! key)
    /\ (ErrorReport.extraResponseFields report !! "error" = None ->
        serializeErrorReport report options !! "error" = Some (RError error)).
Proof.
  exists (serializedError report options).
  do 3 (split; [reflexivity|]).
  split. { simpl. destruct (ErrorReport.sensitive report); split; congruence. }
  split. { simpl. intros ->. reflexivity. }
  split.
  { simpl. unfold fullOptions, serializeDefaults.
    destruct options as [[[|]|]]; simpl; split;
      first [ intros [? ?]; congruence | intros; eauto; congruence ]. }
  split.
  { simpl. unfold fullOptions. intros ->. reflexivity. }
  split; [reflexivity|].
  split.
  { intros key v Hkey. rewrite serialize_lookup, Hkey. reflexivity. }
  split.
  { intros key Hne. rewrite serialize_lookup.
    destruct (ErrorReport.extraResponseFields report !! key); [reflexivity|].
    destruct (String.eqb_spec key "error"); [contradiction | reflexivity]. }
  intros Hno. rewrite serialize_lookup, Hno. reflexivity.
Qed.

Lemma serializeErrorReport_response_witness :
  ErrorReport.extraResponseFields Examples.report !! "error" = None
  /\ exists error,
       serializeErrorReport Examples.report defaultOptions !! "error"
       = Some (RError error)
       /\ SerializedErrorReport.causeStack error = Some ["hi"; "why"]
       /\ SerializedErrorReport.rootStackTrace error = None
       /\ serializeErrorReport Examples.report defaultOptions !! "retryAfter"
          = Some (RField (JsonNumber 3)).
Proof.
  split; [reflexivity|].
  destruct (serializeErrorReport_response Examples.report defaultOptions)
    as (error & _ & _ & _ & _ & Hcause & Hroot & _ & _ & Hfields & _ & Herror).
  exists error. split; [exact (Herror eq_refl)|].
  split; [apply Hcause; reflexivity|].
  split; [|apply Hfields; reflexivity].
  destruct (SerializedErrorReport.rootStackTrace error) eqn:E; [|reflexivity].
  assert (Hsome : is_Some (Some l)) by eauto.
  apply Hroot in Hsome. discriminate Hsome.
Defined.

(** C8 (the claim as it stands fails): for a report whose extra response
    fields hold the key [error], the response has that value under
    [error], not the serialised report. *)
Lemma serializeErrorReport_spread_replaces_error :
  ErrorReport.extraResponseFields Examples.reportWithError !! "error"
  = Some (JsonString "mine")
  /\ serializeErrorReport Examples.reportWithError defaultOptions !! "error"
     = Some (RField (JsonString "mine"))
  /\ forall error,
       serializeErrorReport Examples.reportWithError defaultOptions !! "error"
       <> Some (RError error).
Proof.
  assert (H : serializeErrorReport Examples.reportWithError defaultOptions !! "error"
              = Some (RField (JsonString "mine")))
    by (rewrite serialize_lookup; reflexivity).
  split; [reflexivity|]. split; [exact H|].
  intros error. rewrite H. discriminate.
Qed.

(** C9: the extra response fields of an analysed chain never hold the key
    [error], so the response of such a report has the serialised report
    under [error], although the fields are spread after it. *)
Theorem analyzeErrorStack_never_overrides_error cwd topError options :
  ErrorReport.extraResponseFields (analyzeErrorStack cwd topError) !! "error" = None
  /\ serializeErrorReport (analyzeErrorStack cwd topError) options !! "error"
     = Some (RError (serializedError (analyzeErrorStack cwd topError) options)).
Proof.
  split; [apply analyze_no_error|].
  rewrite serialize_lookup, analyze_no_error. reflexivity.
Qed.

End ReportingFacts.

(* ===================================================================== *)
(** ** Facts about the store *)
(* ===================================================================== *)

Module StoreFacts.
Import Js Frame.

Lemma lookupProp_setProp_eq key v props :
  lookupProp key (setProp key v props) = Some v.
Proof.
  induction props as [|[k x] rest IH]; simpl.
  - rewrite String.eqb_refl. reflexivity.
  - destruct (String.eqb k key) eqn:E; simpl; rewrite E; [reflexivity | exact IH].
Qed.

Lemma lookupProp_setProp_ne key key' v props :
  key <> key' -> lookupProp key' (setProp key v props) = lookupProp key' props.
Proof.
  intros Hne. induction props as [|[k x] rest IH]; simpl.
  - destruct (String.eqb_spec key key'); [contradiction | reflexivity].
  - destruct (String.eqb_spec k key) as [-> | Hk]; simpl.
    + destruct (String.eqb_spec key key'); [contradiction | reflexivity].
    + destruct (String.eqb k key'); [reflexivity | exact IH].
Qed.

Lemma lookupProp_deleteProp_eq key props :
  lookupProp key (deleteProp key props) = None.
Proof.
  induction props as [|[k x] rest IH]; simpl; [reflexivity|].
  destruct (String.eqb k key) eqn:E; simpl; [exact IH | rewrite E; exact IH].
Qed.

Lemma lookupProp_deleteProp_ne key key' props :
  key <> key' -> lookupProp key' (deleteProp key props) = lookupProp key' props.
Proof.
  intros Hne. induction props as [|[k x] rest IH]; simpl; [reflexivity|].
  destruct (String.eqb_spec k key) as [-> | Hk]; simpl.
  - destruct (String.eqb_spec key key'); [contradiction | exact IH].
  - destruct (String.eqb k key'); [reflexivity | exact IH].
Qed.

Lemma cellEvolves_refl strict c : cellEvolves strict c c.
Proof. destruct c; simpl; auto. Qed.

Lemma cellEvolves_trans strict c1 c2 c3 :
  cellEvolves strict c1 c2 -> cellEvolves strict c2 c3 -> cellEvolves strict c1 c3.
Proof.
  destruct c1, c2, c3; simpl; try tauto; try congruence.
  intros H12 H23 Hs key Hc He. rewrite H12, H23; auto.
Qed.

Lemma evolves_refl n h : evolves n h h.
Proof. intros l c Hl. exists c. split; [exact Hl | apply cellEvolves_refl]. Qed.

Lemma evolves_trans n h1 h2 h3 :
  evolves n h1 h2 -> evolves n h2 h3 -> evolves n h1 h3.
Proof.
  intros H12 H23 l c1 Hl.
  destruct (H12 l c1 Hl) as (c2 & Hl2 & E12).
  destruct (H23 l c2 Hl2) as (c3 & Hl3 & E23).
  exists c3. split; [exact Hl3 | eapply cellEvolves_trans; eauto].
Qed.

Lemma evolves_weaken m n h h' : (m <= n)%nat -> evolves n h h' -> evolves m h h'.
Proof.
  intros Hmn H l c Hl. destruct (H l c Hl) as (c' & Hl' & E).
  exists c'. split; [exact Hl'|].
  destruct c, c'; simpl in *; auto. intros Hlt. apply E. lia.
Qed.

Lemma evolves_length n h h' : evolves n h h' -> (List.length h <= List.length h')%nat.
Proof.
  intros H. destruct (decide (List.length h <= List.length h')%nat) as [|Hgt]; [assumption|].
  assert (Hlt : (List.length h' < List.length h)%nat) by lia.
  destruct (lookup_lt_is_Some_2 h (List.length h') Hlt) as [c Hc].
  destruct (H _ _ Hc) as (c' & Hc' & _).
  apply lookup_lt_Some in Hc'. lia.
Qed.

Lemma evolves_alloc n h c : evolves n h (snd (alloc h c)).
Proof.
  intros l c0 Hl. exists c0. split; [|apply cellEvolves_refl].
  unfold alloc; simpl. rewrite lookup_app_l; [exact Hl | eapply lookup_lt_Some; eauto].
Qed.

(** Updating one object evolves the store when the update is allowed for
    that object. *)
Lemma evolves_update n h l f :
  (forall c, h !! l = Some c -> cellEvolves (l < n)%nat c (f c)) ->
  evolves n h (match h !! l with Some c => <[l := f c]> h | None => h end).
Proof.
  intros Hf l0 c0 Hl0.
  destruct (h !! l) as [c|] eqn:Hl; [|exists c0; split; [exact Hl0 | apply cellEvolves_refl]].
  destruct (decide (l = l0)) as [<- | Hne].
  - exists (f c). split.
    + apply list_lookup_insert_eq. eapply lookup_lt_Some; eauto.
    + rewrite Hl in Hl0. injection Hl0 as <-. apply Hf. reflexivity.
  - exists c0. split; [|apply cellEvolves_refl].
    rewrite list_lookup_insert_ne; [exact Hl0 | exact Hne].
Qed.

Lemma evolves_set_fresh n h r key x :
  (n <= r)%nat -> evolves n h (set h (JsRef r) key x).
Proof.
  intros Hr. unfold set. apply evolves_update.
  intros [props|items] _; simpl; [|reflexivity]. intros Hlt. lia.
Qed.

Lemma evolves_set_cause n h v x : evolves n h (set h v "cause" x).
Proof.
  destruct v; try apply evolves_refl. unfold set. apply evolves_update.
  intros [props|items] _; simpl; [|reflexivity].
  intros _ key Hc _. symmetry. apply lookupProp_setProp_ne. congruence.
Qed.

Lemma evolves_delete n h v key :
  key = "cause" \/ key = "error" -> evolves n h (delete h v key).
Proof.
  intros Hkey. destruct v; try apply evolves_refl. unfold delete.
  apply evolves_update.
  intros [props|items] _; simpl; [|reflexivity].
  intros _ key' Hc He. symmetry. apply lookupProp_deleteProp_ne.
  destruct Hkey; congruence.
Qed.

(** What [evolves] keeps of the reads the code makes. *)
Lemma evolves_get n h h' l key :
  evolves n h h' -> (l < n)%nat -> is_Some (h !! l) ->
  key <> "cause" -> key <> "error" ->
  get h' (JsRef l) key = get h (JsRef l) key
  /\ hasProperty h' key (JsRef l) = hasProperty h key (JsRef l).
Proof.
  intros H Hl [c Hc] Hk1 Hk2. destruct (H l c Hc) as (c' & Hc' & E).
  unfold get, hasProperty. rewrite Hc, Hc'.
  destruct c, c'; simpl in *; try contradiction; [|auto].
  rewrite (E Hl key Hk1 Hk2). auto.
Qed.

Lemma evolves_plain n h h' l props :
  evolves n h h' -> h !! l = Some (PlainObject props) ->
  exists props', h' !! l = Some (PlainObject props').
Proof.
  intros H Hl. destruct (H l _ Hl) as ([props'|items'] & Hl' & E);
    [eauto | contradiction].
Qed.

Lemma sameBelow_trans n h1 h2 h3 :
  sameBelow n h1 h2 -> sameBelow n h2 h3 -> sameBelow n h1 h3.
Proof. intros H12 H23 l Hl. rewrite H23, H12; auto. Qed.

Lemma sameBelow_alloc h c : sameBelow (List.length h) h (snd (alloc h c)).
Proof. intros l Hl. unfold alloc; simpl. apply lookup_app_l. exact Hl. Qed.

Lemma sameBelow_set_fresh n h r key x :
  (n <= r)%nat -> sameBelow n h (set h (JsRef r) key x).
Proof.
  intros Hr l Hl. unfold set. destruct (h !! r); [|reflexivity].
  apply list_lookup_insert_ne. lia.
Qed.

Lemma sameBelow_hasProperty n h h' l key :
  sameBelow n h h' -> (l < n)%nat ->
  hasProperty h' key (JsRef l) = hasProperty h key (JsRef l)
  /\ get h' (JsRef l) key = get h (JsRef l) key.
Proof. intros H Hl. unfold hasProperty, get. rewrite (H l Hl). auto. Qed.

Lemma get_ref_inv h v key l :
  get h v key = JsRef l ->
  exists a props, v = JsRef a /\ h !! a = Some (PlainObject props)
                  /\ lookupProp key props = Some (JsRef l).
Proof.
  unfold get. destruct v; try discriminate.
  destruct (h !! l0) as [[props|items]|] eqn:E; simpl; try discriminate.
  destruct (lookupProp key props) eqn:Ep; simpl; [|discriminate].
  intros ->. eauto.
Qed.

Lemma get_string_inv h v key s :
  get h v key = JsString s ->
  exists a, v = JsRef a /\ (a < List.length h)%nat /\ hasProperty h key v = true.
Proof.
  unfold get, hasProperty. destruct v; try discriminate.
  destruct (h !! l) as [[props|items]|] eqn:E; simpl; try discriminate.
  destruct (lookupProp key props) eqn:Ep; simpl; [|discriminate].
  intros _. exists l. split; [reflexivity|]. split; [|reflexivity].
  eapply lookup_lt_Some; eauto.
Qed.

End StoreFacts.

(* ===================================================================== *)
(** ** [JSON.stringify] finishes *)
(* ===================================================================== *)

Module JsonFacts.
Import Js.

Lemma mapM_finishes {A B} (f : A -> Outcome B) (l : list A) :
  (forall a, In a l -> f a <> Exhausted) -> mapM f l <> Exhausted.
Proof.
  induction l as [|a rest IH]; intros Hf; simpl; [discriminate|].
  destruct (f a) eqn:Ea; simpl; [|discriminate|].
  - destruct (mapM f rest) eqn:Er; simpl; [discriminate|discriminate|].
    exfalso. apply IH; [|reflexivity]. intros a' Ha'. apply Hf. right. exact Ha'.
  - exfalso. apply (Hf a); [left; reflexivity | exact Ea].
Qed.

(** A stack of distinct addresses of the store is no longer than the
    store. *)
Lemma stack_bound (h : store) (stack : list loc) :
  List.NoDup stack ->
  (forall l, In l stack -> (l < List.length h)%nat) ->
  (List.length stack <= List.length h)%nat.
Proof.
  intros Hnodup Hin.
  assert (H : (List.length stack <= List.length (seq 0 (List.length h)))%nat).
  { apply List.NoDup_incl_length; [exact Hnodup|].
    intros l Hl. apply in_seq. specialize (Hin l Hl). lia. }
  rewrite length_seq in H. exact H.
Qed.

Lemma serializeProperty_finishes fuel : forall h stack v,
  List.NoDup stack ->
  (forall l, In l stack -> (l < List.length h)%nat) ->
  (List.length h < fuel + List.length stack)%nat ->
  serializeProperty fuel h stack v <> Exhausted.
Proof.
  induction fuel as [|fuel IH]; intros h stack v Hnodup Hin Hfuel.
  - pose proof (stack_bound h stack Hnodup Hin). lia.
  - destruct v as [| |[|]| | | |l]; simpl; try discriminate.
    destruct (existsb (Nat.eqb l) stack) eqn:Eseen; [discriminate|].
    destruct (h !! l) as [c|] eqn:El; [|discriminate].
    assert (Hdeeper : forall item,
               serializeProperty fuel h (l :: stack) item <> Exhausted).
    { intros item. apply IH.
      - constructor; [|exact Hnodup]. intros Hl.
        assert (existsb (Nat.eqb l) stack = true); [|congruence].
        apply existsb_exists. exists l. split; [exact Hl | apply Nat.eqb_refl].
      - intros l' [<- | Hl']; [eapply lookup_lt_Some; eauto | auto].
      - simpl. lia. }
    destruct c as [props|items];
      match goal with
      | |- bind (mapM ?f ?xs) _ <> _ =>
          assert (Hparts : mapM f xs <> Exhausted);
          [ apply mapM_finishes; intros part _;
            match goal with
            | |- bind (serializeProperty _ _ _ ?item) _ <> _ =>
                specialize (Hdeeper item);
                destruct (serializeProperty fuel h (l :: stack) item);
                simpl; [discriminate | discriminate | contradiction]
            end
          | destruct (mapM f xs); simpl; [discriminate | discriminate | contradiction] ]
      end.
Qed.

(** [JSON.stringify] returns or throws: the fuel it is given is enough. *)
Lemma JSON_stringify_finishes h v : JSON_stringify h v <> Exhausted.
Proof.
  unfold JSON_stringify. apply serializeProperty_finishes.
  - constructor.
  - intros l [].
  - simpl. lia.
Qed.

End JsonFacts.

(* ===================================================================== *)
(** ** Facts about the normaliser *)
(* ===================================================================== *)

Module BaseFacts.
Import Js Base Frame StoreFacts.

(** A sequenced computation that returned: its first part returned too. *)
Ltac bind_inv H :=
  match type of H with
  | bind ?m _ = Return _ =>
      let E := fresh "E" in
      destruct m as [?|?|] eqn:E; cbn [bind] in H; [|discriminate H|discriminate H]
  end.

Lemma reconstructIssue_evolves n h message issue h' :
  reconstructIssue h message = Return (issue, h') -> evolves n h h'.
Proof.
  unfold reconstructIssue. intros H.
  destruct (String.eqb (typeof message) "string").
  - injection H as <- <-. apply evolves_alloc.
  - bind_inv H. destruct a.
    + injection H as <- <-. apply evolves_refl.
    + bind_inv H. injection H as <- <-. apply evolves_alloc.
Qed.

Lemma mapIssues_evolves n items : forall h issues h',
  mapIssues h items = Return (issues, h') -> evolves n h h'.
Proof.
  induction items as [|message rest IH]; intros h issues h' H; simpl in H.
  - injection H as <- <-. apply evolves_refl.
  - bind_inv H. destruct a as [issue h1]. bind_inv H. destruct a as [issues' h2].
    injection H as <- <-.
    eapply evolves_trans; [eapply reconstructIssue_evolves; eauto | eapply IH; eauto].
Qed.

Lemma copyIfTyped_evolves n key type error r h :
  (n <= r)%nat -> evolves n h (copyIfTyped key type error (JsRef r) h).
Proof.
  intros Hr. unfold copyIfTyped.
  destruct (_ && _); [apply evolves_set_fresh; exact Hr | apply evolves_refl].
Qed.

Lemma reconstructMessages_evolves n error r h h' :
  (n <= r)%nat ->
  reconstructMessages error (JsRef r) h = Return h' -> evolves n h h'.
Proof.
  intros Hr. unfold reconstructMessages. intros H.
  destruct (_ && _).
  - bind_inv H. destruct a as [issues h1]. simpl in H. injection H as <-.
    eapply evolves_trans; [eapply mapIssues_evolves; eauto|].
    eapply evolves_trans; [apply (evolves_alloc n h1 (ArrayObject issues))|].
    apply evolves_set_fresh. exact Hr.
  - injection H as <-. apply evolves_refl.
Qed.

Section Recursion.
(** [self] is the recursive call; it is assumed to treat the store as
    [toIBaseError] is shown to. *)
Variable self : store -> value -> Outcome (value * store).
Hypothesis self_evolves :
  forall h v result h',
    self h v = Return (result, h') -> evolves (List.length h) h h'.

Lemma reconstructCause_evolves n error r h h' :
  (n <= List.length h)%nat ->
  reconstructCause self error (JsRef r) h = Return h' -> evolves n h h'.
Proof using self_evolves.
  intros Hn. unfold reconstructCause. intros H.
  destruct (_ && _).
  - bind_inv H. destruct a as [cause h1]. injection H as <-.
    apply (evolves_trans n h h1);
      [|exact (evolves_set_cause n h1 (JsRef r) cause)].
    eapply evolves_weaken; [exact Hn | eapply self_evolves; eauto].
  - injection H as <-. apply evolves_refl.
Qed.

Lemma reconstructExtraResponseFields_evolves n error r h :
  (n <= r)%nat -> evolves n h (reconstructExtraResponseFields error (JsRef r) h).
Proof.
  intros Hr. unfold reconstructExtraResponseFields.
  destruct (_ && _); [|apply evolves_refl].
  destruct (hasProperty _ _ _).
  - eapply evolves_trans; [apply evolves_set_fresh; exact Hr|].
    apply evolves_delete. right. reflexivity.
  - apply evolves_set_fresh. exact Hr.
Qed.

(** A reconstruction that returns: the new object has the next free
    address; up to the last step the objects of the caller evolve and
    the new object stays a plain object; the last step shares
    [extraResponseFields]. *)
Lemma reconstruct_inv h error result h' :
  reconstruct self h error = Return (result, h') ->
  result = JsRef (List.length h)
  /\ exists h8,
      evolves (List.length h) h h8
      /\ (exists props, h8 !! List.length h = Some (PlainObject props))
      /\ h' = reconstructExtraResponseFields error (JsRef (List.length h)) h8.
Proof using self_evolves.
  unfold reconstruct. intros H.
  bind_inv H. rename a into message.
  unfold alloc in H.
  set (n := List.length h) in *.
  set (r := JsRef n) in *.
  set (h1 := (h ++ [PlainObject [("message", message)]])%list) in *.
  set (h2 := copyIfTyped "code" "string" error r h1) in *.
  set (h3 := copyIfTyped "status" "number" error r h2) in *.
  bind_inv H. rename a into h4, E0 into E4.
  set (h5 := copyIfTyped "stack" "string" error r h4) in *.
  set (h6 := copyIfTyped "sensitive" "boolean" error r h5) in *.
  set (h7 := copyIfTyped "silent" "boolean" error r h6) in *.
  bind_inv H. rename a into h8, E0 into E8.
  injection H as <- <-.
  split; [reflexivity|].
  assert (H17 : evolves n h1 h7).
  { eapply evolves_trans; [apply copyIfTyped_evolves; reflexivity|].
    eapply evolves_trans; [apply copyIfTyped_evolves; reflexivity|].
    eapply evolves_trans; [eapply reconstructMessages_evolves; [|exact E4]; reflexivity|].
    eapply evolves_trans; [apply copyIfTyped_evolves; reflexivity|].
    eapply evolves_trans; [apply copyIfTyped_evolves; reflexivity|].
    apply copyIfTyped_evolves; reflexivity. }
  assert (H01 : evolves n h h1) by apply (evolves_alloc n h).
  assert (Hlen : (n <= List.length h7)%nat).
  { apply evolves_length in H17. apply evolves_length in H01. subst n. lia. }
  assert (H78 : evolves n h7 h8)
    by (eapply reconstructCause_evolves; [exact Hlen | exact E8]).
  exists h8. split; [|split; [|reflexivity]].
  - eapply evolves_trans; [exact H01|]. eapply evolves_trans; eassumption.
  - eapply (evolves_plain n h1 h8); [eapply evolves_trans; eassumption|].
    subst h1 n. apply list_lookup_middle. reflexivity.
Qed.

Lemma reconstruct_evolves h error result h' :
  reconstruct self h error = Return (result, h') ->
  evolves (List.length h) h h'.
Proof using self_evolves.
  intros H. apply reconstruct_inv in H as (_ & h8 & H08 & _ & ->).
  eapply evolves_trans; [exact H08|].
  apply reconstructExtraResponseFields_evolves. reflexivity.
Qed.

Lemma correctCause_evolves h error result h' :
  correctCause self h error = Return (result, h') ->
  evolves (List.length h) h h'.
Proof using self_evolves.
  unfold correctCause. intros H.
  destruct (hasProperty h "cause" error).
  - destruct (_ || _).
    + injection H as <- <-. apply evolves_delete. left. reflexivity.
    + bind_inv H. destruct a as [cause h1]. injection H as <- <-.
      apply (evolves_trans _ h h1);
        [eapply self_evolves; eauto | exact (evolves_set_cause _ h1 error cause)].
  - injection H as <- <-. apply evolves_refl.
Qed.
End Recursion.

(** The frame of [toIBaseError]: whatever it returns, the objects of the
    caller are still there, of their kind, and have kept every property
    other than [cause] and [error]. *)
Lemma toIBaseError_evolves fuel : forall h error result h',
  toIBaseError fuel h error = Return (result, h') ->
  evolves (List.length h) h h'.
Proof.
  induction fuel as [|fuel IH]; intros h error result h' H; simpl in H;
    [discriminate H|].
  destruct (_ || _).
  - injection H as <- <-. apply evolves_alloc.
  - destruct (negb _).
    + eapply reconstruct_evolves; [exact IH | exact H].
    + eapply correctCause_evolves; [exact IH | exact H].
Qed.

(** The last step of a reconstruction: the new object refers to the
    very object that [error.extraResponseFields] refers to, and that
    object has no [error] afterwards. *)
Lemma reconstructExtraResponseFields_shares h error r props fields :
  get h error "extraResponseFields" = JsRef fields ->
  h !! r = Some (PlainObject props) ->
  get (reconstructExtraResponseFields error (JsRef r) h) (JsRef r) "extraResponseFields"
  = JsRef fields
  /\ hasProperty (reconstructExtraResponseFields error (JsRef r) h) "error" (JsRef fields)
     = false.
Proof.
  intros Hget Hr.
  destruct (get_ref_inv _ _ _ _ Hget) as (a & eprops & -> & Ha & Hlook).
  assert (Hhas : hasProperty h "extraResponseFields" (JsRef a) = true).
  { unfold hasProperty. rewrite Ha. simpl. rewrite Hlook. reflexivity. }
  unfold reconstructExtraResponseFields. rewrite Hhas, Hget.
  cbn [isUndefined isNull negb andb typeof]. rewrite String.eqb_refl.
  assert (Hrlt : (r < List.length h)%nat) by (eapply lookup_lt_Some; eauto).
  set (h1 := set h (JsRef r) "extraResponseFields" (JsRef fields)).
  assert (Hh1 : h1 = <[r := PlainObject (setProp "extraResponseFields" (JsRef fields) props)]> h).
  { unfold h1, set. rewrite Hr. reflexivity. }
  assert (Hr1 : h1 !! r
                = Some (PlainObject (setProp "extraResponseFields" (JsRef fields) props))).
  { rewrite Hh1. apply list_lookup_insert_eq. exact Hrlt. }
  assert (Hget1 : get h1 (JsRef r) "extraResponseFields" = JsRef fields).
  { unfold get. rewrite Hr1. simpl. rewrite lookupProp_setProp_eq. reflexivity. }
  rewrite Hget1.
  destruct (hasProperty h1 "error" (JsRef fields)) eqn:Herr; [|auto].
  unfold hasProperty in Herr. unfold delete.
  destruct (h1 !! fields) as [c|] eqn:Hf; [|discriminate Herr].
  assert (Hflt : (fields < List.length h1)%nat) by (eapply lookup_lt_Some; eauto).
  split.
  - unfold get. destruct (decide (fields = r)) as [-> | Hne].
    + rewrite list_lookup_insert_eq by exact Hflt.
      rewrite Hr1 in Hf. injection Hf as <-. simpl.
      rewrite lookupProp_deleteProp_ne by discriminate.
      rewrite lookupProp_setProp_eq. reflexivity.
    + rewrite list_lookup_insert_ne by exact Hne.
      rewrite Hr1. simpl. rewrite lookupProp_setProp_eq. reflexivity.
  - unfold hasProperty. rewrite list_lookup_insert_eq by exact Hflt.
    destruct c as [fprops|items]; simpl; [|reflexivity].
    rewrite lookupProp_deleteProp_eq. reflexivity.
Qed.

Lemma copyIfTyped_sameBelow n key type error r h :
  (n <= r)%nat -> sameBelow n h (copyIfTyped key type error (JsRef r) h).
Proof.
  intros Hr. unfold copyIfTyped.
  destruct (_ && _); [apply sameBelow_set_fresh; exact Hr | intros l _; reflexivity].
Qed.

Lemma toIBaseError_reconstruct fuel h a :
  shallowIsIBaseError h (JsRef a) = false ->
  toIBaseError (S fuel) h (JsRef a) = reconstruct (toIBaseError fuel) h (JsRef a).
Proof. intros H. simpl. rewrite H. reflexivity. Qed.

(** A reconstruction returns when the object has a string message and
    neither [messages] nor [cause]. *)
Lemma reconstruct_returns self h a s :
  get h (JsRef a) "message" = JsString s ->
  hasProperty h "messages" (JsRef a) = false ->
  hasProperty h "cause" (JsRef a) = false ->
  exists h7,
    reconstruct self h (JsRef a)
    = Return (JsRef (List.length h),
              reconstructExtraResponseFields (JsRef a) (JsRef (List.length h)) h7).
Proof.
  intros Hmsg Hmessages Hcause.
  destruct (get_string_inv _ _ _ _ Hmsg) as (a' & Ha' & Halt & Hhas).
  injection Ha' as <-.
  unfold reconstruct, reconstructMessage. rewrite Hhas, Hmsg.
  change (String.eqb (typeof (JsString s)) "string") with true.
  cbn [andb bind]. unfold alloc. cbv beta iota zeta.
  set (n := List.length h).
  set (h1 := (h ++ [PlainObject [("message", JsString s)]])%list).
  set (h2 := copyIfTyped "code" "string" (JsRef a) (JsRef n) h1).
  set (h3 := copyIfTyped "status" "number" (JsRef a) (JsRef n) h2).
  assert (S3 : sameBelow n h h3).
  { eapply sameBelow_trans; [apply (sameBelow_alloc h)|].
    eapply sameBelow_trans; apply copyIfTyped_sameBelow; reflexivity. }
  unfold reconstructMessages.
  rewrite (proj1 (sameBelow_hasProperty _ _ _ _ "messages" S3 Halt)), Hmessages.
  cbn [andb bind].
  set (h5 := copyIfTyped "stack" "string" (JsRef a) (JsRef n) h3).
  set (h6 := copyIfTyped "sensitive" "boolean" (JsRef a) (JsRef n) h5).
  set (h7 := copyIfTyped "silent" "boolean" (JsRef a) (JsRef n) h6).
  assert (S7 : sameBelow n h h7).
  { eapply sameBelow_trans; [exact S3|].
    eapply sameBelow_trans; [apply copyIfTyped_sameBelow; reflexivity|].
    eapply sameBelow_trans; apply copyIfTyped_sameBelow; reflexivity. }
  unfold reconstructCause.
  rewrite (proj1 (sameBelow_hasProperty _ _ _ _ "cause" S7 Halt)), Hcause.
  cbn [andb bind]. eauto.
Qed.

(** C10: on the reconstruction path, with [error.extraResponseFields] an
    object, whatever [toIBaseError] returns is a new object whose
    [extraResponseFields] is that same object of the caller, which has no
    [error] key afterwards (and has kept its other properties, [cause]
    apart); and the call does return when [error] has a string message
    and neither [messages] nor [cause]. *)
Theorem toIBaseError_reconstruction_shares_extraResponseFields h error fields :
  shallowIsIBaseError h error = false ->
  get h error "extraResponseFields" = JsRef fields ->
  (forall fuel result h',
      toIBaseError fuel h error = Return (result, h') ->
      result = JsRef (List.length h)
      /\ get h' result "extraResponseFields" = JsRef fields
      /\ hasProperty h' "error" (JsRef fields) = false
      /\ (is_Some (h !! fields) ->
          forall key, key <> "error" -> key <> "cause" ->
                      get h' (JsRef fields) key = get h (JsRef fields) key))
  /\ ((exists s, get h error "message" = JsString s) ->
      hasProperty h "messages" error = false ->
      hasProperty h "cause" error = false ->
      forall fuel, exists result h',
          toIBaseError (S fuel) h error = Return (result, h')).
Proof.
  intros Hshallow Hget.
  destruct (get_ref_inv _ _ _ _ Hget) as (a & eprops & -> & Ha & Hlook).
  assert (Halt : (a < List.length h)%nat) by (eapply lookup_lt_Some; eauto).
  split.
  - intros fuel result h' Hrun.
    pose proof (toIBaseError_evolves _ _ _ _ _ Hrun) as Hev.
    destruct fuel as [|fuel]; [discriminate Hrun|].
    rewrite toIBaseError_reconstruct in Hrun by exact Hshallow.
    apply (reconstruct_inv _ (toIBaseError_evolves fuel)) in Hrun
      as (-> & h8 & H08 & (props & Hr) & ->).
    split; [reflexivity|].
    assert (Hget8 : get h8 (JsRef a) "extraResponseFields" = JsRef fields).
    { rewrite <- Hget.
      apply (evolves_get _ _ _ _ _ H08 Halt); [eauto | discriminate | discriminate]. }
    destruct (reconstructExtraResponseFields_shares _ _ _ _ _ Hget8 Hr) as [H1 H2].
    split; [exact H1|]. split; [exact H2|].
    intros Hf key Hk1 Hk2.
    apply (evolves_get _ _ _ _ _ Hev); [|exact Hf|exact Hk2|exact Hk1].
    destruct Hf as [c Hc]. eapply lookup_lt_Some; eauto.
  - intros [s Hmsg] Hmessages Hcause fuel.
    rewrite toIBaseError_reconstruct by exact Hshallow.
    destruct (reconstruct_returns (toIBaseError fuel) _ _ _ Hmsg Hmessages Hcause)
      as [h7 Hret].
    rewrite Hret. eauto.
Qed.

Lemma toIBaseError_reconstruction_shares_extraResponseFields_witness :
  shallowIsIBaseError Examples.badCode (JsRef 0) = false
  /\ get Examples.badCode (JsRef 0) "extraResponseFields" = JsRef 1
  /\ hasProperty Examples.badCode "error" (JsRef 1) = true
  /\ exists result h',
       toIBaseError 1 Examples.badCode (JsRef 0) = Return (result, h')
       /\ result = JsRef 2
       /\ get h' result "extraResponseFields" = JsRef 1
       /\ hasProperty h' "error" (JsRef 1) = false
       /\ get h' (JsRef 1) "more" = JsString "a".
Proof.
  split; [reflexivity|]. split; [reflexivity|]. split; [reflexivity|].
  destruct (toIBaseError_reconstruction_shares_extraResponseFields
              Examples.badCode (JsRef 0) 1%nat eq_refl eq_refl) as [Hshare Hreturns].
  destruct (Hreturns (ex_intro _ "x" eq_refl) eq_refl eq_refl 0%nat)
    as (result & h' & Hrun).
  exists result, h'. split; [exact Hrun|].
  destruct (Hshare _ _ _ Hrun) as (Hresult & Hfields & Herror & Hkeep).
  split; [exact Hresult|]. split; [exact Hfields|]. split; [exact Herror|].
  rewrite Hkeep; [reflexivity | eexists; reflexivity | discriminate | discriminate].
Defined.

(** C2 (the code departs from it): for
    [{ message: "bad", messages: [{ message: 5 }] }] the normaliser
    returns a new object whose [messages] still holds the issue with the
    numeric message, and the result fails [isIBaseError]. *)
Theorem toIBaseError_keeps_issue_without_string_message fuel :
  toIBaseError (S fuel) Examples.issueNotString (JsRef 0)
  = Return (JsRef 3,
            (Examples.issueNotString
               ++ [ PlainObject [("message", JsString "bad"); ("messages", JsRef 4)];
                    ArrayObject [JsRef 2] ])%list)
  /\ isIBaseError (S fuel)
       (Examples.issueNotString
          ++ [ PlainObject [("message", JsString "bad"); ("messages", JsRef 4)];
               ArrayObject [JsRef 2] ])%list
       (JsRef 3)
     = Some false.
Proof. split; reflexivity. Qed.

(** C3 (the code departs from it): the normaliser throws a [TypeError]
    for [{ message: "bad", messages: [null] }], where the callback
    evaluates [in] on [null], and for [{ reason: 10n }], where
    [JSON.stringify] meets a [BigInt]. *)
Theorem toIBaseError_throws fuel :
  toIBaseError (S fuel) Examples.issueNull (JsRef 0) = Throw TypeError
  /\ toIBaseError (S fuel) Examples.bigIntField (JsRef 0) = Throw TypeError.
Proof. split; reflexivity. Qed.

(** *** The shallow check against the shape *)

Lemma typeof_string v :
  String.eqb (typeof v) "string" = true <-> exists s, v = JsString s.
Proof.
  destruct v; simpl; split; try discriminate; eauto;
    intros [? Hs]; discriminate Hs.
Qed.

Lemma typeof_number v :
  String.eqb (typeof v) "number" = true <-> exists n, v = JsNumber n.
Proof.
  destruct v; simpl; split; try discriminate; eauto;
    intros [? Hs]; discriminate Hs.
Qed.

Lemma typeof_boolean v :
  String.eqb (typeof v) "boolean" = true <-> exists b, v = JsBoolean b.
Proof.
  destruct v; simpl; split; try discriminate; eauto;
    intros [? Hs]; discriminate Hs.
Qed.

Lemma typeof_object v :
  String.eqb (typeof v) "object" && negb (isNull v) = true <-> exists l, v = JsRef l.
Proof.
  destruct v; simpl; split; try discriminate; eauto;
    intros [? Hs]; discriminate Hs.
Qed.

Lemma isUndefined_true v : isUndefined v = true <-> v = JsUndefined.
Proof. destruct v; simpl; split; congruence. Qed.

(** An optional field passes exactly when, present and not [undefined],
    it has the type. *)
Lemma optionalFieldOk_iff h error key type (P : value -> Prop) :
  (forall v, String.eqb (typeof v) type = true <-> P v) ->
  optionalFieldOk h error key type = true
  <-> (hasProperty h key error = true ->
       get h error key <> JsUndefined -> P (get h error key)).
Proof.
  intros HP. unfold optionalFieldOk.
  destruct (hasProperty h key error); simpl; [|split; [discriminate | reflexivity]].
  destruct (isUndefined (get h error key)) eqn:Eu; simpl.
  - apply isUndefined_true in Eu. split; [congruence | reflexivity].
  - rewrite HP. split; [auto|]. intros H. apply H; [reflexivity|].
    intros Hu. apply isUndefined_true in Hu. congruence.
Qed.

Lemma isValidationIssue_iff h item :
  isValidationIssue h item = true <-> Shape.IsIssue h item.
Proof.
  unfold isValidationIssue, Shape.IsIssue.
  rewrite 2 andb_true_iff, typeof_object, typeof_string. split.
  - intros [[[l ->] _] [s Hs]]. eauto.
  - intros (l & s & -> & Hs). split; [split; [eauto|]|eauto].
    destruct (get_string_inv _ _ _ _ Hs) as (_ & _ & _ & Hhas). exact Hhas.
Qed.

Lemma issues_iff h v :
  isArray h v && forallb (isValidationIssue h) (arrayItems h v) = true
  <-> Shape.hasType h Shape.IssuesField v.
Proof.
  unfold isArray, arrayItems; simpl. split.
  - destruct v; simpl; try discriminate.
    destruct (h !! l) as [[props|items]|] eqn:E; simpl; try discriminate.
    intros H. exists l, items. split; [reflexivity|]. split; [exact E|].
    apply Forall_forall. intros item Hin. apply isValidationIssue_iff.
    rewrite forallb_forall in H. apply H. apply list_elem_of_In. exact Hin.
  - intros (l & items & -> & E & Hall). rewrite E. simpl.
    apply forallb_forall. intros item Hin. apply isValidationIssue_iff.
    rewrite Forall_forall in Hall. apply Hall. apply list_elem_of_In. exact Hin.
Qed.

Lemma responseFields_iff h v :
  String.eqb (typeof v) "object" && negb (isNull v) && negb (hasProperty h "error" v)
  = true
  <-> Shape.hasType h Shape.ResponseFieldsField v.
Proof.
  simpl. rewrite andb_true_iff, typeof_object, negb_true_iff. split.
  - intros [[l ->] H]. eauto.
  - intros (l & -> & H). eauto.
Qed.

(** The two fields that the check spells out fit the same scheme. *)
Lemma spelledFieldOk_iff h error key (check : bool) (P : Prop) :
  (check = true <-> P) ->
  negb (hasProperty h key error) || isUndefined (get h error key) || check = true
  <-> (hasProperty h key error = true -> get h error key <> JsUndefined -> P).
Proof.
  intros HP.
  destruct (hasProperty h key error); simpl; [|split; [discriminate | reflexivity]].
  destruct (isUndefined (get h error key)) eqn:Eu; simpl.
  - apply isUndefined_true in Eu. split; [congruence | reflexivity].
  - rewrite HP. split; [auto|]. intros H. apply H; [reflexivity|].
    intros Hu. apply isUndefined_true in Hu. congruence.
Qed.

(** What the code of [shallowIsIBaseError] does check: it accepts exactly
    the non-null objects with a string [message] whose [code], [status],
    [messages], [stack], [sensitive], [silent] and [extraResponseFields],
    when present and not [undefined], pass the test written for them. *)
Theorem shallowIsIBaseError_iff h error :
  shallowIsIBaseError h error = true <-> Shape.ShallowConformant h error.
Proof.
  unfold shallowIsIBaseError, Shape.ShallowConformant.
  rewrite !andb_true_iff.
  rewrite (optionalFieldOk_iff h error "code" "string" _ typeof_string).
  rewrite (optionalFieldOk_iff h error "status" "number" _ typeof_number).
  rewrite (optionalFieldOk_iff h error "stack" "string" _ typeof_string).
  rewrite (optionalFieldOk_iff h error "sensitive" "boolean" _ typeof_boolean).
  rewrite (optionalFieldOk_iff h error "silent" "boolean" _ typeof_boolean).
  rewrite (spelledFieldOk_iff h error "messages" _ _
             (issues_iff h (get h error "messages"))).
  rewrite (spelledFieldOk_iff h error "extraResponseFields" _ _
             (responseFields_iff h (get h error "extraResponseFields"))).
  rewrite typeof_string.
  split.
  - intros [[[[[[[[[[Hobj Hnull] Hhas] Hmsg] Hcode] Hstatus] Hmessages] Hstack]
                Hsensitive] Hsilent] Hextra].
    split. { apply typeof_object. rewrite Hobj, Hnull. reflexivity. }
    split; [exact Hmsg|].
    intros key t Hin. simpl in Hin.
    repeat (destruct Hin as [Hin | Hin];
            [injection Hin as <- <-; assumption|]).
    contradiction.
  - intros (Hobj & Hmsg & Hfields).
    apply typeof_object in Hobj. apply andb_true_iff in Hobj as [Hobj Hnull].
    destruct Hmsg as [s Hs].
    destruct (get_string_inv _ _ _ _ Hs) as (_ & _ & _ & Hhas).
    repeat split; eauto;
      intros Hpresent Hdefined;
      match goal with
      | |- context [get h error ?key] =>
          match goal with
          | |- exists _, _ = JsString _ =>
              apply (Hfields key Shape.StringField); [simpl; tauto | assumption..]
          | |- exists _, _ = JsNumber _ =>
              apply (Hfields key Shape.NumberField); [simpl; tauto | assumption..]
          | |- exists _, _ = JsBoolean _ =>
              apply (Hfields key Shape.BooleanField); [simpl; tauto | assumption..]
          | |- Shape.hasType _ ?t _ =>
              apply (Hfields key t); [simpl; tauto | assumption..]
          end
      end.
Qed.

End BaseFacts.


(* ===================================================================== *)
(** ** More about the analyser, the response and the log *)
(* ===================================================================== *)

Module ReportingMore.
Import Chain ChainFacts Reporting Notions ReportingFacts.

(** Both merge loops: a key is taken over when it is not excluded and is
    not yet found by [in], which also finds the inherited names. *)
Lemma merge_lookup (excl : string -> bool) (fields acc : gmap string JsonEncodable) key :
  map_fold (fun key value acc =>
              if negb (excl key) && negb (js_in key acc)
              then <[key := value]> acc else acc)
           acc fields !! key
  = match acc !! key with
    | Some v => Some v
    | None => if excl key || Js.inherited key then None else fields !! key
    end.
Proof.
  revert key.
  apply (map_fold_weak_ind
           (fun r (m : gmap string JsonEncodable) =>
              forall key,
                r !! key
                = match acc !! key with
                  | Some v => Some v
                  | None => if excl key || Js.inherited key then None else m !! key
                  end)).
  - intros key. rewrite lookup_empty.
    destruct (acc !! key); [reflexivity|]. destruct (_ || _); reflexivity.
  - intros i x m r Hm IH key.
    assert (Hri : r !! i = acc !! i).
    { rewrite IH, Hm. destruct (acc !! i); [reflexivity|].
      destruct (_ || _); reflexivity. }
    destruct (decide (key = i)) as [-> | Hne].
    + rewrite lookup_insert_eq. unfold js_in. rewrite Hri.
      destruct (acc !! i) as [v|] eqn:Ea.
      * rewrite bool_decide_eq_true_2 by eauto. simpl.
        rewrite andb_false_r. rewrite Hri. reflexivity.
      * rewrite bool_decide_eq_false_2 by (intros [? ?]; discriminate). simpl.
        destruct (excl i); simpl; [exact Hri|].
        destruct (Js.inherited i); simpl; [exact Hri|].
        apply lookup_insert_eq.
    + rewrite (lookup_insert_ne m) by congruence.
      destruct (negb (excl i) && negb (js_in i r)); [|apply IH].
      rewrite lookup_insert_ne by congruence. apply IH.
Qed.

Lemma mergeResponseFields_lookup fields acc key :
  mergeResponseFields fields acc !! key
  = match acc !! key with
    | Some v => Some v
    | None => if String.eqb key "error" || Js.inherited key then None else fields !! key
    end.
Proof. exact (merge_lookup (fun key => String.eqb key "error") fields acc key). Qed.

Lemma mergeErrorIdentifiers_lookup ids acc key :
  mergeErrorIdentifiers ids acc !! key
  = match acc !! key with
    | Some v => Some v
    | None => if Js.inherited key then None else ids !! key
    end.
Proof. exact (merge_lookup (fun _ => false) ids acc key). Qed.

Lemma fold_responseFields chain : forall st key,
  PartialReport.extraResponseFields
    (result (fold_left (fun st node => visit node st) chain st)) !! key
  = match PartialReport.extraResponseFields (result st) !! key with
    | Some v => Some v
    | None => if String.eqb key "error" || Js.inherited key then None
              else firstDefined (responseField key) chain
    end.
Proof.
  induction chain as [|node chain IH]; intros st key; simpl.
  - destruct (_ !! key); [reflexivity|]. destruct (_ || _); reflexivity.
  - rewrite IH. simpl. unfold responseField at 2.
    destruct (IBaseError.extraResponseFields node) as [fields|].
    + rewrite mergeResponseFields_lookup.
      destruct (PartialReport.extraResponseFields (result st) !! key); [reflexivity|].
      destruct (_ || _); [reflexivity|].
      destruct (fields !! key); reflexivity.
    + reflexivity.
Qed.

Lemma fold_errorIdentifiers chain : forall st key,
  PartialReport.extraErrorIdentifiers
    (result (fold_left (fun st node => visit node st) chain st)) !! key
  = match PartialReport.extraErrorIdentifiers (result st) !! key with
    | Some v => Some v
    | None => if Js.inherited key then None
              else firstDefined (errorIdentifier key) chain
    end.
Proof.
  induction chain as [|node chain IH]; intros st key; simpl.
  - destruct (_ !! key); [reflexivity|]. destruct (Js.inherited key); reflexivity.
  - rewrite IH. simpl. unfold errorIdentifier at 2.
    destruct (IBaseError.extraErrorIdentifiers node) as [ids|].
    + rewrite mergeErrorIdentifiers_lookup.
      destruct (PartialReport.extraErrorIdentifiers (result st) !! key); [reflexivity|].
      destruct (Js.inherited key); [reflexivity|].
      destruct (ids !! key); reflexivity.
    + reflexivity.
Qed.

Lemma analyze_responseFields cwd e key :
  ErrorReport.extraResponseFields (analyzeErrorStack cwd e) !! key
  = if String.eqb key "error" || Js.inherited key then None
    else firstDefined (responseField key) (nodes e).
Proof.
  unfold analyzeErrorStack. simpl. rewrite loop_fold, fold_responseFields.
  simpl. rewrite lookup_empty. reflexivity.
Qed.

(** X1: an extra response field of the report is the value of the node
    closest to the top whose [extraResponseFields] has the key; the key
    [error] and the names found on every object through its prototype
    ([toString], [constructor], ...) are never taken over. *)
Theorem analyzeErrorStack_extraResponseFields cwd topError key :
  ErrorReport.extraResponseFields (analyzeErrorStack cwd topError) !! key
  = if String.eqb key "error" || Js.inherited key then None
    else firstDefined (responseField key) (nodes topError).
Proof. apply analyze_responseFields. Qed.

(** X2: an extra error identifier of the report is the value of the node
    closest to the top whose [extraErrorIdentifiers] has the key; no key is
    reserved, but the names found through the prototype are never taken
    over. *)
Theorem analyzeErrorStack_extraErrorIdentifiers cwd topError key :
  ErrorReport.extraErrorIdentifiers (analyzeErrorStack cwd topError) !! key
  = if Js.inherited key then None
    else firstDefined (errorIdentifier key) (nodes topError).
Proof.
  unfold analyzeErrorStack. simpl. rewrite loop_fold, fold_errorIdentifiers.
  simpl. rewrite lookup_empty. reflexivity.
Qed.

Lemma analyze_code cwd e :
  ErrorReport.code (analyzeErrorStack cwd e)
  = default "E_UNEXPECTED_ERROR" (firstDefined IBaseError.code (nodes e)).
Proof.
  unfold analyzeErrorStack; simpl.
  rewrite (loop_slot (fun st => PartialReport.code (result st)) IBaseError.code);
    reflexivity.
Qed.

Lemma analyze_validationIssues cwd e :
  ErrorReport.validationIssues (analyzeErrorStack cwd e)
  = firstDefined IBaseError.messages (nodes e).
Proof.
  unfold analyzeErrorStack; simpl.
  rewrite (loop_slot (fun st => PartialReport.validationIssues (result st))
             IBaseError.messages); reflexivity.
Qed.

Lemma analyze_sensitive cwd e :
  ErrorReport.sensitive (analyzeErrorStack cwd e)
  = default false (firstDefined IBaseError.sensitive (nodes e)).
Proof.
  unfold analyzeErrorStack; simpl.
  rewrite (loop_slot (fun st => PartialReport.sensitive (result st))
             IBaseError.sensitive); reflexivity.
Qed.

Lemma analyze_silent cwd e :
  ErrorReport.silent (analyzeErrorStack cwd e)
  = default false (firstDefined resolveSilent (nodes e)).
Proof.
  unfold analyzeErrorStack; simpl.
  rewrite (loop_slot (fun st => PartialReport.silent (result st)) resolveSilent);
    [reflexivity | | reflexivity].
  intros node st. simpl. unfold resolveSilent.
  destruct (IBaseError.silent node); reflexivity.
Qed.

Lemma analyze_causeStack cwd e :
  ErrorReport.causeStack (analyzeErrorStack cwd e) = map IBaseError.message (nodes e).
Proof.
  unfold analyzeErrorStack; simpl. rewrite loop_fold, fold_causeStack. reflexivity.
Qed.

Lemma analyze_rootStackTrace cwd e :
  ErrorReport.rootStackTrace (analyzeErrorStack cwd e) = [].
Proof.
  unfold analyzeErrorStack; simpl. rewrite loop_fold, fold_lastStack. reflexivity.
Qed.

Lemma firstDefined_resolveSilent chain :
  (forall node, In node chain -> IBaseError.silent node = None) ->
  firstDefined resolveSilent chain
  = option_map (fun status => status <? 500) (firstDefined IBaseError.status chain).
Proof.
  induction chain as [|node chain IH]; intros Hall; simpl; [reflexivity|].
  unfold resolveSilent at 1. rewrite (Hall node) by (left; reflexivity).
  destruct (IBaseError.status node); [reflexivity|].
  apply IH. intros node' Hin. apply Hall. right. exact Hin.
Qed.

(** X3: when no node of the chain sets [silent] itself, the report is
    silent exactly when its status is below 500 (the default status 500
    giving a report that is not silent). *)
Theorem analyzeErrorStack_silent_follows_status cwd topError :
  (forall node, In node (nodes topError) -> IBaseError.silent node = None) ->
  ErrorReport.silent (analyzeErrorStack cwd topError)
  = (ErrorReport.status (analyzeErrorStack cwd topError) <? 500).
Proof.
  intros Hall. rewrite analyze_silent, analyze_status.
  rewrite (firstDefined_resolveSilent _ Hall).
  destruct (firstDefined IBaseError.status (nodes topError)); reflexivity.
Qed.

Lemma analyzeErrorStack_silent_follows_status_witness :
  (forall node, In node (nodes Examples.nodeA) -> IBaseError.silent node = None)
  /\ ErrorReport.silent (analyzeErrorStack None Examples.nodeA) = true
  /\ ErrorReport.status (analyzeErrorStack None Examples.nodeA) = 418.
Proof.
  assert (Hall : forall node, In node (nodes Examples.nodeA) ->
                              IBaseError.silent node = None).
  { simpl. intros node [<- | [<- | [<- | []]]]; reflexivity. }
  split; [exact Hall|].
  rewrite (analyzeErrorStack_silent_follows_status None Examples.nodeA Hall).
  split; reflexivity.
Defined.

(** X4: the response to an analysed chain, key by key.  Under [error] it
    has the top message, the first code (or [E_UNEXPECTED_ERROR]), the
    first validation issues, the messages of the whole chain unless the
    first node that sets [sensitive] sets it to true, and, when the stack
    trace is asked for, an empty trace; any other key has the value of the
    topmost node that gives it as an extra response field, unless the name
    is one that every object inherits. *)
Theorem response_of_chain cwd topError options key :
  serializeErrorReport (analyzeErrorStack cwd topError) options !! key
  = if String.eqb key "error" then
      Some (RError
              {| SerializedErrorReport.message := IBaseError.message topError;
                 SerializedErrorReport.code :=
                   default "E_UNEXPECTED_ERROR"
                     (firstDefined IBaseError.code (nodes topError));
                 SerializedErrorReport.validationIssues :=
                   firstDefined IBaseError.messages (nodes topError);
                 SerializedErrorReport.causeStack :=
                   if default false (firstDefined IBaseError.sensitive (nodes topError))
                   then None
                   else Some (map IBaseError.message (nodes topError));
                 SerializedErrorReport.rootStackTrace :=
                   if default false
                        (SerializeErrorReportOptions.includeStackTrace options)
                   then Some [] else None |})
    else if Js.inherited key then None
    else RField <$> firstDefined (responseField key) (nodes topError).
Proof.
  rewrite serialize_lookup, analyze_responseFields.
  destruct (String.eqb key "error") eqn:Ekey; simpl.
  - unfold serializedError.
    rewrite analyze_code, analyze_validationIssues, analyze_sensitive,
      analyze_causeStack, analyze_rootStackTrace.
    reflexivity.
  - destruct (Js.inherited key); [reflexivity|].
    destruct (firstDefined (responseField key) (nodes topError)); reflexivity.
Qed.

(** White space at the start goes with what follows it. *)
Lemma trimStart_app n : forall pad s,
  (String.length pad <= n)%nat ->
  Str.trimStart pad = "" -> Str.trimStart (pad ++ s) = Str.trimStart s.
Proof.
  induction n as [|n IH]; intros pad s Hlen Hpad.
  - destruct pad; [reflexivity | simpl in Hlen; lia].
  - destruct pad as [|c1 rest1]; [reflexivity|].
    simpl in Hlen.
    change (Str.trimStart (String c1 rest1 ++ s))
      with (Str.trimStart (String c1 (rest1 ++ s))).
    cbn [Str.trimStart] in Hpad |- *.
    destruct (Str.whiteSpace1 c1).
    { apply IH; [lia | exact Hpad]. }
    destruct rest1 as [|c2 rest2]; [discriminate Hpad|].
    simpl in Hlen.
    change (String c2 rest2 ++ s) with (String c2 (rest2 ++ s)).
    cbn iota.
    destruct (Str.whiteSpace2 c1 c2).
    { apply IH; [lia | exact Hpad]. }
    destruct rest2 as [|c3 rest3]; [discriminate Hpad|].
    simpl in Hlen.
    change (String c3 rest3 ++ s) with (String c3 (rest3 ++ s)).
    cbn iota.
    destruct (Str.whiteSpace3 c1 c2 c3); [|discriminate Hpad].
    apply IH; [lia | exact Hpad].
Qed.

(** White space at the end goes with what precedes it. *)
Lemma trimEnd_app s : forall pad,
  Str.trimEnd pad = "" -> Str.trimEnd (s ++ pad) = Str.trimEnd s.
Proof.
  induction s as [|c s IH]; intros pad Hpad; [exact Hpad|].
  change (String c s ++ pad) with (String c (s ++ pad)).
  cbn [Str.trimEnd]. rewrite (IH pad Hpad). reflexivity.
Qed.

Lemma eqb_cons_false c s : String.eqb s (String c s) = false.
Proof.
  apply String.eqb_neq. intros H.
  apply (f_equal String.length) in H. simpl in H. lia.
Qed.

(** The marker and a body that has no white space at its ends. *)
Lemma trim_marked body :
  Str.trimEnd body = body -> body <> "" ->
  Str.trimEnd ("at " ++ body) = "at " ++ body.
Proof.
  intros Hend Hne.
  change ("at " ++ body) with (String "a" (String "t" (String " " body))).
  cbn [Str.trimEnd]. rewrite Hend.
  destruct body as [|c1 [|c2 [|c3 rest]]]; [contradiction | reflexivity..].
Qed.

Lemma stripAt_marked body :
  Str.trimStart body = body -> Str.stripAt ("at " ++ body) = body.
Proof.
  intros Hstart.
  change ("at " ++ body) with (String "a" (String "t" (String " " body))).
  unfold Str.stripAt.
  change (Str.trimStart (String " " body)) with (Str.trimStart body).
  rewrite Hstart, eqb_cons_false. reflexivity.
Qed.

(** X5: for a line made of white space, the marker [at], a space, a body
    that is not empty and has no white space at its ends, and white space
    again, the parser gives one frame: the body without its first
    [file://] and, when the working directory is known, without the first
    path into its [node_modules] and with the first occurrence of the
    directory turned into a dot. *)
Theorem parseStackLine_frame cwd pad body pad' :
  Str.trimStart pad = "" -> Str.trimEnd pad' = "" ->
  Str.trimStart body = body -> Str.trimEnd body = body -> body <> "" ->
  parseStackLine cwd (pad ++ "at " ++ body ++ pad')
  = [ match cwd with
      | Some cwd =>
          Str.replace cwd "."
            (Str.replace (cwd ++ "/node_modules/") "" (Str.replace "file://" "" body))
      | None => Str.replace "file://" "" body
      end ].
Proof.
  intros Hpad Hpad' Hstart Hend Hne.
  assert (Htrim : Str.trim (pad ++ "at " ++ body ++ pad') = "at " ++ body).
  { unfold Str.trim.
    rewrite (trimStart_app (String.length pad) pad _ (le_n _) Hpad).
    change (Str.trimStart ("at " ++ body ++ pad')) with ("at " ++ body ++ pad').
    change ("at " ++ body ++ pad') with (("at " ++ body) ++ pad').
    rewrite (trimEnd_app _ pad' Hpad'). apply trim_marked; assumption. }
  unfold parseStackLine. rewrite Htrim.
  change (Str.startsWith "at " ("at " ++ body)) with (String.prefix "" body).
  rewrite stripAt_marked by exact Hstart.
  destruct body; [contradiction|]. cbn [String.prefix negb].
  destruct cwd; reflexivity.
Qed.

Lemma parseStackLine_frame_witness :
  parseStackLine (Some "/srv/app")
    ("    " ++ "at " ++ "foo (file:///srv/app/a.js:1:1)" ++ Examples.noBreakSpace)
  = ["foo (./a.js:1:1)"].
Proof.
  exact (parseStackLine_frame (Some "/srv/app") "    " "foo (file:///srv/app/a.js:1:1)"
           Examples.noBreakSpace eq_refl eq_refl eq_refl eq_refl ltac:(discriminate)).
Defined.






End ReportingMore.


(* ===================================================================== *)
(** ** More about the normaliser *)
(* ===================================================================== *)

Module BaseMore.
Import Js Base Frame StoreFacts BaseFacts StoreNotions.

Lemma lookup_fresh (h : store) (c : cell) : (h ++ [c])%list !! List.length h = Some c.
Proof. apply list_lookup_middle. reflexivity. Qed.

(** X7: for a value that is not an object ([undefined], [null], a boolean,
    an integer number, a bigint or a string) the normaliser puts one new object
    [{ message: String(value) }] after the objects of the store, leaves
    these alone, and returns the new object, which passes [isIBaseError]. *)
Theorem toIBaseError_primitive fuel fuel' h v :
  isPrimitive v = true ->
  toIBaseError (S fuel) h v
  = Return (JsRef (List.length h),
            (h ++ [PlainObject [("message", JsString (toString v))]])%list)
  /\ isIBaseError (S fuel')
       (h ++ [PlainObject [("message", JsString (toString v))]])%list
       (JsRef (List.length h))
     = Some true.
Proof.
  intros Hprim. split.
  - destruct v; try discriminate Hprim; reflexivity.
  - simpl. unfold shallowIsIBaseError, optionalFieldOk, hasProperty, get.
    rewrite !lookup_fresh. reflexivity.
Qed.

Lemma toIBaseError_primitive_witness :
  toIBaseError 1 Examples.badCode (JsNumber 42)
  = Return (JsRef 2,
            (Examples.badCode ++ [PlainObject [("message", JsString "42")]])%list)
  /\ isIBaseError 1
       (Examples.badCode ++ [PlainObject [("message", JsString "42")]])%list (JsRef 2)
     = Some true.
Proof. exact (toIBaseError_primitive 0 0 Examples.badCode (JsNumber 42) eq_refl). Defined.

(** *** Errors that are repaired in place *)

Lemma cellPruned_refl a c : cellPruned a c c.
Proof. destruct c; simpl; auto. Qed.

Lemma pruned_refl a h : pruned a h h.
Proof.
  split; [reflexivity|]. intros l c Hl. exists c.
  split; [exact Hl | apply cellPruned_refl].
Qed.

Lemma pruned_cell a h h' l :
  pruned a h h' ->
  match h !! l, h' !! l with
  | Some c, Some c' => cellPruned a c c'
  | None, None => True
  | _, _ => False
  end.
Proof.
  intros [Hlen Hcells]. destruct (h !! l) as [c|] eqn:Hl.
  - destruct (Hcells l c Hl) as (c' & -> & Hc). exact Hc.
  - apply lookup_ge_None in Hl. rewrite <- Hlen in Hl.
    apply lookup_ge_None in Hl. rewrite Hl. exact I.
Qed.

Lemma pruned_reads a h h' key v :
  pruned a h h' -> key <> "cause" ->
  hasProperty h' key v = hasProperty h key v /\ get h' v key = get h v key.
Proof.
  intros Hp Hkey. destruct v; try (split; reflexivity).
  pose proof (pruned_cell a h h' l Hp) as Hc. unfold hasProperty, get.
  destruct (h !! l) as [[props|items]|], (h' !! l) as [[props'|items']|];
    simpl in *; try contradiction; auto.
  destruct (Hc key) as [-> | (Hk & _)]; [auto | contradiction].
Qed.

Lemma pruned_arrays a h h' v :
  pruned a h h' -> isArray h' v = isArray h v /\ arrayItems h' v = arrayItems h v.
Proof.
  intros Hp. destruct v; try (split; reflexivity).
  pose proof (pruned_cell a h h' l Hp) as Hc. unfold isArray, arrayItems.
  destruct (h !! l) as [[props|items]|], (h' !! l) as [[props'|items']|];
    simpl in *; try contradiction; subst; auto.
Qed.

Lemma forallb_eq {A} (f g : A -> bool) l :
  (forall x, f x = g x) -> forallb f l = forallb g l.
Proof. intros H. induction l as [|x l IH]; simpl; [reflexivity | rewrite H, IH; reflexivity]. Qed.

Lemma pruned_isValidationIssue a h h' v :
  pruned a h h' -> isValidationIssue h' v = isValidationIssue h v.
Proof.
  intros Hp. unfold isValidationIssue.
  destruct (pruned_reads a h h' "message" v Hp) as [-> ->]; [discriminate|].
  reflexivity.
Qed.

(** The shallow check does not read [cause]. *)
Lemma pruned_shallow a h h' v :
  pruned a h h' -> shallowIsIBaseError h' v = shallowIsIBaseError h v.
Proof.
  intros Hp. unfold shallowIsIBaseError, optionalFieldOk.
  repeat match goal with
         | |- context [hasProperty h' ?key ?x] =>
             rewrite (proj1 (pruned_reads a h h' key x Hp ltac:(discriminate)))
         | |- context [get h' ?x ?key] =>
             rewrite (proj2 (pruned_reads a h h' key x Hp ltac:(discriminate)))
         | |- context [isArray h' ?x] => rewrite (proj1 (pruned_arrays a h h' x Hp))
         | |- context [arrayItems h' ?x] => rewrite (proj2 (pruned_arrays a h h' x Hp))
         end.
  rewrite (forallb_eq (isValidationIssue h') (isValidationIssue h))
    by (intros x; apply pruned_isValidationIssue with a; exact Hp).
  reflexivity.
Qed.

Lemma pruned_cause_kept a h h' v target :
  pruned a h h' -> get h v "cause" = JsRef target ->
  hasProperty h' "cause" v = true /\ get h' v "cause" = JsRef target.
Proof.
  intros Hp Hget.
  destruct (get_ref_inv _ _ _ _ Hget) as (l & props & -> & Hl & Hlook).
  pose proof (pruned_cell a h h' l Hp) as Hc. rewrite Hl in Hc.
  unfold hasProperty, get.
  destruct (h' !! l) as [[props'|items']|]; simpl in *; try contradiction.
  destruct (Hc "cause") as [Heq | (_ & _ & [Hu | [_ Hn]])];
    [|congruence|congruence].
  rewrite Heq, Hlook. auto.
Qed.

Lemma pruned_delete a h v :
  get h v "cause" = JsUndefined \/ (a = true /\ get h v "cause" = JsNull) ->
  pruned a h (delete h v "cause").
Proof.
  intros Hget. destruct v; try apply pruned_refl.
  unfold delete. destruct (h !! l) as [c|] eqn:Hl; [|apply pruned_refl].
  split; [apply length_insert|].
  intros l0 c0 Hl0. destruct (decide (l = l0)) as [<- | Hne].
  - exists (cellDelete "cause" c). split.
    + apply list_lookup_insert_eq. eapply lookup_lt_Some; eauto.
    + rewrite Hl in Hl0. injection Hl0 as <-.
      unfold get in Hget. rewrite Hl in Hget.
      destruct c as [props|items]; simpl in *; [|reflexivity].
      intros key. destruct (String.eqb_spec key "cause") as [-> | Hkey].
      * rewrite lookupProp_deleteProp_eq.
        destruct (lookupProp "cause" props) as [x|]; [|auto].
        simpl in Hget. right. split; [reflexivity|]. split; [reflexivity|].
        destruct Hget as [-> | [Ha ->]]; auto.
      * left. apply lookupProp_deleteProp_ne. congruence.
  - exists c0. split; [|apply cellPruned_refl].
    rewrite list_lookup_insert_ne; [exact Hl0 | exact Hne].
Qed.

Lemma hasProperty_delete_cause h v :
  hasProperty (delete h v "cause") "cause" v = false.
Proof.
  destruct v; try reflexivity. unfold delete, hasProperty.
  destruct (h !! l) as [c|] eqn:Hl; [|rewrite Hl; reflexivity].
  rewrite list_lookup_insert_eq by (eapply lookup_lt_Some; eauto).
  destruct c as [props|items]; simpl; [|reflexivity].
  rewrite lookupProp_deleteProp_eq. reflexivity.
Qed.

Lemma setProp_same key x props :
  lookupProp key props = Some x -> setProp key x props = props.
Proof.
  induction props as [|[k y] rest IH]; simpl; [discriminate|].
  destruct (String.eqb k key) eqn:E.
  - intros H. injection H as ->. reflexivity.
  - intros H. rewrite (IH H). reflexivity.
Qed.

(** Assigning to a property the object it already refers to changes
    nothing. *)
Lemma set_same h v key target :
  get h v key = JsRef target -> set h v key (JsRef target) = h.
Proof.
  intros Hget.
  destruct (get_ref_inv _ _ _ _ Hget) as (l & props & -> & Hl & Hlook).
  unfold set. rewrite Hl. simpl. rewrite (setProp_same _ _ _ Hlook).
  apply list_insert_id. exact Hl.
Qed.

Lemma chainShallow_ref a fuel h v :
  chainShallow a fuel h v = true -> exists l, v = JsRef l.
Proof.
  destruct fuel as [|fuel]; simpl; [discriminate|].
  destruct v; simpl; try discriminate. eauto.
Qed.

Lemma toIBaseError_kept fuel h v :
  String.eqb (typeof v) "object" = true -> isNull v = false ->
  shallowIsIBaseError h v = true ->
  toIBaseError (S fuel) h v = correctCause (toIBaseError fuel) h v.
Proof. intros H1 H2 H3. simpl. rewrite H1, H2, H3. reflexivity. Qed.

Lemma isIBaseError_step fuel h v :
  String.eqb (typeof v) "object" = true -> isNull v = false ->
  shallowIsIBaseError h v = true ->
  isIBaseError (S fuel) h v
  = if negb (hasProperty h "cause" v) || isUndefined (get h v "cause")
    then Some true else isIBaseError fuel h (get h v "cause").
Proof. intros H1 H2 H3. simpl. rewrite H1, H2, H3. reflexivity. Qed.

(** A chain of errors that pass the shallow check is kept: the normaliser
    returns the same object, only removes [cause] properties that end the
    chain, and the result passes the deep check. *)
Lemma toIBaseError_chainShallow a fuel : forall h v,
  chainShallow a fuel h v = true ->
  exists h',
    toIBaseError fuel h v = Return (v, h')
    /\ pruned a h h'
    /\ isIBaseError fuel h' v = Some true.
Proof.
  induction fuel as [|fuel IH]; intros h v Hchain; [discriminate Hchain|].
  simpl in Hchain.
  apply andb_true_iff in Hchain as [Hchain Hcause].
  apply andb_true_iff in Hchain as [Hchain Hshallow].
  apply andb_true_iff in Hchain as [Hobj Hnull].
  apply negb_true_iff in Hnull.
  rewrite toIBaseError_kept by assumption.
  unfold correctCause.
  destruct (hasProperty h "cause" v) eqn:Hhas; simpl in Hcause.
  - destruct (isUndefined (get h v "cause")) eqn:Hundef; simpl in Hcause; cbn [orb].
    + exists (delete h v "cause").
      assert (Hp : pruned a h (delete h v "cause")).
      { apply pruned_delete. left. apply isUndefined_true. exact Hundef. }
      split; [reflexivity|]. split; [exact Hp|].
      rewrite isIBaseError_step; try assumption.
      * rewrite hasProperty_delete_cause. reflexivity.
      * rewrite (pruned_shallow _ _ _ _ Hp). exact Hshallow.
    + destruct (isNull (get h v "cause")) eqn:Hisnull; simpl in Hcause; cbn [orb].
      * rewrite andb_true_r in Hcause.
        assert (Ha : a = true).
        { destruct a; [reflexivity|]. simpl in Hcause.
          apply chainShallow_ref in Hcause as [l Hl].
          rewrite Hl in Hisnull. discriminate Hisnull. }
        exists (delete h v "cause").
        assert (Hp : pruned a h (delete h v "cause")).
        { apply pruned_delete. right. split; [exact Ha|].
          destruct (get h v "cause"); try discriminate Hisnull. reflexivity. }
        split; [reflexivity|]. split; [exact Hp|].
        rewrite isIBaseError_step; try assumption.
        -- rewrite hasProperty_delete_cause. reflexivity.
        -- rewrite (pruned_shallow _ _ _ _ Hp). exact Hshallow.
      * rewrite andb_false_r in Hcause. simpl in Hcause.
        destruct (chainShallow_ref _ _ _ _ Hcause) as [target Htarget].
        destruct (IH h _ Hcause) as (h1 & Hrun & Hp & Hok).
        rewrite Hrun. cbn [bind].
        destruct (pruned_cause_kept _ _ _ _ _ Hp Htarget) as [Hhas1 Hget1].
        exists h1. rewrite Htarget, (set_same _ _ _ _ Hget1).
        split; [reflexivity|]. split; [exact Hp|].
        rewrite isIBaseError_step; try assumption.
        -- rewrite Hhas1, Hget1. simpl. rewrite <- Htarget. exact Hok.
        -- rewrite (pruned_shallow _ _ _ _ Hp). exact Hshallow.
  - exists h. split; [reflexivity|]. split; [apply pruned_refl|].
    rewrite isIBaseError_step by assumption. rewrite Hhas. reflexivity.
Qed.

(** X8: when every error down the cause chain passes the shallow check
    and the chain ends in an error with no [cause], or with [cause]
    [undefined] or [null], the normaliser returns the very same object; in
    the store it only removes [cause] properties that held [undefined] or
    [null], and the result passes [isIBaseError]. *)
Theorem toIBaseError_repairs_in_place fuel h v :
  chainShallow true fuel h v = true ->
  exists h',
    toIBaseError fuel h v = Return (v, h')
    /\ pruned true h h'
    /\ isIBaseError fuel h' v = Some true.
Proof. apply toIBaseError_chainShallow. Qed.

Lemma toIBaseError_repairs_in_place_witness :
  chainShallow true 2 MoreExamples.nullCause (JsRef 0) = true
  /\ isIBaseError 3 MoreExamples.nullCause (JsRef 0) = Some false
  /\ exists h',
       toIBaseError 2 MoreExamples.nullCause (JsRef 0) = Return (JsRef 0, h')
       /\ pruned true MoreExamples.nullCause h'
       /\ isIBaseError 2 h' (JsRef 0) = Some true.
Proof.
  split; [reflexivity|]. split; [reflexivity|].
  exact (toIBaseError_repairs_in_place 2 MoreExamples.nullCause (JsRef 0) eq_refl).
Defined.

Lemma isIBaseError_chainShallow fuel : forall h v,
  isIBaseError fuel h v = Some true -> chainShallow false fuel h v = true.
Proof.
  induction fuel as [|fuel IH]; intros h v H; [discriminate H|].
  simpl in H |- *.
  destruct (String.eqb (typeof v) "object" && negb (isNull v)
            && shallowIsIBaseError h v); [|discriminate H].
  simpl.
  destruct (negb (hasProperty h "cause" v) || isUndefined (get h v "cause"));
    [reflexivity|].
  simpl. apply IH. exact H.
Qed.

Lemma pruned_false_get h h' v key :
  pruned false h h' -> get h' v key = get h v key.
Proof.
  intros Hp. destruct v; try reflexivity.
  pose proof (pruned_cell false h h' l Hp) as Hc. unfold get.
  destruct (h !! l) as [[props|items]|], (h' !! l) as [[props'|items']|];
    simpl in *; try contradiction; auto.
  destruct (Hc key) as [-> | (_ & -> & [-> | [Hf _]])];
    [reflexivity | reflexivity | discriminate Hf].
Qed.

(** X9: an error that passes [isIBaseError] is returned as the very same
    object and still passes; the store keeps its objects, and every
    property of every object reads as before (the only change is that a
    [cause] property holding [undefined] is removed). *)
Theorem toIBaseError_conformant_identity fuel h v :
  isIBaseError fuel h v = Some true ->
  exists h',
    toIBaseError fuel h v = Return (v, h')
    /\ isIBaseError fuel h' v = Some true
    /\ List.length h' = List.length h
    /\ forall x key, get h' x key = get h x key.
Proof.
  intros Hok. apply isIBaseError_chainShallow in Hok.
  destruct (toIBaseError_chainShallow _ _ _ _ Hok) as (h' & Hrun & Hp & Hok').
  exists h'. split; [exact Hrun|]. split; [exact Hok'|].
  split; [exact (proj1 Hp)|].
  intros x key. apply pruned_false_get. exact Hp.
Qed.

Lemma toIBaseError_conformant_identity_witness :
  isIBaseError 2 MoreExamples.conformant (JsRef 0) = Some true
  /\ exists h',
       toIBaseError 2 MoreExamples.conformant (JsRef 0) = Return (JsRef 0, h')
       /\ isIBaseError 2 h' (JsRef 0) = Some true
       /\ List.length h' = 2%nat
       /\ forall x key, get h' x key = get MoreExamples.conformant x key.
Proof.
  split; [reflexivity|].
  exact (toIBaseError_conformant_identity 2 MoreExamples.conformant (JsRef 0) eq_refl).
Defined.

(** X10: [cause: null] is where the check and the normaliser part: an
    object that passes the shallow check and whose [cause] is [null] fails
    [isIBaseError], and the normaliser returns it after deleting its
    [cause], upon which it passes. *)
Theorem toIBaseError_null_cause fuel fuel' h v :
  shallowIsIBaseError h v = true ->
  get h v "cause" = JsNull ->
  isIBaseError (S (S fuel)) h v = Some false
  /\ toIBaseError (S fuel) h v = Return (v, delete h v "cause")
  /\ isIBaseError (S fuel') (delete h v "cause") v = Some true.
Proof.
  intros Hshallow Hget.
  assert (Hobj : String.eqb (typeof v) "object" = true /\ isNull v = false).
  { destruct v; try discriminate Hget. split; reflexivity. }
  destruct Hobj as [Hobj Hnull].
  assert (Hhas : hasProperty h "cause" v = true).
  { unfold get in Hget. unfold hasProperty. destruct v; try discriminate Hget.
    destruct (h !! l) as [[props|items]|]; simpl in *; try discriminate Hget.
    destruct (lookupProp "cause" props); [reflexivity | discriminate Hget]. }
  split; [|split].
  - rewrite isIBaseError_step by assumption. rewrite Hhas, Hget. reflexivity.
  - rewrite toIBaseError_kept by assumption.
    unfold correctCause. rewrite Hhas, Hget. reflexivity.
  - assert (Hp : pruned true h (delete h v "cause")).
    { apply pruned_delete. right. split; [reflexivity | exact Hget]. }
    rewrite isIBaseError_step; try assumption.
    + rewrite hasProperty_delete_cause. reflexivity.
    + rewrite (pruned_shallow _ _ _ _ Hp). exact Hshallow.
Qed.

Lemma toIBaseError_null_cause_witness :
  shallowIsIBaseError MoreExamples.nullCause (JsRef 1) = true
  /\ get MoreExamples.nullCause (JsRef 1) "cause" = JsNull
  /\ isIBaseError 2 MoreExamples.nullCause (JsRef 1) = Some false
  /\ toIBaseError 1 MoreExamples.nullCause (JsRef 1)
     = Return (JsRef 1, delete MoreExamples.nullCause (JsRef 1) "cause")
  /\ isIBaseError 1 (delete MoreExamples.nullCause (JsRef 1) "cause") (JsRef 1)
     = Some true.
Proof.
  split; [reflexivity|]. split; [reflexivity|].
  exact (toIBaseError_null_cause 0 0 MoreExamples.nullCause (JsRef 1) eq_refl eq_refl).
Defined.

End BaseMore.


(* ===================================================================== *)
(** ** What the normaliser never does to an object *)
(* ===================================================================== *)

Module SteadyFacts.
Import Js Base Frame StoreFacts BaseFacts StoreNotions.

Lemma cellSteady_refl c : cellSteady c c.
Proof. destruct c; simpl; auto. Qed.

Lemma cellSteady_trans c1 c2 c3 :
  cellSteady c1 c2 -> cellSteady c2 c3 -> cellSteady c1 c3.
Proof.
  destruct c1, c2, c3; simpl; try tauto; try congruence.
  intros [Hm12 He12] [Hm23 He23]. split; [congruence|].
  destruct He23 as [He23 | He23]; [left; exact He23|].
  destruct He12 as [He12 | He12]; [left | right]; congruence.
Qed.

Lemma cellSteady_no_error c c' :
  cellSteady c c' -> cellHas "error" c = false -> cellHas "error" c' = false.
Proof.
  destruct c as [props|items], c' as [props'|items']; simpl; try tauto.
  intros [_ [He | He]]; rewrite He; [reflexivity | auto].
Qed.

Lemma steady_refl h : steady h h.
Proof.
  split.
  - intros l c Hl. exists c. split; [exact Hl | apply cellSteady_refl].
  - intros l c' Hnone Hsome. congruence.
Qed.

Lemma steady_trans h1 h2 h3 : steady h1 h2 -> steady h2 h3 -> steady h1 h3.
Proof.
  intros [H12 N12] [H23 N23]. split.
  - intros l c1 Hl.
    destruct (H12 l c1 Hl) as (c2 & Hl2 & S12).
    destruct (H23 l c2 Hl2) as (c3 & Hl3 & S23).
    exists c3. split; [exact Hl3 | eapply cellSteady_trans; eauto].
  - intros l c3 Hnone Hsome.
    destruct (h2 !! l) as [c2|] eqn:Hl2.
    + destruct (H23 l c2 Hl2) as (c3' & Hl3 & S23).
      rewrite Hsome in Hl3. injection Hl3 as <-.
      eapply cellSteady_no_error; [exact S23 | eapply N12; eauto].
    + eapply N23; eauto.
Qed.

Lemma steady_alloc h c : cellHas "error" c = false -> steady h (snd (alloc h c)).
Proof.
  intros Hc. unfold alloc; simpl. split.
  - intros l c0 Hl. exists c0. split; [|apply cellSteady_refl].
    rewrite lookup_app_l; [exact Hl | eapply lookup_lt_Some; eauto].
  - intros l c' Hnone Hsome.
    apply lookup_ge_None in Hnone.
    rewrite lookup_app_r in Hsome by exact Hnone.
    destruct (l - List.length h)%nat; simpl in Hsome; [|discriminate Hsome].
    injection Hsome as <-. exact Hc.
Qed.

Lemma steady_update h l f :
  (forall c, h !! l = Some c -> cellSteady c (f c)) ->
  steady h (match h !! l with Some c => <[l := f c]> h | None => h end).
Proof.
  intros Hf. destruct (h !! l) as [c|] eqn:Hl; [|apply steady_refl].
  split.
  - intros l0 c0 Hl0. destruct (decide (l = l0)) as [<- | Hne].
    + exists (f c). split.
      * apply list_lookup_insert_eq. eapply lookup_lt_Some; eauto.
      * rewrite Hl in Hl0. injection Hl0 as <-. apply Hf. reflexivity.
    + exists c0. split; [|apply cellSteady_refl].
      rewrite list_lookup_insert_ne; [exact Hl0 | exact Hne].
  - intros l0 c' Hnone Hsome.
    apply lookup_ge_None in Hnone.
    rewrite <- (length_insert h l (f c)) in Hnone.
    apply lookup_ge_None in Hnone. congruence.
Qed.

Lemma steady_set h v key x :
  key <> "message" -> key <> "error" -> steady h (set h v key x).
Proof.
  intros Hm He. destruct v; try apply steady_refl. unfold set.
  apply steady_update. intros [props|items] _; simpl; [|reflexivity].
  split; [|right]; apply lookupProp_setProp_ne; assumption.
Qed.

Lemma steady_delete h v key : key <> "message" -> steady h (delete h v key).
Proof.
  intros Hm. destruct v; try apply steady_refl. unfold delete.
  apply steady_update. intros [props|items] _; simpl; [|reflexivity].
  split; [apply lookupProp_deleteProp_ne; assumption|].
  destruct (String.eqb_spec key "error") as [-> | He].
  - left. apply lookupProp_deleteProp_eq.
  - right. apply lookupProp_deleteProp_ne. exact He.
Qed.

Lemma reconstructIssue_steady h message issue h' :
  reconstructIssue h message = Return (issue, h') -> steady h h'.
Proof.
  unfold reconstructIssue. intros H.
  destruct (String.eqb (typeof message) "string").
  - injection H as <- <-. apply steady_alloc. reflexivity.
  - bind_inv H. destruct a.
    + injection H as <- <-. apply steady_refl.
    + bind_inv H. injection H as <- <-. apply steady_alloc. reflexivity.
Qed.

Lemma mapIssues_steady items : forall h issues h',
  mapIssues h items = Return (issues, h') -> steady h h'.
Proof.
  induction items as [|message rest IH]; intros h issues h' H; simpl in H.
  - injection H as <- <-. apply steady_refl.
  - bind_inv H. destruct a as [issue h1]. bind_inv H. destruct a as [issues' h2].
    injection H as <- <-.
    eapply steady_trans; [eapply reconstructIssue_steady; eauto | eapply IH; eauto].
Qed.

Lemma copyIfTyped_steady key type error r h :
  key <> "message" -> key <> "error" ->
  steady h (copyIfTyped key type error r h).
Proof.
  intros Hm He. unfold copyIfTyped.
  destruct (_ && _); [apply steady_set; assumption | apply steady_refl].
Qed.

Lemma reconstructMessages_steady error r h h' :
  reconstructMessages error r h = Return h' -> steady h h'.
Proof.
  unfold reconstructMessages. intros H.
  destruct (_ && _).
  - bind_inv H. destruct a as [issues h1]. simpl in H. injection H as <-.
    eapply steady_trans; [eapply mapIssues_steady; eauto|].
    eapply steady_trans; [apply (steady_alloc h1 (ArrayObject issues)); reflexivity|].
    apply steady_set; discriminate.
  - injection H as <-. apply steady_refl.
Qed.

Lemma reconstructExtraResponseFields_steady error r h :
  steady h (reconstructExtraResponseFields error r h).
Proof.
  unfold reconstructExtraResponseFields.
  destruct (_ && _); [|apply steady_refl].
  cbv zeta.
  assert (H1 : steady h (set h r "extraResponseFields" (get h error "extraResponseFields")))
    by (apply steady_set; discriminate).
  destruct (hasProperty _ "error" _); [|exact H1].
  eapply steady_trans; [exact H1|].
  apply steady_delete. discriminate.
Qed.

(** The steps of a reconstruction that returns. *)
Lemma reconstruct_trace self h error result h' :
  reconstruct self h error = Return (result, h') ->
  exists message h4 h8,
    reconstructMessage h error = Return message
    /\ reconstructMessages error (JsRef (List.length h))
         (copyIfTyped "status" "number" error (JsRef (List.length h))
            (copyIfTyped "code" "string" error (JsRef (List.length h))
               (h ++ [PlainObject [("message", message)]])%list))
       = Return h4
    /\ reconstructCause self error (JsRef (List.length h))
         (copyIfTyped "silent" "boolean" error (JsRef (List.length h))
            (copyIfTyped "sensitive" "boolean" error (JsRef (List.length h))
               (copyIfTyped "stack" "string" error (JsRef (List.length h)) h4)))
       = Return h8
    /\ h' = reconstructExtraResponseFields error (JsRef (List.length h)) h8
    /\ result = JsRef (List.length h).
Proof.
  unfold reconstruct. intros H.
  bind_inv H. rename a into message. unfold alloc in H.
  bind_inv H. rename a into h4, E0 into E4.
  bind_inv H. rename a into h8, E0 into E8.
  injection H as <- <-.
  exists message, h4, h8. auto.
Qed.

Section Recursion.
Variable self : store -> value -> Outcome (value * store).
Hypothesis self_steady :
  forall h v result h', self h v = Return (result, h') -> steady h h'.

Lemma reconstructCause_steady error r h h' :
  reconstructCause self error r h = Return h' -> steady h h'.
Proof using self_steady.
  unfold reconstructCause. intros H.
  destruct (_ && _).
  - bind_inv H. destruct a as [cause h1]. injection H as <-.
    apply (steady_trans h h1); [eapply self_steady; eauto|].
    exact (steady_set h1 r "cause" cause ltac:(discriminate) ltac:(discriminate)).
  - injection H as <-. apply steady_refl.
Qed.

Lemma reconstruct_steady h error result h' :
  reconstruct self h error = Return (result, h') -> steady h h'.
Proof using self_steady.
  intros H.
  destruct (reconstruct_trace _ _ _ _ _ H)
    as (message & h4 & h8 & _ & E4 & E8 & -> & _).
  pose (r := JsRef (List.length h)).
  pose (h1 := (h ++ [PlainObject [("message", message)]])%list).
  pose (h2 := copyIfTyped "code" "string" error r h1).
  pose (h3 := copyIfTyped "status" "number" error r h2).
  pose (h5 := copyIfTyped "stack" "string" error r h4).
  pose (h6 := copyIfTyped "sensitive" "boolean" error r h5).
  pose (h7 := copyIfTyped "silent" "boolean" error r h6).
  apply (steady_trans h h1);
    [apply (steady_alloc h (PlainObject [("message", message)])); reflexivity|].
  apply (steady_trans h1 h2); [apply copyIfTyped_steady; discriminate|].
  apply (steady_trans h2 h3); [apply copyIfTyped_steady; discriminate|].
  apply (steady_trans h3 h4); [eapply reconstructMessages_steady; exact E4|].
  apply (steady_trans h4 h5); [apply copyIfTyped_steady; discriminate|].
  apply (steady_trans h5 h6); [apply copyIfTyped_steady; discriminate|].
  apply (steady_trans h6 h7); [apply copyIfTyped_steady; discriminate|].
  apply (steady_trans h7 h8); [eapply reconstructCause_steady; exact E8|].
  apply reconstructExtraResponseFields_steady.
Qed.

Lemma correctCause_steady h error result h' :
  correctCause self h error = Return (result, h') -> steady h h'.
Proof using self_steady.
  unfold correctCause. intros H.
  destruct (hasProperty h "cause" error).
  - destruct (_ || _).
    + injection H as <- <-. apply steady_delete. discriminate.
    + bind_inv H. destruct a as [cause h1]. injection H as <- <-.
      apply (steady_trans h h1); [eapply self_steady; eauto|].
      exact (steady_set h1 error "cause" cause ltac:(discriminate) ltac:(discriminate)).
  - injection H as <- <-. apply steady_refl.
Qed.
End Recursion.

Lemma toIBaseError_steady fuel : forall h error result h',
  toIBaseError fuel h error = Return (result, h') -> steady h h'.
Proof.
  induction fuel as [|fuel IH]; intros h error result h' H; simpl in H;
    [discriminate H|].
  destruct (_ || _).
  - injection H as <- <-. apply steady_alloc. reflexivity.
  - destruct (negb _).
    + eapply reconstruct_steady; [exact IH | exact H].
    + eapply correctCause_steady; [exact IH | exact H].
Qed.

(** What [steady] keeps of the reads the code makes. *)
Lemma steady_message h h' v :
  steady h h' -> allocated h v -> read h' v "message" = read h v "message".
Proof.
  intros [Hs _] Hv. destruct v; try reflexivity.
  destruct Hv as [c Hc]. destruct (Hs l c Hc) as (c' & Hc' & S).
  unfold read, hasProperty, get. rewrite Hc, Hc'.
  destruct c, c'; simpl in *; try contradiction; [|reflexivity].
  destruct S as [-> _]. reflexivity.
Qed.

Lemma steady_no_error h h' v :
  steady h h' -> hasProperty h "error" v = false -> hasProperty h' "error" v = false.
Proof.
  intros [Hs Hn] Hv. destruct v; try reflexivity. unfold hasProperty in *.
  destruct (h !! l) as [c|] eqn:Hc.
  - destruct (Hs l c Hc) as (c' & -> & S). eapply cellSteady_no_error; eauto.
  - destruct (h' !! l) as [c'|] eqn:Hc'; [|reflexivity]. eapply Hn; eauto.
Qed.

Lemma steady_array h h' l items :
  steady h h' -> h !! l = Some (ArrayObject items) -> h' !! l = Some (ArrayObject items).
Proof.
  intros [Hs _] Hl. destruct (Hs l _ Hl) as ([props'|items'] & Hl' & S);
    simpl in S; [contradiction | subst; exact Hl'].
Qed.

Lemma steady_isValidationIssue h h' v :
  steady h h' -> isValidationIssue h v = true -> isValidationIssue h' v = true.
Proof.
  intros Hs Hv. unfold isValidationIssue in *.
  apply andb_true_iff in Hv as [Hv Hstring].
  apply andb_true_iff in Hv as [Hv Hhas].
  assert (Hall : allocated h v).
  { destruct v; simpl; try exact I. unfold hasProperty in Hhas.
    destruct (h !! l); [eauto | discriminate Hhas]. }
  pose proof (steady_message h h' v Hs Hall) as Hread.
  unfold read in Hread. injection Hread as -> ->.
  rewrite Hv, Hhas, Hstring. reflexivity.
Qed.

End SteadyFacts.


(* ===================================================================== *)
(** ** What a reconstruction puts into the new object *)
(* ===================================================================== *)

Module ReconstructFacts.
Import Js Base Frame StoreFacts BaseFacts StoreNotions BaseMore SteadyFacts.

Lemma sameBelow_refl n h : sameBelow n h h.
Proof. intros l _. reflexivity. Qed.

Lemma sameBelow_weaken m n h h' : (m <= n)%nat -> sameBelow n h h' -> sameBelow m h h'.
Proof. intros Hmn H l Hl. apply H. lia. Qed.

Lemma read_sameBelow n h h' l key :
  sameBelow n h h' -> (l < n)%nat -> read h' (JsRef l) key = read h (JsRef l) key.
Proof.
  intros H Hl. unfold read.
  destruct (sameBelow_hasProperty n h h' l key H Hl) as [-> ->]. reflexivity.
Qed.

Lemma read_set_ne h v key x w key' :
  key <> key' -> read (set h v key x) w key' = read h w key'.
Proof.
  intros Hne. destruct v; try reflexivity. destruct w; try reflexivity.
  unfold read, set, hasProperty, get.
  destruct (h !! l) as [c|] eqn:Hl; [|reflexivity].
  destruct (decide (l = l0)) as [<- | Hl0].
  - rewrite list_lookup_insert_eq by (eapply lookup_lt_Some; eauto). rewrite Hl.
    destruct c as [props|items]; simpl; [|reflexivity].
    rewrite lookupProp_setProp_ne by exact Hne. reflexivity.
  - rewrite list_lookup_insert_ne by exact Hl0. reflexivity.
Qed.

Lemma read_set_eq h l props key x :
  h !! l = Some (PlainObject props) ->
  read (set h (JsRef l) key x) (JsRef l) key = (true, x).
Proof.
  intros Hl. unfold read, set, hasProperty, get. rewrite Hl.
  rewrite list_lookup_insert_eq by (eapply lookup_lt_Some; eauto). simpl.
  rewrite lookupProp_setProp_eq. reflexivity.
Qed.

Lemma read_delete_ne h v key w key' :
  key <> key' -> read (delete h v key) w key' = read h w key'.
Proof.
  intros Hne. destruct v; try reflexivity. destruct w; try reflexivity.
  unfold read, delete, hasProperty, get.
  destruct (h !! l) as [c|] eqn:Hl; [|reflexivity].
  destruct (decide (l = l0)) as [<- | Hl0].
  - rewrite list_lookup_insert_eq by (eapply lookup_lt_Some; eauto). rewrite Hl.
    destruct c as [props|items]; simpl; [|reflexivity].
    rewrite lookupProp_deleteProp_ne by exact Hne. reflexivity.
  - rewrite list_lookup_insert_ne by exact Hl0. reflexivity.
Qed.

Lemma set_plain h v key x l props :
  h !! l = Some (PlainObject props) ->
  exists props', set h v key x !! l = Some (PlainObject props').
Proof.
  intros Hl. destruct v; eauto. unfold set.
  destruct (h !! l0) as [c|] eqn:Hl0; [|eauto].
  destruct (decide (l0 = l)) as [-> | Hne].
  - rewrite list_lookup_insert_eq by (eapply lookup_lt_Some; eauto).
    rewrite Hl in Hl0. injection Hl0 as <-. simpl. eauto.
  - rewrite list_lookup_insert_ne by exact Hne. eauto.
Qed.

(** One conditional copy, seen from the new object [n] and from the
    objects below it. *)
Lemma copyIfTyped_step n h0 h a props key type :
  sameBelow n h0 h -> (a < n)%nat -> h !! n = Some (PlainObject props) ->
  sameBelow n h0 (copyIfTyped key type (JsRef a) (JsRef n) h)
  /\ (exists props',
        copyIfTyped key type (JsRef a) (JsRef n) h !! n = Some (PlainObject props'))
  /\ forall key',
       read (copyIfTyped key type (JsRef a) (JsRef n) h) (JsRef n) key'
       = if String.eqb key key' && wellTyped h0 (JsRef a) key type
         then (true, get h0 (JsRef a) key)
         else read h (JsRef n) key'.
Proof.
  intros Hsame Ha Hn.
  destruct (sameBelow_hasProperty n h0 h a key Hsame Ha) as [Hhas Hget].
  unfold copyIfTyped, wellTyped. rewrite Hhas, Hget.
  destruct (hasProperty h0 key (JsRef a)
            && String.eqb (typeof (get h0 (JsRef a) key)) type).
  - split; [|split].
    + eapply sameBelow_trans; [exact Hsame|]. apply sameBelow_set_fresh. lia.
    + eapply set_plain. exact Hn.
    + intros key'. destruct (String.eqb_spec key key') as [<- | Hne]; cbn [andb].
      * eapply read_set_eq. exact Hn.
      * apply read_set_ne. exact Hne.
  - split; [exact Hsame|]. split; [eauto|].
    intros key'. rewrite andb_false_r. reflexivity.
Qed.

Lemma reconstructIssue_sameBelow h message issue h' :
  reconstructIssue h message = Return (issue, h') ->
  sameBelow (List.length h) h h' /\ (List.length h <= List.length h')%nat.
Proof.
  unfold reconstructIssue. intros H.
  assert (Halloc : forall c, sameBelow (List.length h) h (snd (alloc h c))
                             /\ (List.length h <= List.length (snd (alloc h c)))%nat).
  { intros c. split; [apply sameBelow_alloc|].
    unfold alloc; simpl. rewrite length_app. lia. }
  destruct (String.eqb (typeof message) "string").
  - injection H as <- <-. apply Halloc.
  - bind_inv H. destruct a.
    + injection H as <- <-. split; [apply sameBelow_refl | lia].
    + bind_inv H. injection H as <- <-. apply Halloc.
Qed.

Lemma mapIssues_sameBelow items : forall h issues h',
  mapIssues h items = Return (issues, h') ->
  sameBelow (List.length h) h h' /\ (List.length h <= List.length h')%nat.
Proof.
  induction items as [|message rest IH]; intros h issues h' H; simpl in H.
  - injection H as <- <-. split; [apply sameBelow_refl | lia].
  - bind_inv H. destruct a as [issue h1]. bind_inv H. destruct a as [issues' h2].
    injection H as <- <-.
    destruct (reconstructIssue_sameBelow _ _ _ _ E) as [S1 L1].
    destruct (IH _ _ _ E0) as [S2 L2].
    split; [|lia].
    eapply sameBelow_trans; [exact S1|].
    eapply sameBelow_weaken; [exact L1 | exact S2].
Qed.

Lemma reconstructExtraResponseFields_read error r h w key :
  key <> "extraResponseFields" -> key <> "error" ->
  read (reconstructExtraResponseFields error r h) w key = read h w key.
Proof.
  intros H1 H2. unfold reconstructExtraResponseFields.
  destruct (_ && _); [|reflexivity]. cbv zeta.
  destruct (hasProperty _ "error" _).
  - rewrite read_delete_ne by congruence. apply read_set_ne. congruence.
  - apply read_set_ne. congruence.
Qed.

Lemma copyIfTyped_length key type error r h :
  List.length (copyIfTyped key type error r h) = List.length h.
Proof.
  unfold copyIfTyped. destruct (_ && _); [|reflexivity].
  destruct r; try reflexivity. unfold set.
  destruct (h !! l); [apply length_insert | reflexivity].
Qed.

Lemma isValidationIssue_fresh h s :
  isValidationIssue (h ++ [PlainObject [("message", JsString s)]])%list
    (JsRef (List.length h)) = true.
Proof.
  unfold isValidationIssue, hasProperty, get. rewrite lookup_fresh. reflexivity.
Qed.

(** An element of [messages] that is allocated and, if it is an object
    with a [message], has a string there, gives a valid issue. *)
Lemma reconstructIssue_valid h m issue h' :
  allocated h m ->
  (hasProperty h "message" m = true ->
   String.eqb (typeof (get h m "message")) "string" = true) ->
  reconstructIssue h m = Return (issue, h') ->
  isValidationIssue h' issue = true.
Proof.
  intros Hm Hgood. unfold reconstructIssue.
  destruct (String.eqb (typeof m) "string") eqn:Estring.
  - intros H. unfold alloc in H. injection H as <- <-.
    apply typeof_string in Estring as [s ->]. apply isValidationIssue_fresh.
  - intros H. bind_inv H. destruct a.
    + injection H as <- <-.
      destruct m as [| | | | | |l]; try (simpl in E; discriminate E).
      change (Return (hasProperty h "message" (JsRef l)) = Return true) in E.
      assert (Hhas : hasProperty h "message" (JsRef l) = true) by congruence.
      unfold isValidationIssue. rewrite Hhas, (Hgood Hhas). reflexivity.
    + bind_inv H. unfold alloc in H. injection H as <- <-.
      apply isValidationIssue_fresh.
Qed.

Lemma mapIssues_valid items : forall h issues h',
  (forall m, In m items ->
             allocated h m
             /\ (hasProperty h "message" m = true ->
                 String.eqb (typeof (get h m "message")) "string" = true)) ->
  mapIssues h items = Return (issues, h') ->
  Forall (fun issue => isValidationIssue h' issue = true) issues.
Proof.
  induction items as [|m rest IH]; intros h issues h' Hitems H; simpl in H.
  - injection H as <- <-. constructor.
  - bind_inv H. destruct a as [issue h1]. bind_inv H. destruct a as [issues' h2].
    injection H as <- <-.
    destruct (Hitems m (or_introl eq_refl)) as [Hm Hgood].
    destruct (reconstructIssue_sameBelow _ _ _ _ E) as [S1 _].
    constructor.
    + eapply steady_isValidationIssue; [eapply mapIssues_steady; exact E0|].
      eapply reconstructIssue_valid; eauto.
    + apply (IH h1); [|exact E0].
      intros m' Hin. destruct (Hitems m' (or_intror Hin)) as [Hm' Hgood'].
      destruct m' as [| | | | | |l];
        try (split; [exact I | intros Hf; simpl in Hf; discriminate Hf]).
      assert (Hl : (l < List.length h)%nat).
      { destruct Hm' as [c Hc]. eapply lookup_lt_Some; eauto. }
      destruct (sameBelow_hasProperty _ _ _ l "message" S1 Hl) as [Hhas Hget].
      split; [unfold allocated in *; rewrite (S1 l Hl); exact Hm'|].
      rewrite Hhas, Hget. exact Hgood'.
Qed.

(** An element that is an object with a [message] is kept as it is. *)
Lemma mapIssues_passes items : forall h issues h' l,
  mapIssues h items = Return (issues, h') ->
  In (JsRef l) items -> hasProperty h "message" (JsRef l) = true ->
  In (JsRef l) issues.
Proof.
  induction items as [|m rest IH]; intros h issues h' l H Hin Hhas; simpl in H.
  - destruct Hin.
  - bind_inv H. destruct a as [issue h1]. bind_inv H. destruct a as [issues' h2].
    injection H as <- <-.
    destruct Hin as [-> | Hin].
    + left. unfold reconstructIssue in E.
      change (String.eqb (typeof (JsRef l)) "string") with false in E.
      change (String.eqb (typeof (JsRef l)) "object") with true in E.
      cbv beta iota in E. unfold js_in in E. rewrite Hhas in E.
      cbn [bind] in E. congruence.
    + right. apply (IH h1 issues' h2 l E0 Hin).
      destruct (reconstructIssue_sameBelow _ _ _ _ E) as [S1 _].
      assert (Hl : (l < List.length h)%nat).
      { unfold hasProperty in Hhas. destruct (h !! l) eqn:Hc; [|discriminate Hhas].
        eapply lookup_lt_Some; eauto. }
      rewrite (proj1 (sameBelow_hasProperty _ _ _ l "message" S1 Hl)). exact Hhas.
Qed.

Lemma forallb_false {A} (f : A -> bool) l x :
  In x l -> f x = false -> forallb f l = false.
Proof.
  intros Hin Hx. destruct (forallb f l) eqn:E; [|reflexivity].
  rewrite forallb_forall in E. rewrite (E x Hin) in Hx. discriminate Hx.
Qed.

Section Trace.
(** A reconstruction of the object at [a] that has returned, step by
    step; [self] is the recursive call. *)
Variable self : store -> value -> Outcome (value * store).
Hypothesis self_evolves :
  forall h v result h', self h v = Return (result, h') -> evolves (List.length h) h h'.
Variables (h : store) (a : nat) (message : value) (h4 h8 : store).
Hypothesis Ha : is_Some (h !! a).
Let n := List.length h.
Let e := JsRef a.
Let r := JsRef n.
Let h1 := (h ++ [PlainObject [("message", message)]])%list.
Let h2 := copyIfTyped "code" "string" e r h1.
Let h3 := copyIfTyped "status" "number" e r h2.
Hypothesis E4 : reconstructMessages e r h3 = Return h4.
Let h5 := copyIfTyped "stack" "string" e r h4.
Let h6 := copyIfTyped "sensitive" "boolean" e r h5.
Let h7 := copyIfTyped "silent" "boolean" e r h6.
Hypothesis E8 : reconstructCause self e r h7 = Return h8.

Lemma trace_below : (a < n)%nat.
Proof using Ha. destruct Ha as [c Hc]. eapply lookup_lt_Some; eauto. Qed.

Lemma trace_h1 :
  sameBelow n h h1
  /\ (exists props, h1 !! n = Some (PlainObject props))
  /\ forall key,
       read h1 r key
       = if String.eqb "message" key then (true, message)
         else (inherited key, JsUndefined).
Proof.
  split; [apply (sameBelow_alloc h)|]. split.
  - eexists. apply lookup_fresh.
  - intros key. unfold read, hasProperty, get, r, h1, n.
    rewrite lookup_fresh. cbn [cellHas cellGet lookupProp].
    destruct (String.eqb "message" key); reflexivity.
Qed.

Lemma trace_h3 :
  sameBelow n h h3
  /\ (exists props, h3 !! n = Some (PlainObject props))
  /\ forall key,
       read h3 r key
       = if String.eqb "status" key && wellTyped h e "status" "number"
         then (true, get h e "status")
         else if String.eqb "code" key && wellTyped h e "code" "string"
         then (true, get h e "code")
         else if String.eqb "message" key then (true, message)
         else (inherited key, JsUndefined).
Proof using Ha.
  destruct trace_h1 as (S1 & [p1 P1] & R1).
  destruct (copyIfTyped_step n h h1 a p1 "code" "string" S1 trace_below P1)
    as (S2 & [p2 P2] & R2).
  destruct (copyIfTyped_step n h h2 a p2 "status" "number" S2 trace_below P2)
    as (S3 & P3 & R3).
  split; [exact S3|]. split; [exact P3|].
  intros key. unfold h3, r, e. rewrite R3. fold h2.
  destruct (_ && _); [reflexivity|]. rewrite R2.
  destruct (_ && _); [reflexivity|]. apply R1.
Qed.

Lemma trace_h4 :
  sameBelow n h h4
  /\ (exists props, h4 !! n = Some (PlainObject props))
  /\ forall key, key <> "messages" -> read h4 r key = read h3 r key.
Proof using Ha E4.
  destruct trace_h3 as (S3 & [p3 P3] & _).
  assert (Hn : (n < List.length h3)%nat) by (eapply lookup_lt_Some; eauto).
  unfold reconstructMessages in E4.
  destruct (_ && _).
  - bind_inv E4. destruct a0 as [issues h3']. unfold alloc in E4.
    cbv beta iota zeta in E4. injection E4 as Heq.
    assert (Heq' : h4 = set (h3' ++ [ArrayObject issues])%list (JsRef n) "messages"
                          (JsRef (List.length h3')))
      by (symmetry; exact Heq).
    rewrite Heq'. clear Heq Heq'.
    destruct (mapIssues_sameBelow _ _ _ _ E) as [Smap Lmap].
    assert (S3' : sameBelow (S n) h3 (h3' ++ [ArrayObject issues])%list).
    { eapply sameBelow_trans.
      - eapply sameBelow_weaken; [|exact Smap]. lia.
      - eapply sameBelow_weaken; [|apply (sameBelow_alloc h3')]. lia. }
    assert (Pn : (h3' ++ [ArrayObject issues])%list !! n = Some (PlainObject p3)).
    { rewrite (S3' n) by lia. exact P3. }
    split; [|split].
    + eapply sameBelow_trans; [exact S3|].
      eapply sameBelow_trans; [eapply sameBelow_weaken; [|exact S3']; lia|].
      apply sameBelow_set_fresh. lia.
    + eapply set_plain. exact Pn.
    + intros key Hkey. rewrite read_set_ne by congruence.
      apply (read_sameBelow (S n)); [exact S3' | lia].
  - injection E4 as Heq. rewrite <- Heq.
    split; [exact S3|]. split; [eauto|]. reflexivity.
Qed.

Lemma trace_h7 :
  sameBelow n h h7
  /\ (exists props, h7 !! n = Some (PlainObject props))
  /\ forall key,
       read h7 r key
       = if String.eqb "silent" key && wellTyped h e "silent" "boolean"
         then (true, get h e "silent")
         else if String.eqb "sensitive" key && wellTyped h e "sensitive" "boolean"
         then (true, get h e "sensitive")
         else if String.eqb "stack" key && wellTyped h e "stack" "string"
         then (true, get h e "stack")
         else read h4 r key.
Proof using Ha E4.
  destruct trace_h4 as (S4 & [p4 P4] & _).
  destruct (copyIfTyped_step n h h4 a p4 "stack" "string" S4 trace_below P4)
    as (S5 & [p5 P5] & R5).
  destruct (copyIfTyped_step n h h5 a p5 "sensitive" "boolean" S5 trace_below P5)
    as (S6 & [p6 P6] & R6).
  destruct (copyIfTyped_step n h h6 a p6 "silent" "boolean" S6 trace_below P6)
    as (S7 & P7 & R7).
  split; [exact S7|]. split; [exact P7|].
  intros key. unfold h7, r, e. rewrite R7. fold h6.
  destruct (_ && _); [reflexivity|]. rewrite R6. fold h5.
  destruct (_ && _); [reflexivity|]. rewrite R5.
  destruct (_ && _); reflexivity.
Qed.

Lemma trace_h8 :
  evolves (List.length h7) h7 h8
  /\ (exists props, h8 !! n = Some (PlainObject props))
  /\ forall l key,
       is_Some (h7 !! l) -> key <> "cause" -> key <> "error" ->
       read h8 (JsRef l) key = read h7 (JsRef l) key.
Proof using Ha E4 E8 self_evolves.
  destruct trace_h7 as (S7 & [p7 P7] & _).
  assert (Hev : evolves (List.length h7) h7 h8).
  { eapply (reconstructCause_evolves self self_evolves); [|exact E8]. lia. }
  split; [exact Hev|]. split; [eapply evolves_plain; eauto|].
  intros l key Hl Hc He. unfold read.
  destruct (evolves_get _ _ _ l key Hev) as [-> ->]; auto.
  destruct Hl as [c Hc']. eapply lookup_lt_Some; eauto.
Qed.

(** The new object before the last step: its properties other than
    [cause] and [messages]. *)
Lemma trace_reads_h8 key :
  key <> "cause" -> key <> "error" -> key <> "messages" ->
  read h8 r key
  = if String.eqb "silent" key && wellTyped h e "silent" "boolean"
    then (true, get h e "silent")
    else if String.eqb "sensitive" key && wellTyped h e "sensitive" "boolean"
    then (true, get h e "sensitive")
    else if String.eqb "stack" key && wellTyped h e "stack" "string"
    then (true, get h e "stack")
    else if String.eqb "status" key && wellTyped h e "status" "number"
    then (true, get h e "status")
    else if String.eqb "code" key && wellTyped h e "code" "string"
    then (true, get h e "code")
    else if String.eqb "message" key then (true, message)
    else (inherited key, JsUndefined).
Proof using Ha E4 E8 self_evolves.
  intros Hc He Hm.
  destruct trace_h8 as (_ & _ & R8).
  destruct trace_h7 as (_ & [p7 P7] & R7).
  destruct trace_h4 as (_ & _ & R4).
  destruct trace_h3 as (_ & _ & R3).
  unfold r. rewrite R8 by eauto. fold r. rewrite R7.
  rewrite R4 by assumption. rewrite R3. reflexivity.
Qed.

(** The new object at the end: its properties other than [cause],
    [messages] and [extraResponseFields]. *)
Lemma trace_reads key :
  key <> "cause" -> key <> "error" -> key <> "messages" ->
  key <> "extraResponseFields" ->
  read (reconstructExtraResponseFields e r h8) r key
  = if String.eqb "silent" key && wellTyped h e "silent" "boolean"
    then (true, get h e "silent")
    else if String.eqb "sensitive" key && wellTyped h e "sensitive" "boolean"
    then (true, get h e "sensitive")
    else if String.eqb "stack" key && wellTyped h e "stack" "string"
    then (true, get h e "stack")
    else if String.eqb "status" key && wellTyped h e "status" "number"
    then (true, get h e "status")
    else if String.eqb "code" key && wellTyped h e "code" "string"
    then (true, get h e "code")
    else if String.eqb "message" key then (true, message)
    else (inherited key, JsUndefined).
Proof using Ha E4 E8 self_evolves.
  intros Hc He Hm Hx.
  rewrite reconstructExtraResponseFields_read by assumption.
  apply trace_reads_h8; assumption.
Qed.

(** What the caller's object reads as before the last step. *)
Lemma trace_error_h8 key :
  key <> "cause" -> key <> "error" -> read h8 e key = read h e key.
Proof using Ha E4 E8 self_evolves.
  intros Hc He.
  destruct trace_h8 as (_ & _ & R8).
  destruct trace_h7 as (S7 & _ & _).
  assert (Ha7 : is_Some (h7 !! a)).
  { rewrite (S7 a trace_below). exact Ha. }
  unfold e. rewrite R8 by assumption.
  apply (read_sameBelow n); [exact S7 | exact trace_below].
Qed.

(** The last step gives the new object no [extraResponseFields] that has
    an [error]. *)
Lemma trace_no_error_field :
  hasProperty (reconstructExtraResponseFields e r h8) "error"
    (get (reconstructExtraResponseFields e r h8) r "extraResponseFields")
  = false.
Proof using Ha E4 E8 self_evolves.
  destruct trace_h8 as (_ & [p8 P8] & _).
  pose proof (trace_error_h8 "extraResponseFields"
                ltac:(discriminate) ltac:(discriminate)) as Herr.
  destruct (get h8 e "extraResponseFields") as [| | | | | |fields] eqn:Hget.
  7: { destruct (reconstructExtraResponseFields_shares h8 e n p8 fields Hget P8)
         as [Hshare Hno].
       fold r in Hshare. rewrite Hshare. exact Hno. }
  all: assert (Hsame : reconstructExtraResponseFields e r h8 = h8)
    by (unfold reconstructExtraResponseFields; rewrite Hget; simpl;
        rewrite ?andb_false_r; reflexivity).
  all: rewrite Hsame.
  all: pose proof (trace_reads_h8 "extraResponseFields"
                     ltac:(discriminate) ltac:(discriminate) ltac:(discriminate))
    as Hread.
  all: assert (Hr : get h8 r "extraResponseFields" = JsUndefined)
    by (change (snd (read h8 r "extraResponseFields") = JsUndefined);
        rewrite Hread; reflexivity).
  all: rewrite Hr; reflexivity.
Qed.

Hypothesis self_steady :
  forall h v result h', self h v = Return (result, h') -> steady h h'.

Lemma trace_h3_length : List.length h3 = S n.
Proof.
  unfold h3, h2. rewrite !copyIfTyped_length. unfold h1, n.
  rewrite length_app. simpl. lia.
Qed.

Lemma trace_h3_arrays x :
  isArray h3 x = isArray h x /\ arrayItems h3 x = arrayItems h x.
Proof using Ha.
  destruct trace_h3 as (S3 & [p3 P3] & _).
  destruct x as [| | | | | |m]; try (split; reflexivity).
  unfold isArray, arrayItems.
  destruct (lt_eq_lt_dec m n) as [[Hlt | ->] | Hgt].
  - rewrite (S3 m Hlt). split; reflexivity.
  - assert (Hnone : h !! n = None) by (apply lookup_ge_None; unfold n; lia).
    rewrite P3, Hnone. split; reflexivity.
  - assert (Hnone3 : h3 !! m = None)
      by (apply lookup_ge_None; rewrite trace_h3_length; lia).
    assert (Hnone : h !! m = None) by (apply lookup_ge_None; unfold n in Hgt; lia).
    rewrite Hnone3, Hnone. split; reflexivity.
Qed.

(** From the store [h4] on, no step changes a [message] or adds an
    [error]. *)
Lemma trace_steady_h4 : steady h4 (reconstructExtraResponseFields e r h8).
Proof using E8 self_steady.
  apply (steady_trans h4 h5); [apply copyIfTyped_steady; discriminate|].
  apply (steady_trans h5 h6); [apply copyIfTyped_steady; discriminate|].
  apply (steady_trans h6 h7); [apply copyIfTyped_steady; discriminate|].
  apply (steady_trans h7 h8);
    [eapply (reconstructCause_steady self self_steady); exact E8|].
  apply reconstructExtraResponseFields_steady.
Qed.

Lemma trace_read_messages :
  read (reconstructExtraResponseFields e r h8) r "messages" = read h4 r "messages".
Proof using Ha E4 E8 self_evolves.
  rewrite reconstructExtraResponseFields_read by discriminate.
  destruct trace_h8 as (_ & _ & R8).
  destruct trace_h7 as (_ & [p7 P7] & R7).
  unfold r. rewrite R8 by (eauto || discriminate). fold r. rewrite R7.
  reflexivity.
Qed.

(** When [messages] is an array that holds an object whose [message] is
    not a string, the part of the shallow check that looks at [messages]
    fails for the new object. *)
Lemma trace_messages_bad l :
  steady h (reconstructExtraResponseFields e r h8) ->
  hasProperty h "messages" e && isArray h (get h e "messages") = true ->
  In (JsRef l) (arrayItems h (get h e "messages")) ->
  hasProperty h "message" (JsRef l) = true ->
  String.eqb (typeof (get h (JsRef l) "message")) "string" = false ->
  negb (hasProperty (reconstructExtraResponseFields e r h8) "messages" r)
  || isUndefined (get (reconstructExtraResponseFields e r h8) r "messages")
  || (isArray (reconstructExtraResponseFields e r h8)
        (get (reconstructExtraResponseFields e r h8) r "messages")
      && forallb (isValidationIssue (reconstructExtraResponseFields e r h8))
           (arrayItems (reconstructExtraResponseFields e r h8)
              (get (reconstructExtraResponseFields e r h8) r "messages")))
  = false.
Proof using Ha E4 E8 self_evolves self_steady.
  intros Hst Hcond Hin Hhas Hbad.
  pose proof trace_read_messages as Hread.
  pose proof trace_steady_h4 as Hsteady.
  destruct trace_h3 as (S3 & [p3 P3] & R3).
  assert (Hn : (n < List.length h3)%nat) by (eapply lookup_lt_Some; eauto).
  assert (Hl : (l < n)%nat).
  { unfold hasProperty in Hhas. destruct (h !! l) eqn:Hc; [|discriminate Hhas].
    eapply lookup_lt_Some; eauto. }
  set (final := reconstructExtraResponseFields e r h8) in *.
  change (hasProperty final "messages" r) with (fst (read final r "messages")).
  change (get final r "messages") with (snd (read final r "messages")).
  rewrite Hread. clear Hread.
  destruct (sameBelow_hasProperty n h h3 a "messages" S3 trace_below) as [Hhas3 Hget3].
  fold e in Hhas3, Hget3.
  pose proof E4 as E4'. unfold reconstructMessages in E4'.
  rewrite Hhas3, Hget3, (proj1 (trace_h3_arrays _)), (proj2 (trace_h3_arrays _)),
    Hcond in E4'.
  bind_inv E4'. destruct a0 as [issues h3']. unfold alloc in E4'.
  cbv beta iota zeta in E4'. injection E4' as Heq.
  assert (Heq' : h4 = set (h3' ++ [ArrayObject issues])%list (JsRef n) "messages"
                        (JsRef (List.length h3')))
    by (symmetry; exact Heq).
  clear Heq.
  destruct (mapIssues_sameBelow _ _ _ _ E) as [Smap Lmap].
  assert (Pn : (h3' ++ [ArrayObject issues])%list !! n = Some (PlainObject p3)).
  { rewrite lookup_app_l by lia. rewrite (Smap n Hn). exact P3. }
  assert (Hr4 : read h4 r "messages" = (true, JsRef (List.length h3'))).
  { rewrite Heq'. eapply read_set_eq. exact Pn. }
  rewrite Hr4. cbn [fst snd negb orb isUndefined].
  assert (Hsteady' : steady (h3' ++ [ArrayObject issues])%list final).
  { eapply steady_trans; [|exact Hsteady]. rewrite Heq'.
    apply steady_set; discriminate. }
  assert (Harr : final !! List.length h3' = Some (ArrayObject issues)).
  { eapply steady_array; [exact Hsteady'|]. apply lookup_fresh. }
  unfold isArray, arrayItems. rewrite Harr. cbn [andb].
  apply (forallb_false _ _ (JsRef l)).
  - eapply mapIssues_passes; [exact E | exact Hin |].
    rewrite (proj1 (sameBelow_hasProperty n h h3 l "message" S3 Hl)). exact Hhas.
  - assert (Hal : allocated h (JsRef l)).
    { simpl. apply lookup_lt_is_Some_2. exact Hl. }
    pose proof (steady_message h final (JsRef l) Hst Hal) as Hm.
    unfold isValidationIssue.
    change (get final (JsRef l) "message") with (snd (read final (JsRef l) "message")).
    rewrite Hm.
    change (snd (read h (JsRef l) "message")) with (get h (JsRef l) "message").
    rewrite Hbad. apply andb_false_r.
Qed.

Hypothesis Hitems :
  forall m, In m (arrayItems h (get h e "messages")) ->
            allocated h m
            /\ (hasProperty h "message" m = true ->
                String.eqb (typeof (get h m "message")) "string" = true).

(** The part of the shallow check that looks at [messages] holds of the
    new object. *)
Lemma trace_messages :
  negb (hasProperty (reconstructExtraResponseFields e r h8) "messages" r)
  || isUndefined (get (reconstructExtraResponseFields e r h8) r "messages")
  || (isArray (reconstructExtraResponseFields e r h8)
        (get (reconstructExtraResponseFields e r h8) r "messages")
      && forallb (isValidationIssue (reconstructExtraResponseFields e r h8))
           (arrayItems (reconstructExtraResponseFields e r h8)
              (get (reconstructExtraResponseFields e r h8) r "messages")))
  = true.
Proof using Ha E4 E8 self_evolves self_steady Hitems.
  pose proof trace_read_messages as Hread.
  pose proof trace_steady_h4 as Hsteady.
  destruct trace_h3 as (S3 & [p3 P3] & R3).
  assert (Hn : (n < List.length h3)%nat) by (eapply lookup_lt_Some; eauto).
  set (final := reconstructExtraResponseFields e r h8) in *.
  change (hasProperty final "messages" r) with (fst (read final r "messages")).
  change (get final r "messages") with (snd (read final r "messages")).
  rewrite Hread. clear Hread.
  pose proof E4 as E4'. unfold reconstructMessages in E4'.
  destruct (hasProperty h3 "messages" e && isArray h3 (get h3 e "messages")) eqn:Econd.
  - bind_inv E4'. destruct a0 as [issues h3']. unfold alloc in E4'.
    cbv beta iota zeta in E4'. injection E4' as Heq.
    assert (Heq' : h4 = set (h3' ++ [ArrayObject issues])%list (JsRef n) "messages"
                          (JsRef (List.length h3')))
      by (symmetry; exact Heq).
    clear Heq.
    destruct (mapIssues_sameBelow _ _ _ _ E) as [Smap Lmap].
    assert (Pn : (h3' ++ [ArrayObject issues])%list !! n = Some (PlainObject p3)).
    { rewrite lookup_app_l by lia. rewrite (Smap n Hn). exact P3. }
    assert (Hr4 : read h4 r "messages" = (true, JsRef (List.length h3'))).
    { rewrite Heq'. eapply read_set_eq. exact Pn. }
    rewrite Hr4. cbn [fst snd negb orb isUndefined].
    assert (Hsteady' : steady (h3' ++ [ArrayObject issues])%list final).
    { eapply steady_trans; [|exact Hsteady]. rewrite Heq'.
      apply steady_set; discriminate. }
    assert (Harr : final !! List.length h3' = Some (ArrayObject issues)).
    { eapply steady_array; [exact Hsteady'|]. apply lookup_fresh. }
    unfold isArray, arrayItems. rewrite Harr. cbn [andb].
    apply forallb_forall. intros issue Hin.
    eapply steady_isValidationIssue.
    + eapply steady_trans; [|exact Hsteady'].
      apply (steady_alloc h3' (ArrayObject issues)). reflexivity.
    + assert (Hitems3 :
                forall m, In m (arrayItems h3 (get h3 e "messages")) ->
                          allocated h3 m
                          /\ (hasProperty h3 "message" m = true ->
                              String.eqb (typeof (get h3 m "message")) "string" = true)).
      { intros m Hm3.
        destruct (sameBelow_hasProperty n h h3 a "messages" S3 trace_below) as [_ Hget].
        fold e in Hget. rewrite Hget in Hm3.
        rewrite (proj2 (trace_h3_arrays _)) in Hm3.
        destruct (Hitems m Hm3) as [Hm Hgood].
        destruct m as [| | | | | |l];
          try (split; [exact I | intros Hf; simpl in Hf; discriminate Hf]).
        assert (Hl : (l < n)%nat).
        { destruct Hm as [c Hc]. eapply lookup_lt_Some; eauto. }
        destruct (sameBelow_hasProperty n h h3 l "message" S3 Hl) as [Hhas Hg].
        split; [unfold allocated in *; rewrite (S3 l Hl); exact Hm|].
        rewrite Hhas, Hg. exact Hgood. }
      assert (Hvalid : Forall (fun issue => isValidationIssue h3' issue = true) issues).
      { apply (mapIssues_valid _ _ _ _ Hitems3 E). }
      rewrite Forall_forall in Hvalid. apply Hvalid.
      apply list_elem_of_In. exact Hin.
  - injection E4' as Heq. rewrite <- Heq, R3. reflexivity.
Qed.

(** The part of the shallow check that looks at [extraResponseFields]
    holds of the new object. *)
Lemma trace_extra_field :
  negb (hasProperty (reconstructExtraResponseFields e r h8) "extraResponseFields" r)
  || isUndefined (get (reconstructExtraResponseFields e r h8) r "extraResponseFields")
  || (String.eqb
        (typeof (get (reconstructExtraResponseFields e r h8) r "extraResponseFields"))
        "object"
      && negb (isNull (get (reconstructExtraResponseFields e r h8) r
                         "extraResponseFields"))
      && negb (hasProperty (reconstructExtraResponseFields e r h8) "error"
                 (get (reconstructExtraResponseFields e r h8) r "extraResponseFields")))
  = true.
Proof using Ha E4 E8 self_evolves.
  destruct trace_h8 as (_ & [p8 P8] & _).
  destruct (get h8 e "extraResponseFields") as [| | | | | |fields] eqn:Hget.
  7: { destruct (reconstructExtraResponseFields_shares h8 e n p8 fields Hget P8)
         as [Hshare Hno].
       fold r in Hshare, Hno. rewrite Hshare, Hno. simpl. apply orb_true_r. }
  all: assert (Hsame : reconstructExtraResponseFields e r h8 = h8)
    by (unfold reconstructExtraResponseFields; rewrite Hget; simpl;
        rewrite ?andb_false_r; reflexivity).
  all: rewrite Hsame.
  all: pose proof (trace_reads_h8 "extraResponseFields"
                     ltac:(discriminate) ltac:(discriminate) ltac:(discriminate))
    as Hread.
  all: change (hasProperty h8 "extraResponseFields" r)
    with (fst (read h8 r "extraResponseFields")).
  all: change (get h8 r "extraResponseFields")
    with (snd (read h8 r "extraResponseFields")).
  all: rewrite Hread; reflexivity.
Qed.

Lemma trace_scalar key type :
  In (key, type) scalarFields ->
  optionalFieldOk (reconstructExtraResponseFields e r h8) r key type = true.
Proof using Ha E4 E8 self_evolves.
  intros Hin. unfold optionalFieldOk.
  set (final := reconstructExtraResponseFields e r h8).
  change (hasProperty final key r) with (fst (read final r key)).
  change (get final r key) with (snd (read final r key)).
  unfold final. simpl in Hin.
  repeat (destruct Hin as [Hin | Hin];
          [injection Hin as <- <-; rewrite trace_reads by discriminate;
           repeat match goal with
                  | |- context [wellTyped ?s ?x ?k ?t] =>
                      let W := fresh "W" in
                      destruct (wellTyped s x k t) eqn:W;
                      [apply andb_true_iff in W as [_ W]|]
                  end;
           cbn [String.eqb Ascii.eqb Bool.eqb andb fst snd negb orb];
           try reflexivity;
           match goal with
           | W : String.eqb (typeof ?x) ?t = true
             |- context [String.eqb (typeof ?x) ?t] => rewrite W; apply orb_true_r
           end|]).
  contradiction.
Qed.

(** The new object passes the shallow check. *)
Lemma trace_shallow s :
  message = JsString s ->
  shallowIsIBaseError (reconstructExtraResponseFields e r h8) r = true.
Proof using Ha E4 E8 self_evolves self_steady Hitems.
  intros Hmessage.
  pose proof (trace_reads "message" ltac:(discriminate) ltac:(discriminate)
                ltac:(discriminate) ltac:(discriminate)) as Hread.
  assert (Hm : read (reconstructExtraResponseFields e r h8) r "message"
               = (true, JsString s)).
  { rewrite Hread, Hmessage. reflexivity. }
  unfold shallowIsIBaseError.
  rewrite trace_messages, trace_extra_field.
  rewrite !trace_scalar by (simpl; tauto).
  change (hasProperty (reconstructExtraResponseFields e r h8) "message" r)
    with (fst (read (reconstructExtraResponseFields e r h8) r "message")).
  change (get (reconstructExtraResponseFields e r h8) r "message")
    with (snd (read (reconstructExtraResponseFields e r h8) r "message")).
  rewrite Hm. reflexivity.
Qed.

End Trace.

Lemma reconstructMessage_string h error message :
  reconstructMessage h error = Return message -> exists s, message = JsString s.
Proof.
  unfold reconstructMessage.
  destruct (hasProperty h "message" error
            && String.eqb (typeof (get h error "message")) "string") eqn:E.
  - intros H. injection H as <-.
    apply andb_true_iff in E as [_ E]. apply typeof_string. exact E.
  - intros H. bind_inv H. injection H as <-. eauto.
Qed.

Lemma correctCause_result self h error result h' :
  correctCause self h error = Return (result, h') -> result = error.
Proof.
  unfold correctCause. intros H.
  destruct (hasProperty h "cause" error); [|congruence].
  destruct (_ || _); [congruence|].
  bind_inv H. destruct a as [cause h1]. congruence.
Qed.

Lemma shallow_reads h v :
  shallowIsIBaseError h v = true ->
  (exists a, v = JsRef a /\ is_Some (h !! a))
  /\ (exists s, read h v "message" = (true, JsString s))
  /\ (hasProperty h "error" (get h v "extraResponseFields") = false).
Proof.
  unfold shallowIsIBaseError. rewrite !andb_true_iff.
  intros [[[[[[[[[[Hobj Hnull] Hhas] Hmsg] _] _] _] _] _] _] Hextra].
  apply typeof_string in Hmsg as [s Hs].
  destruct (get_string_inv _ _ _ _ Hs) as (a & -> & Halt & _).
  split; [exists a; split; [reflexivity | apply lookup_lt_is_Some_2; exact Halt]|].
  split; [exists s; unfold read; rewrite Hhas, Hs; reflexivity|].
  destruct (get h (JsRef a) "extraResponseFields") eqn:Hget; try reflexivity.
  rewrite <- Hget in Hextra.
  destruct (hasProperty h "extraResponseFields" (JsRef a)) eqn:Hx.
  - rewrite Hget in Hextra. simpl in Hextra.
    apply negb_true_iff in Hextra. exact Hextra.
  - unfold hasProperty, get in Hx, Hget.
    destruct (h !! a) as [[props|items]|]; simpl in *; try discriminate Hget.
    destruct (lookupProp "extraResponseFields" props); discriminate.
Qed.

(** X11: whatever the normaliser returns is an object with a string
    [message] of its own. *)
Theorem toIBaseError_result_message fuel h v result h' :
  allocated h v ->
  toIBaseError fuel h v = Return (result, h') ->
  exists l s, result = JsRef l /\ read h' result "message" = (true, JsString s).
Proof.
  intros Hv Hrun. destruct fuel as [|fuel]; [discriminate Hrun|].
  simpl in Hrun.
  destruct (negb (String.eqb (typeof v) "object") || isNull v) eqn:Eprim.
  - injection Hrun as <- <-. exists (List.length h), (toString v).
    split; [reflexivity|]. unfold read, hasProperty, get.
    rewrite lookup_fresh. reflexivity.
  - destruct (shallowIsIBaseError h v) eqn:Eshallow; cbn [negb] in Hrun.
    + pose proof (correctCause_result _ _ _ _ _ Hrun) as ->.
      destruct (shallow_reads _ _ Eshallow) as ((a & -> & Ha) & (s & Hs) & _).
      exists a, s. split; [reflexivity|].
      pose proof (correctCause_evolves _ (toIBaseError_evolves fuel) _ _ _ _ Hrun) as Hev.
      rewrite <- Hs. unfold read.
      destruct (evolves_get _ _ _ a "message" Hev) as [-> ->];
        [destruct Ha as [c Hc]; eapply lookup_lt_Some; eauto | exact Ha
        | discriminate | discriminate | reflexivity].
    + destruct v as [| | | | | |a]; try discriminate Eprim.
      destruct (reconstruct_trace _ _ _ _ _ Hrun)
        as (message & h4 & h8 & Hm & E4 & E8 & -> & ->).
      destruct (reconstructMessage_string _ _ _ Hm) as [s ->].
      exists (List.length h), s. split; [reflexivity|].
      rewrite (trace_reads (toIBaseError fuel) (toIBaseError_evolves fuel)
                 h a (JsString s) h4 h8 Hv E4 E8) by discriminate.
      reflexivity.
Qed.

Lemma toIBaseError_result_message_witness :
  allocated MoreExamples.mixed (JsRef 0)
  /\ exists result h' l s,
       toIBaseError 1 MoreExamples.mixed (JsRef 0) = Return (result, h')
       /\ result = JsRef l
       /\ read h' result "message" = (true, JsString s).
Proof.
  assert (Ha : allocated MoreExamples.mixed (JsRef 0)) by (simpl; eauto).
  split; [exact Ha|].
  destruct (toIBaseError 1 MoreExamples.mixed (JsRef 0)) as [[result h']| |] eqn:Hrun;
    [|discriminate Hrun|discriminate Hrun].
  destruct (toIBaseError_result_message 1 MoreExamples.mixed (JsRef 0) result h' Ha Hrun)
    as (l & s & Hl & Hs).
  exists result, h', l, s. auto.
Defined.

(** X12: the [extraResponseFields] of whatever the normaliser returns has
    no [error] key. *)
Theorem toIBaseError_result_no_error_field fuel h v result h' :
  allocated h v ->
  toIBaseError fuel h v = Return (result, h') ->
  hasProperty h' "error" (get h' result "extraResponseFields") = false.
Proof.
  intros Hv Hrun. pose proof (toIBaseError_steady _ _ _ _ _ Hrun) as Hsteady.
  destruct fuel as [|fuel]; [discriminate Hrun|].
  simpl in Hrun.
  destruct (negb (String.eqb (typeof v) "object") || isNull v) eqn:Eprim.
  - injection Hrun as <- <-. unfold get. rewrite lookup_fresh. reflexivity.
  - destruct (shallowIsIBaseError h v) eqn:Eshallow; cbn [negb] in Hrun.
    + pose proof (correctCause_result _ _ _ _ _ Hrun) as ->.
      destruct (shallow_reads _ _ Eshallow) as ((a & -> & Ha) & _ & Hno).
      pose proof (correctCause_evolves _ (toIBaseError_evolves fuel) _ _ _ _ Hrun) as Hev.
      destruct (evolves_get _ _ _ a "extraResponseFields" Hev) as [-> _];
        [destruct Ha as [c Hc]; eapply lookup_lt_Some; eauto | exact Ha
        | discriminate | discriminate |].
      eapply steady_no_error; eauto.
    + destruct v as [| | | | | |a]; try discriminate Eprim.
      destruct (reconstruct_trace _ _ _ _ _ Hrun)
        as (message & h4 & h8 & Hm & E4 & E8 & -> & ->).
      exact (trace_no_error_field (toIBaseError fuel) (toIBaseError_evolves fuel)
               h a message h4 h8 Hv E4 E8).
Qed.

Lemma toIBaseError_result_no_error_field_witness :
  allocated Examples.badCode (JsRef 0)
  /\ hasProperty Examples.badCode "error"
       (get Examples.badCode (JsRef 0) "extraResponseFields") = true
  /\ exists result h',
       toIBaseError 1 Examples.badCode (JsRef 0) = Return (result, h')
       /\ hasProperty h' "error" (get h' result "extraResponseFields") = false.
Proof.
  assert (Ha : allocated Examples.badCode (JsRef 0)) by (simpl; eauto).
  split; [exact Ha|]. split; [reflexivity|].
  destruct (toIBaseError 1 Examples.badCode (JsRef 0)) as [[result h']| |] eqn:Hrun;
    [|discriminate Hrun|discriminate Hrun].
  exists result, h'. split; [reflexivity|].
  exact (toIBaseError_result_no_error_field 1 Examples.badCode (JsRef 0) result h' Ha Hrun).
Defined.

(** X13: a reconstruction copies [code], [status], [stack], [sensitive]
    and [silent] exactly when the property is there with its type; a
    property of another type is left out of the new object. *)
Theorem toIBaseError_reconstruct_scalars fuel h a result h' key type :
  is_Some (h !! a) ->
  shallowIsIBaseError h (JsRef a) = false ->
  In (key, type) scalarFields ->
  toIBaseError fuel h (JsRef a) = Return (result, h') ->
  read h' result key
  = if wellTyped h (JsRef a) key type
    then (true, get h (JsRef a) key)
    else (false, JsUndefined).
Proof.
  intros Ha Hshallow Hin Hrun.
  destruct fuel as [|fuel]; [discriminate Hrun|].
  rewrite toIBaseError_reconstruct in Hrun by exact Hshallow.
  destruct (reconstruct_trace _ _ _ _ _ Hrun)
    as (message & h4 & h8 & Hm & E4 & E8 & -> & ->).
  pose proof (trace_reads (toIBaseError fuel) (toIBaseError_evolves fuel)
                h a message h4 h8 Ha E4 E8) as R.
  simpl in Hin.
  repeat (destruct Hin as [Hin | Hin];
          [injection Hin as <- <-; rewrite R by discriminate;
           repeat match goal with
                  | |- context [wellTyped ?s ?e ?k ?t] => destruct (wellTyped s e k t)
                  end;
           reflexivity|]).
  contradiction.
Qed.

Lemma toIBaseError_reconstruct_scalars_witness :
  shallowIsIBaseError MoreExamples.mixed (JsRef 0) = false
  /\ exists result h',
       toIBaseError 1 MoreExamples.mixed (JsRef 0) = Return (result, h')
       /\ read h' result "code" = (false, JsUndefined)
       /\ read h' result "status" = (true, JsNumber 404).
Proof.
  split; [reflexivity|].
  assert (Ha : is_Some (MoreExamples.mixed !! 0%nat)) by (simpl; eauto).
  destruct (toIBaseError 1 MoreExamples.mixed (JsRef 0)) as [[result h']| |] eqn:Hrun;
    [|discriminate Hrun|discriminate Hrun].
  exists result, h'. split; [reflexivity|]. split.
  - apply (toIBaseError_reconstruct_scalars 1 MoreExamples.mixed 0 result h'
             "code" "string" Ha eq_refl); [simpl; tauto | exact Hrun].
  - apply (toIBaseError_reconstruct_scalars 1 MoreExamples.mixed 0 result h'
             "status" "number" Ha eq_refl); [simpl; tauto | exact Hrun].
Defined.

(** X14: a reconstruction gives an object that passes the shallow check
    whenever it returns, provided no element of [messages] is an object
    that has a [message] which is not a string (the elements being objects
    of the store). *)
Theorem toIBaseError_reconstruct_shallow fuel h a result h' :
  is_Some (h !! a) ->
  shallowIsIBaseError h (JsRef a) = false ->
  (forall m, In m (arrayItems h (get h (JsRef a) "messages")) ->
             allocated h m
             /\ (hasProperty h "message" m = true ->
                 String.eqb (typeof (get h m "message")) "string" = true)) ->
  toIBaseError fuel h (JsRef a) = Return (result, h') ->
  shallowIsIBaseError h' result = true.
Proof.
  intros Ha Hshallow Hitems Hrun.
  destruct fuel as [|fuel]; [discriminate Hrun|].
  rewrite toIBaseError_reconstruct in Hrun by exact Hshallow.
  destruct (reconstruct_trace _ _ _ _ _ Hrun)
    as (message & h4 & h8 & Hm & E4 & E8 & -> & ->).
  destruct (reconstructMessage_string _ _ _ Hm) as [s Hs].
  exact (trace_shallow (toIBaseError fuel) (toIBaseError_evolves fuel)
           h a message h4 h8 Ha E4 E8 (toIBaseError_steady fuel) Hitems s Hs).
Qed.

Lemma toIBaseError_reconstruct_shallow_witness :
  shallowIsIBaseError MoreExamples.mixed (JsRef 0) = false
  /\ exists result h',
       toIBaseError 1 MoreExamples.mixed (JsRef 0) = Return (result, h')
       /\ shallowIsIBaseError h' result = true.
Proof.
  split; [reflexivity|].
  assert (Ha : is_Some (MoreExamples.mixed !! 0%nat)) by (simpl; eauto).
  destruct (toIBaseError 1 MoreExamples.mixed (JsRef 0)) as [[result h']| |] eqn:Hrun;
    [|discriminate Hrun|discriminate Hrun].
  exists result, h'. split; [reflexivity|].
  apply (toIBaseError_reconstruct_shallow 1 MoreExamples.mixed 0 result h' Ha eq_refl);
    [|exact Hrun].
  intros m Hin. simpl in Hin.
  destruct Hin as [<- | [<- | []]].
  - split; [exact I | intros Hf; discriminate Hf].
  - split; [simpl; eauto | intros _; reflexivity].
Defined.

(** X15: a reconstruction that returns gives an object that fails the
    shallow check, and so [isIBaseError], whenever [messages] is an array
    holding an object that has a [message] which is not a string. *)
Theorem toIBaseError_reconstruct_bad_issue fuel fuel' h a l result h' :
  is_Some (h !! a) ->
  shallowIsIBaseError h (JsRef a) = false ->
  hasProperty h "messages" (JsRef a) && isArray h (get h (JsRef a) "messages") = true ->
  In (JsRef l) (arrayItems h (get h (JsRef a) "messages")) ->
  hasProperty h "message" (JsRef l) = true ->
  String.eqb (typeof (get h (JsRef l) "message")) "string" = false ->
  toIBaseError fuel h (JsRef a) = Return (result, h') ->
  shallowIsIBaseError h' result = false
  /\ isIBaseError (S fuel') h' result = Some false.
Proof.
  intros Ha Hshallow Hcond Hin Hhas Hbad Hrun.
  pose proof (toIBaseError_steady _ _ _ _ _ Hrun) as Hst.
  destruct fuel as [|fuel]; [discriminate Hrun|].
  rewrite toIBaseError_reconstruct in Hrun by exact Hshallow.
  destruct (reconstruct_trace _ _ _ _ _ Hrun)
    as (message & h4 & h8 & Hm & E4 & E8 & -> & ->).
  pose proof (trace_messages_bad (toIBaseError fuel) (toIBaseError_evolves fuel)
                h a message h4 h8 Ha E4 E8 (toIBaseError_steady fuel) l
                Hst Hcond Hin Hhas Hbad) as Hmessages.
  assert (Hfail : shallowIsIBaseError
                    (reconstructExtraResponseFields (JsRef a) (JsRef (List.length h)) h8)
                    (JsRef (List.length h)) = false).
  { unfold shallowIsIBaseError. rewrite Hmessages.
    rewrite !andb_false_r. reflexivity. }
  split; [exact Hfail|].
  simpl. rewrite Hfail. reflexivity.
Qed.

Lemma toIBaseError_reconstruct_bad_issue_witness :
  shallowIsIBaseError Examples.issueNotString (JsRef 0) = false
  /\ exists result h',
       toIBaseError 1 Examples.issueNotString (JsRef 0) = Return (result, h')
       /\ shallowIsIBaseError h' result = false
       /\ isIBaseError 1 h' result = Some false.
Proof.
  split; [reflexivity|].
  assert (Ha : is_Some (Examples.issueNotString !! 0%nat)) by (simpl; eauto).
  destruct (toIBaseError 1 Examples.issueNotString (JsRef 0))
    as [[result h']| |] eqn:Hrun; [|discriminate Hrun|discriminate Hrun].
  exists result, h'. split; [reflexivity|].
  apply (toIBaseError_reconstruct_bad_issue 1 0 Examples.issueNotString 0 2 result h'
           Ha eq_refl eq_refl); [simpl; tauto | reflexivity | reflexivity | exact Hrun].
Defined.

(** The callback of [map] and the message of the new object return or
    throw. *)
Lemma reconstructIssue_finishes h m : reconstructIssue h m <> Exhausted.
Proof.
  unfold reconstructIssue.
  destruct (String.eqb (typeof m) "string"); [discriminate|].
  destruct (String.eqb (typeof m) "object").
  - destruct m; try discriminate. cbn [js_in bind].
    destruct (hasProperty h "message" (JsRef l)); [discriminate|].
    destruct (JSON_stringify h (JsRef l)) eqn:E; try discriminate.
    exfalso. exact (JsonFacts.JSON_stringify_finishes _ _ E).
  - cbn [bind].
    destruct (JSON_stringify h m) eqn:E; try discriminate.
    exfalso. exact (JsonFacts.JSON_stringify_finishes _ _ E).
Qed.

Lemma reconstructMessage_finishes h error : reconstructMessage h error <> Exhausted.
Proof.
  unfold reconstructMessage. destruct (_ && _); [discriminate|].
  destruct (JSON_stringify h error) eqn:E; try discriminate.
  exfalso. exact (JsonFacts.JSON_stringify_finishes _ _ E).
Qed.

(** [map] over an array that holds [null] throws. *)
Lemma mapIssues_null items : forall h,
  In JsNull items -> mapIssues h items = Throw TypeError.
Proof.
  induction items as [|m rest IH]; intros h Hin; [destruct Hin|].
  destruct Hin as [-> | Hin]; [reflexivity|].
  cbn [mapIssues].
  destruct (reconstructIssue h m) as [[issue h1]|[]|] eqn:E.
  - cbn [bind]. rewrite (IH h1 Hin). reflexivity.
  - reflexivity.
  - exfalso. exact (reconstructIssue_finishes _ _ E).
Qed.

(** X16: the normaliser throws a [TypeError] for every object whose
    [messages] is an array that holds [null]. *)
Theorem toIBaseError_null_issue_throws fuel h a :
  hasProperty h "messages" (JsRef a) = true ->
  isArray h (get h (JsRef a) "messages") = true ->
  In JsNull (arrayItems h (get h (JsRef a) "messages")) ->
  toIBaseError (S fuel) h (JsRef a) = Throw TypeError.
Proof.
  intros Hhas Harr Hin.
  assert (Ha : is_Some (h !! a)).
  { unfold hasProperty in Hhas. destruct (h !! a); [eauto | discriminate Hhas]. }
  assert (Hshallow : shallowIsIBaseError h (JsRef a) = false).
  { unfold shallowIsIBaseError. rewrite Hhas, Harr.
    rewrite (forallb_false (isValidationIssue h) _ JsNull Hin eq_refl).
    assert (Hdef : isUndefined (get h (JsRef a) "messages") = false).
    { destruct (get h (JsRef a) "messages"); try reflexivity. discriminate Harr. }
    rewrite Hdef. cbn [negb orb andb]. rewrite !andb_false_r. reflexivity. }
  rewrite toIBaseError_reconstruct by exact Hshallow.
  unfold reconstruct.
  destruct (reconstructMessage h (JsRef a)) as [message|[]|] eqn:Em.
  - cbn [bind]. unfold alloc. cbv beta iota zeta.
    destruct (trace_h3 h a message Ha) as (S3 & _ & _).
    destruct (sameBelow_hasProperty _ _ _ a "messages" S3 (trace_below h a Ha))
      as [Hhas3 Hget3].
    destruct (trace_h3_arrays h a message Ha (get h (JsRef a) "messages"))
      as [Harr3 Hitems3].
    unfold reconstructMessages.
    rewrite Hhas3, Hget3, Harr3, Hitems3, Hhas, Harr. cbn [andb].
    rewrite (mapIssues_null _ _ Hin). reflexivity.
  - reflexivity.
  - exfalso. exact (reconstructMessage_finishes _ _ Em).
Qed.

Lemma toIBaseError_null_issue_throws_witness :
  toIBaseError 1 Examples.issueNull (JsRef 0) = Throw TypeError.
Proof.
  apply (toIBaseError_null_issue_throws 0 Examples.issueNull 0);
    [reflexivity | reflexivity | simpl; tauto].
Defined.

End ReconstructFacts.

(* ===================================================================== *)
(** ** What the shallow check does not look at *)
(* ===================================================================== *)

Module CheckFacts.
Import Js Base Frame StoreFacts BaseFacts StoreNotions BaseMore ReconstructFacts.

Lemma set_arrays h v key x w :
  isArray (set h v key x) w = isArray h w
  /\ arrayItems (set h v key x) w = arrayItems h w.
Proof.
  destruct v as [| | | | | |l]; try (split; reflexivity).
  destruct w as [| | | | | |l']; try (split; reflexivity).
  unfold set, isArray, arrayItems.
  destruct (h !! l) as [c|] eqn:Hl; [|split; reflexivity].
  destruct (decide (l = l')) as [<- | Hne].
  - rewrite list_lookup_insert_eq by (eapply lookup_lt_Some; eauto). rewrite Hl.
    destruct c; split; reflexivity.
  - rewrite list_lookup_insert_ne by exact Hne. split; reflexivity.
Qed.

(** Writing a property that the check does not read changes no verdict. *)
Lemma shallowIsIBaseError_set h v key x error :
  ~ In key [ "message"; "code"; "status"; "messages"; "stack"; "sensitive";
             "silent"; "extraResponseFields"; "error" ] ->
  shallowIsIBaseError (set h v key x) error = shallowIsIBaseError h error.
Proof.
  intros Hkey.
  assert (R : forall w key', In key' [ "message"; "code"; "status"; "messages"; "stack";
                                       "sensitive"; "silent"; "extraResponseFields";
                                       "error" ] ->
                hasProperty (set h v key x) key' w = hasProperty h key' w
                /\ get (set h v key x) w key' = get h w key').
  { intros w key' Hin.
    assert (Hne : key <> key') by (intros ->; contradiction).
    pose proof (read_set_ne h v key x w key' Hne) as E.
    split; [exact (f_equal fst E) | exact (f_equal snd E)]. }
  unfold shallowIsIBaseError, optionalFieldOk.
  destruct (R error "message") as [-> ->]; [simpl; tauto|].
  destruct (R error "code") as [-> ->]; [simpl; tauto|].
  destruct (R error "status") as [-> ->]; [simpl; tauto|].
  destruct (R error "messages") as [-> ->]; [simpl; tauto|].
  destruct (R error "stack") as [-> ->]; [simpl; tauto|].
  destruct (R error "sensitive") as [-> ->]; [simpl; tauto|].
  destruct (R error "silent") as [-> ->]; [simpl; tauto|].
  destruct (R error "extraResponseFields") as [-> ->]; [simpl; tauto|].
  destruct (R (get h error "extraResponseFields") "error") as [-> _]; [simpl; tauto|].
  destruct (set_arrays h v key x (get h error "messages")) as [-> ->].
  rewrite (forallb_eq (isValidationIssue (set h v key x)) (isValidationIssue h)).
  - reflexivity.
  - intros m. unfold isValidationIssue.
    destruct (R m "message") as [-> ->]; [simpl; tauto|]. reflexivity.
Qed.

(** C4 (the code departs from it): the shallow check never looks at
    [extraErrorIdentifiers] (nor at [extraErrorFields], the name in the
    tests of [base.ts]): whatever is written there, the verdict stays.  So
    it accepts an object whose [extraErrorIdentifiers] holds the reserved
    key [message], and one whose [extraErrorIdentifiers] is a number; it
    also accepts an array as [extraResponseFields]. *)
Theorem shallowIsIBaseError_ignores_extraErrorIdentifiers :
  (forall h error key x,
     In key ["extraErrorIdentifiers"; "extraErrorFields"] ->
     shallowIsIBaseError (set h error key x) error = shallowIsIBaseError h error)
  /\ In "message" Shape.reservedFieldNames
  /\ hasProperty Examples.reservedIdentifier "message"
       (get Examples.reservedIdentifier (JsRef 0) "extraErrorIdentifiers") = true
  /\ shallowIsIBaseError Examples.reservedIdentifier (JsRef 0) = true
  /\ shallowIsIBaseError Examples.identifiersNotObject (JsRef 0) = true
  /\ shallowIsIBaseError Examples.arrayResponseFields (JsRef 0) = true.
Proof.
  split.
  - intros h error key x [<- | [<- | []]]; apply shallowIsIBaseError_set;
      simpl; intros H; repeat (destruct H as [H | H]; [discriminate H|]); exact H.
  - split; [simpl; tauto|]. repeat split; reflexivity.
Qed.

End CheckFacts.

(* ===================================================================== *)
(** ** The result of the normaliser along the whole chain *)
(* ===================================================================== *)

Module ValidatesFacts.
Import Js Base Frame StoreFacts BaseFacts StoreNotions ChainNotions BaseMore SteadyFacts
  ReconstructFacts.

Lemma isAllocated_allocated h v : isAllocated h v = true -> allocated h v.
Proof.
  destruct v; simpl; auto. destruct (h !! l); [eauto | discriminate].
Qed.

Lemma isAllocated_lt h l : isAllocated h (JsRef l) = true -> (l < List.length h)%nat.
Proof.
  intros H. apply isAllocated_allocated in H. destruct H as [c Hc].
  eapply lookup_lt_Some; eauto.
Qed.

Lemma get_absent h v key : hasProperty h key v = false -> get h v key = JsUndefined.
Proof.
  destruct v; try reflexivity. unfold hasProperty, get.
  destruct (h !! l) as [[props|items]|]; simpl; try reflexivity.
  destruct (lookupProp key props); [discriminate | reflexivity].
Qed.

Lemma hasProperty_plain h l key :
  inherited key = false -> hasProperty h key (JsRef l) = true ->
  exists props, h !! l = Some (PlainObject props).
Proof.
  unfold hasProperty. intros Hi H.
  destruct (h !! l) as [[props|items]|]; simpl in H; [eauto | congruence | discriminate].
Qed.

Lemma read_set_other h l key x l' key' :
  l <> l' -> read (set h (JsRef l) key x) (JsRef l') key' = read h (JsRef l') key'.
Proof.
  intros Hne. unfold read, set, hasProperty, get.
  destruct (h !! l) as [c|] eqn:Hl; [|reflexivity].
  rewrite list_lookup_insert_ne by exact Hne. reflexivity.
Qed.

(** *** The shallow check under the normaliser's steps *)

Lemma steady_issues h h' v :
  steady h h' ->
  isArray h v && forallb (isValidationIssue h) (arrayItems h v) = true ->
  isArray h' v && forallb (isValidationIssue h') (arrayItems h' v) = true.
Proof.
  intros Hs H. apply andb_true_iff in H as [Harr Hall].
  destruct v as [| | | | | |l]; try discriminate Harr.
  unfold isArray, arrayItems in *.
  destruct (h !! l) as [[props|items]|] eqn:Hl; try discriminate Harr.
  rewrite (steady_array _ _ _ _ Hs Hl). cbn [andb].
  rewrite forallb_forall in *. intros m Hm.
  apply (steady_isValidationIssue h h' m Hs). apply Hall. exact Hm.
Qed.

Lemma shallow_steady h h' x :
  steady h h' ->
  (forall key, key <> "error" -> key <> "cause" -> read h' x key = read h x key) ->
  shallowIsIBaseError h x = true -> shallowIsIBaseError h' x = true.
Proof.
  intros Hs Hr. unfold shallowIsIBaseError, optionalFieldOk.
  assert (R : forall key, key <> "error" -> key <> "cause" ->
                hasProperty h' key x = hasProperty h key x
                /\ get h' x key = get h x key).
  { intros key H1 H2. pose proof (Hr key H1 H2) as E. unfold read in E.
    injection E as E1 E2. auto. }
  destruct (R "message") as [-> ->]; [discriminate..|].
  destruct (R "code") as [-> ->]; [discriminate..|].
  destruct (R "status") as [-> ->]; [discriminate..|].
  destruct (R "messages") as [-> ->]; [discriminate..|].
  destruct (R "stack") as [-> ->]; [discriminate..|].
  destruct (R "sensitive") as [-> ->]; [discriminate..|].
  destruct (R "silent") as [-> ->]; [discriminate..|].
  destruct (R "extraResponseFields") as [-> ->]; [discriminate..|].
  rewrite !andb_true_iff.
  intros [[[[[[[[[[H1 H2] H3] H4] H5] H6] H7] H8] H9] H10] H11].
  repeat split; try assumption.
  - rewrite !orb_true_iff in *. destruct H7 as [H7 | H7]; [left; exact H7|].
    right. apply (steady_issues h h' _ Hs H7).
  - rewrite !orb_true_iff in *. destruct H11 as [H11 | H11]; [left; exact H11|].
    right. rewrite !andb_true_iff in *. destruct H11 as [[Ha Hb] Hc].
    repeat split; try assumption.
    apply negb_true_iff. apply negb_true_iff in Hc.
    apply (steady_no_error h h' _ Hs Hc).
Qed.

(** *** [isIBaseError] and the chain under changes off the chain *)

Lemma isIBaseError_true_ref k h v :
  isIBaseError k h v = Some true -> exists l, v = JsRef l.
Proof.
  destruct k; [discriminate|].
  destruct v; simpl; try discriminate. eauto.
Qed.

Lemma chain_frame k : forall h h' v,
  (forall x, In x (chain k h v) -> get h' (JsRef x) "cause" = get h (JsRef x) "cause") ->
  chain k h' v = chain k h v.
Proof.
  induction k as [|k IH]; intros h h' v Hr; [reflexivity|].
  destruct v as [| | | | | |l]; try reflexivity.
  cbn [chain] in *. rewrite (Hr l) by (left; reflexivity). f_equal.
  apply IH. intros x Hx. apply Hr. right. exact Hx.
Qed.

Lemma isIBaseError_frame k : forall h h' v,
  steady h h' ->
  (forall x key, In x (chain k h v) -> key <> "error" ->
                 read h' (JsRef x) key = read h (JsRef x) key) ->
  isIBaseError k h v = Some true -> isIBaseError k h' v = Some true.
Proof.
  induction k as [|k IH]; intros h h' v Hs Hr H; [discriminate H|].
  destruct (isIBaseError_true_ref _ _ _ H) as [l ->].
  destruct (shallowIsIBaseError h (JsRef l)) eqn:Hsh.
  - rewrite isIBaseError_step in H by (reflexivity || exact Hsh).
    assert (Hsh' : shallowIsIBaseError h' (JsRef l) = true).
    { apply (shallow_steady h h'); [exact Hs | | exact Hsh].
      intros key He _. apply Hr; [left; reflexivity | exact He]. }
    rewrite isIBaseError_step by (reflexivity || exact Hsh').
    pose proof (Hr l "cause" (or_introl eq_refl) ltac:(discriminate)) as Hc.
    pose proof (f_equal fst Hc) as Hc1. pose proof (f_equal snd Hc) as Hc2.
    cbn [read fst snd] in Hc1, Hc2. rewrite Hc1, Hc2.
    destruct (_ || _); [reflexivity|].
    apply (IH h h'); [exact Hs | | exact H].
    intros x key Hx. apply Hr. right. exact Hx.
  - simpl in H. rewrite Hsh in H. discriminate H.
Qed.

(** *** The chain of the argument *)

Lemma chainOk_mono d : forall h v, chainOk d h v = true -> chainOk (S d) h v = true.
Proof.
  induction d as [|d IH]; intros h v H.
  - destruct v; try reflexivity. discriminate H.
  - destruct v as [| | | | | |l]; try reflexivity.
    cbn [chainOk] in H. apply andb_true_iff in H as [H Hc].
    change (chainOk (S (S d)) h (JsRef l))
      with (isAllocated h (JsRef l)
            && isAllocated h (get h (JsRef l) "messages")
            && forallb (issueOk h) (arrayItems h (get h (JsRef l) "messages"))
            && chainOk (S d) h (get h (JsRef l) "cause")).
    rewrite H, (IH _ _ Hc). reflexivity.
Qed.

Lemma chain_in_chainOk j : forall d h v x,
  chainOk d h v = true -> In x (chain j h v) -> chainOk d h (JsRef x) = true.
Proof.
  induction j as [|j IH]; intros d h v x H Hx; [destruct Hx|].
  destruct v as [| | | | | |l]; try destruct Hx.
  - subst. exact H.
  - destruct d as [|d]; [discriminate H|].
    apply chainOk_mono. apply (IH d h (get h (JsRef l) "cause")); [|assumption].
    cbn [chainOk] in H. apply andb_true_iff in H as [_ Hc]. exact Hc.
Qed.

Lemma chain_acyclic d : forall h a j,
  chainOk d h (JsRef a) = true -> ~ In a (chain j h (get h (JsRef a) "cause")).
Proof.
  induction d as [|d IH]; intros h a j H Hin; [discriminate H|].
  pose proof H as H'. cbn [chainOk] in H'. apply andb_true_iff in H' as [_ Hc].
  apply (IH h a j); [|exact Hin].
  apply (chain_in_chainOk j d h _ a Hc Hin).
Qed.

Lemma sameBelow_allocated h h' v :
  sameBelow (List.length h) h h' -> isAllocated h v = true ->
  isAllocated h' v = true
  /\ (forall key, hasProperty h' key v = hasProperty h key v
                  /\ get h' v key = get h v key)
  /\ arrayItems h' v = arrayItems h v.
Proof.
  intros Hs Hv. destruct v as [| | | | | |l]; try (repeat split; reflexivity).
  pose proof (isAllocated_lt _ _ Hv) as Hl.
  unfold isAllocated, hasProperty, get, arrayItems in *.
  rewrite (Hs l Hl). repeat split; try assumption.
Qed.

Lemma issueOk_sameBelow h h' m :
  sameBelow (List.length h) h h' -> issueOk h m = true -> issueOk h' m = true.
Proof.
  intros Hs H. unfold issueOk in *. apply andb_true_iff in H as [Ha Hm].
  destruct (sameBelow_allocated h h' m Hs Ha) as (Ha' & Hr & _).
  rewrite Ha'. cbn [andb].
  destruct (Hr "message") as [-> ->]. exact Hm.
Qed.

Lemma chainOk_sameBelow d : forall h h' v,
  sameBelow (List.length h) h h' -> chainOk d h v = true -> chainOk d h' v = true.
Proof.
  induction d as [|d IH]; intros h h' v Hs H.
  - destruct v; try reflexivity. discriminate H.
  - destruct v as [| | | | | |l]; try reflexivity.
    cbn [chainOk] in *. rewrite !andb_true_iff in H.
    destruct H as [[[Ha Hm] Hi] Hc].
    destruct (sameBelow_allocated h h' _ Hs Ha) as (Ha' & Hr & _).
    destruct (Hr "messages") as [_ E1]. destruct (Hr "cause") as [_ E2].
    rewrite E1, E2.
    destruct (sameBelow_allocated h h' _ Hs Hm) as (Hm' & _ & Hitems).
    rewrite Ha', Hm', Hitems, (IH h h' _ Hs Hc). cbn [andb]. rewrite andb_true_r.
    rewrite forallb_forall in *. intros m Hin.
    apply (issueOk_sameBelow h h' m Hs). apply Hi. exact Hin.
Qed.

Lemma chain_sameBelow j : forall d h h' v,
  sameBelow (List.length h) h h' -> chainOk d h v = true ->
  chain j h' v = chain j h v.
Proof.
  induction j as [|j IH]; intros d h h' v Hs H; [reflexivity|].
  destruct v as [| | | | | |l]; try reflexivity.
  destruct d as [|d]; [discriminate H|].
  cbn [chainOk] in H. rewrite !andb_true_iff in H.
  destruct H as [[[Ha Hm] Hi] Hc].
  destruct (sameBelow_allocated h h' _ Hs Ha) as (_ & Hr & _).
  destruct (Hr "cause") as [_ E2].
  cbn [chain]. rewrite E2. f_equal. apply (IH d); assumption.
Qed.

Lemma chain_lt j : forall d h v x,
  chainOk d h v = true -> In x (chain j h v) -> (x < List.length h)%nat.
Proof.
  intros d h v x H Hx.
  pose proof (chain_in_chainOk j d h v x H Hx) as Hok.
  destruct d as [|d]; [discriminate Hok|].
  cbn [chainOk] in Hok. rewrite !andb_true_iff in Hok.
  destruct Hok as [[[Ha _] _] _]. apply (isAllocated_lt _ _ Ha).
Qed.

Lemma chain_step k h l :
  chain (S k) h (JsRef l) = l :: chain k h (get h (JsRef l) "cause").
Proof. reflexivity. Qed.

Lemma chain_undefined k h : chain k h JsUndefined = [].
Proof. destruct k; reflexivity. Qed.

Lemma reconstructExtraResponseFields_read_other error n h x key :
  n <> x -> key <> "error" ->
  read (reconstructExtraResponseFields error (JsRef n) h) (JsRef x) key
  = read h (JsRef x) key.
Proof.
  intros Hne Hkey. unfold reconstructExtraResponseFields.
  destruct (_ && _); [|reflexivity].
  cbv zeta. destruct (hasProperty _ "error" _).
  - rewrite read_delete_ne by congruence. apply read_set_other. exact Hne.
  - apply read_set_other. exact Hne.
Qed.

(** *** The result of the normaliser along the whole chain *)

Lemma toIBaseError_validates_chain fuel : forall d h v res h',
  chainOk d h v = true -> toIBaseError fuel h v = Return (res, h') ->
  isIBaseError (S d) h' res = Some true
  /\ forall x, In x (chain (S d) h' res) -> (x < List.length h)%nat ->
               In x (chain d h v).
Proof.
  induction fuel as [|fuel IH]; intros d h v res h' Hok Hrun; [discriminate Hrun|].
  destruct (isPrimitive v) eqn:Hprim.
  - assert (Hres : res = JsRef (List.length h)
                   /\ h' = (h ++ [PlainObject [("message", JsString (toString v))]])%list).
    { destruct v; try discriminate Hprim; simpl in Hrun; injection Hrun as <- <-;
        split; reflexivity. }
    destruct Hres as [-> ->]. clear Hrun.
    assert (Hget : get (h ++ [PlainObject [("message", JsString (toString v))]])%list
                     (JsRef (List.length h)) "cause" = JsUndefined).
    { unfold get. rewrite lookup_fresh. reflexivity. }
    split.
    + simpl. unfold shallowIsIBaseError, optionalFieldOk, hasProperty, get.
      rewrite !lookup_fresh. reflexivity.
    + rewrite chain_step. rewrite Hget, chain_undefined.
      intros x [<- | []] Hlt. lia.
  - destruct v as [| | | | | |a]; try discriminate Hprim. clear Hprim.
    destruct d as [|d]; [discriminate Hok|].
    pose proof Hok as Hok'. cbn [chainOk] in Hok'. rewrite !andb_true_iff in Hok'.
    destruct Hok' as [[[Ha Hm] Hi] Hc].
    pose proof (isAllocated_lt _ _ Ha) as Halt.
    pose proof (isAllocated_allocated _ _ Ha) as Ha'. cbn [allocated] in Ha'.
    destruct (shallowIsIBaseError h (JsRef a)) eqn:Hsh.
    + (* the object is kept *)
      rewrite toIBaseError_kept in Hrun by (reflexivity || exact Hsh).
      unfold correctCause in Hrun.
      destruct (hasProperty h "cause" (JsRef a)) eqn:Hhc.
      * destruct (isUndefined (get h (JsRef a) "cause")
                  || isNull (get h (JsRef a) "cause")) eqn:Hun.
        -- assert (Hres : res = JsRef a /\ h' = delete h (JsRef a) "cause")
             by (split; congruence).
           destruct Hres as [-> ->]. clear Hrun.
           assert (Hp : pruned true h (delete h (JsRef a) "cause")).
           { apply pruned_delete.
             destruct (get h (JsRef a) "cause"); try discriminate Hun; auto. }
           split.
           ++ rewrite isIBaseError_step;
                [| reflexivity | reflexivity
                 | rewrite (pruned_shallow _ _ _ (JsRef a) Hp); exact Hsh].
              rewrite hasProperty_delete_cause. reflexivity.
           ++ rewrite chain_step.
              rewrite (get_absent _ _ _ (hasProperty_delete_cause h (JsRef a))).
              rewrite chain_undefined. intros x [<- | []] _. left. reflexivity.
        -- bind_inv Hrun. destruct a0 as [rc h1].
           assert (Hres : res = JsRef a /\ h' = set h1 (JsRef a) "cause" rc)
             by (split; congruence).
           destruct Hres as [-> ->]. clear Hrun.
           destruct (IH d h _ rc h1 Hc E) as [Hval Hloc].
           pose proof (toIBaseError_evolves _ _ _ _ _ E) as Hev.
           pose proof (toIBaseError_steady _ _ _ _ _ E) as Hst.
           destruct (hasProperty_plain h a "cause" eq_refl Hhc) as [props Hprops].
           destruct (evolves_plain _ _ _ _ _ Hev Hprops) as [props1 Hprops1].
           pose proof (read_set_eq h1 a props1 "cause" rc Hprops1) as Hrd.
           pose proof (f_equal fst Hrd) as Hrd1. pose proof (f_equal snd Hrd) as Hrd2.
           cbn [read fst snd] in Hrd1, Hrd2.
           destruct (isIBaseError_true_ref _ _ _ Hval) as [lc ->].
           assert (Hsh1 : shallowIsIBaseError h1 (JsRef a) = true).
           { apply (shallow_steady h h1); [exact Hst | | exact Hsh].
             intros key He Hk. unfold read.
             destruct (evolves_get _ _ _ a key Hev Halt Ha' Hk He) as [-> ->].
             reflexivity. }
           assert (Hsh' : shallowIsIBaseError (set h1 (JsRef a) "cause" (JsRef lc))
                            (JsRef a) = true).
           { apply (shallow_steady h1); [apply steady_set; discriminate | | exact Hsh1].
             intros key _ Hk. apply read_set_ne. congruence. }
           assert (Hoff : forall x, In x (chain (S d) h1 (JsRef lc)) -> a <> x).
           { intros x Hx <-.
             apply (chain_acyclic (S d) h a d Hok). apply Hloc; assumption. }
           split.
           ++ rewrite isIBaseError_step by (reflexivity || exact Hsh').
              rewrite Hrd1, Hrd2. cbn [negb orb isUndefined].
              apply (isIBaseError_frame (S d) h1);
                [apply steady_set; discriminate | | exact Hval].
              intros x key Hx _. apply read_set_other. apply Hoff. exact Hx.
           ++ rewrite chain_step. rewrite Hrd2.
              rewrite (chain_frame (S d) h1 _ (JsRef lc)).
              ** intros x [<- | Hx] Hlt; [left; reflexivity|].
                 right. apply Hloc; assumption.
              ** intros x Hx.
                 exact (f_equal snd (read_set_other h1 a "cause" (JsRef lc) x "cause"
                                       (Hoff x Hx))).
      * injection Hrun as <- <-. split.
        -- rewrite isIBaseError_step by (reflexivity || exact Hsh).
           rewrite Hhc. reflexivity.
        -- rewrite chain_step. rewrite (get_absent _ _ _ Hhc), chain_undefined.
           intros x [<- | []] _. left. reflexivity.
    + (* the object is reconstructed *)
      rewrite toIBaseError_reconstruct in Hrun by exact Hsh.
      destruct (reconstruct_trace _ _ _ _ _ Hrun)
        as (message & h4 & h8 & Hmsg & E4 & E8 & -> & ->).
      clear Hrun.
      destruct (reconstructMessage_string _ _ _ Hmsg) as [s Hs].
      assert (Hitems : forall m, In m (arrayItems h (get h (JsRef a) "messages")) ->
                 allocated h m
                 /\ (hasProperty h "message" m = true ->
                     String.eqb (typeof (get h m "message")) "string" = true)).
      { intros m Hin. rewrite forallb_forall in Hi. pose proof (Hi m Hin) as Hmi.
        unfold issueOk in Hmi. apply andb_true_iff in Hmi as [H1 H2].
        split; [apply isAllocated_allocated; exact H1|].
        intros Hhas. rewrite Hhas in H2. exact H2. }
      pose proof (trace_shallow (toIBaseError fuel) (toIBaseError_evolves fuel)
                    h a message h4 h8 Ha' E4 E8 (toIBaseError_steady fuel) Hitems s Hs)
        as Hshr.
      destruct (trace_h7 h a message h4 Ha' E4) as (S7 & [p7 P7] & R7).
      destruct (trace_h4 h a message h4 Ha' E4) as (_ & _ & R4).
      destruct (trace_h3 h a message Ha') as (_ & _ & R3).
      set (h7 := copyIfTyped "silent" "boolean" (JsRef a) (JsRef (List.length h)) _) in *.
      assert (Hn7 : (List.length h < List.length h7)%nat)
        by (eapply lookup_lt_Some; eauto).
      destruct (sameBelow_hasProperty _ _ _ a "cause" S7 Halt) as [Hh7 Hg7].
      pose proof E8 as E8'. unfold reconstructCause in E8'. rewrite Hh7, Hg7 in E8'.
      set (final := reconstructExtraResponseFields (JsRef a) (JsRef (List.length h)) h8)
        in *.
      assert (Hrf : read final (JsRef (List.length h)) "cause"
                    = read h8 (JsRef (List.length h)) "cause")
        by (apply reconstructExtraResponseFields_read; discriminate).
      destruct (hasProperty h "cause" (JsRef a)
                && negb (isUndefined (get h (JsRef a) "cause"))
                && negb (isNull (get h (JsRef a) "cause"))) eqn:Hcond.
      * bind_inv E8'. destruct a0 as [rc h8c].
        assert (Heq : h8 = set h8c (JsRef (List.length h)) "cause" rc) by congruence.
        clear E8'.
        destruct (IH d h7 _ rc h8c (chainOk_sameBelow d h h7 _ S7 Hc) E) as [Hval Hloc].
        rewrite (chain_sameBelow d d h h7 _ S7 Hc) in Hloc.
        pose proof (toIBaseError_evolves _ _ _ _ _ E) as Hev.
        destruct (evolves_plain _ _ _ _ _ Hev P7) as [p8 P8].
        destruct (isIBaseError_true_ref _ _ _ Hval) as [lc ->].
        pose proof (read_set_eq h8c _ p8 "cause" (JsRef lc) P8) as Hrd.
        rewrite <- Heq, <- Hrf in Hrd.
        pose proof (f_equal fst Hrd) as Hrd1. pose proof (f_equal snd Hrd) as Hrd2.
        cbn [read fst snd] in Hrd1, Hrd2.
        assert (Hoff : forall x, In x (chain (S d) h8c (JsRef lc)) -> List.length h <> x).
        { intros x Hx <-.
          pose proof (chain_lt d d h _ _ Hc (Hloc _ Hx Hn7)). lia. }
        assert (Hreads : forall x key, In x (chain (S d) h8c (JsRef lc)) ->
                   key <> "error" -> read final (JsRef x) key = read h8c (JsRef x) key).
        { intros x key Hx Hkey. unfold final.
          rewrite reconstructExtraResponseFields_read_other by (auto using Hoff).
          rewrite Heq. apply read_set_other. apply Hoff. exact Hx. }
        split.
        -- rewrite isIBaseError_step by (reflexivity || exact Hshr).
           rewrite Hrd1, Hrd2. cbn [negb orb isUndefined].
           apply (isIBaseError_frame (S d) h8c); [| exact Hreads | exact Hval].
           apply (steady_trans h8c h8);
             [rewrite Heq; apply steady_set; discriminate
             | apply reconstructExtraResponseFields_steady].
        -- rewrite chain_step. rewrite Hrd2.
           rewrite (chain_frame (S d) h8c final (JsRef lc)).
           ++ intros x [<- | Hx] Hlt; [lia|].
              right. apply Hloc; [exact Hx | lia].
           ++ intros x Hx. exact (f_equal snd (Hreads x "cause" Hx ltac:(discriminate))).
      * assert (Heq : h8 = h7) by congruence. clear E8'.
        assert (Hrd : read final (JsRef (List.length h)) "cause" = (false, JsUndefined)).
        { rewrite Hrf, Heq. unfold h7. rewrite R7, R4, R3 by discriminate. reflexivity. }
        pose proof (f_equal fst Hrd) as Hrd1. pose proof (f_equal snd Hrd) as Hrd2.
        cbn [read fst snd] in Hrd1, Hrd2.
        split.
        -- rewrite isIBaseError_step by (reflexivity || exact Hshr).
           rewrite Hrd1. reflexivity.
        -- rewrite chain_step. rewrite Hrd2, chain_undefined.
           intros x [<- | []] Hlt. lia.
Qed.

(** X17: when the cause chain of the argument has at most [d] objects,
    all of them in the store with their [messages], and no element of a
    [messages] is an object that has a [message] which is not a string,
    whatever the normaliser returns passes [isIBaseError] down its whole
    chain. *)
Theorem toIBaseError_validates fuel d h v result h' :
  chainOk d h v = true ->
  toIBaseError fuel h v = Return (result, h') ->
  isIBaseError (S d) h' result = Some true.
Proof.
  intros Hok Hrun.
  exact (proj1 (toIBaseError_validates_chain fuel d h v result h' Hok Hrun)).
Qed.

Lemma toIBaseError_validates_witness :
  chainOk 3 MoreExamples.mixedChain (JsRef 0) = true
  /\ isIBaseError 4 MoreExamples.mixedChain (JsRef 0) = Some false
  /\ exists result h',
       toIBaseError 4 MoreExamples.mixedChain (JsRef 0) = Return (result, h')
       /\ isIBaseError 4 h' result = Some true.
Proof.
  split; [reflexivity|]. split; [reflexivity|].
  destruct (toIBaseError 4 MoreExamples.mixedChain (JsRef 0))
    as [[result h']| |] eqn:Hrun; [|discriminate Hrun|discriminate Hrun].
  exists result, h'. split; [reflexivity|].
  exact (toIBaseError_validates 4 3 MoreExamples.mixedChain (JsRef 0) result h'
           eq_refl Hrun).
Defined.

End ValidatesFacts.

(* ===================================================================== *)
(** ** Inputs on which the normaliser returns *)
(* ===================================================================== *)

Module TotalFacts.
Import Js Base Frame StoreFacts BaseFacts StoreNotions ChainNotions BaseMore SteadyFacts
  ReconstructFacts ValidatesFacts.

Lemma hasProperty_isAllocated h key v :
  hasProperty h key v = true -> isAllocated h v = true.
Proof.
  destruct v; try discriminate. unfold hasProperty, isAllocated.
  destruct (h !! l); [reflexivity | discriminate].
Qed.

Lemma issueSafe_issueOk h m : issueSafe h m = true -> issueOk h m = true.
Proof.
  unfold issueSafe, issueOk, isValidationIssue. intros H.
  apply orb_true_iff in H as [H | H].
  - apply typeof_string in H as [s ->]. reflexivity.
  - rewrite !andb_true_iff in H. destruct H as [[[_ _] Hhas] Hty].
    rewrite (hasProperty_isAllocated _ _ _ Hhas), Hty.
    cbn [andb]. apply orb_true_r.
Qed.

Lemma chainSafe_chainOk d : forall h v, chainSafe d h v = true -> chainOk d h v = true.
Proof.
  induction d as [|d IH]; intros h v H.
  - destruct v; try reflexivity. discriminate H.
  - destruct v as [| | | | | |l]; try reflexivity.
    cbn [chainSafe chainOk] in *. rewrite !andb_true_iff in *.
    destruct H as [[[[Hhas Hty] Hm] Hi] Hc].
    repeat split; auto.
    + eapply hasProperty_isAllocated; eauto.
    + rewrite forallb_forall in *. intros m Hin. apply issueSafe_issueOk. auto.
Qed.

Lemma issueSafe_sameBelow h h' m :
  sameBelow (List.length h) h h' -> issueSafe h m = true -> issueSafe h' m = true.
Proof.
  intros Hs H. unfold issueSafe in *. apply orb_true_iff in H as [H | H].
  - rewrite H. reflexivity.
  - apply orb_true_iff. right. unfold isValidationIssue in *.
    rewrite !andb_true_iff in *. destruct H as [[[H1 H2] Hhas] Hty].
    destruct (sameBelow_allocated h h' m Hs (hasProperty_isAllocated _ _ _ Hhas))
      as (_ & Hr & _).
    destruct (Hr "message") as [-> ->]. auto.
Qed.

Lemma chainSafe_sameBelow d : forall h h' v,
  sameBelow (List.length h) h h' -> chainSafe d h v = true -> chainSafe d h' v = true.
Proof.
  induction d as [|d IH]; intros h h' v Hs H.
  - destruct v; try reflexivity. discriminate H.
  - destruct v as [| | | | | |l]; try reflexivity.
    cbn [chainSafe] in *. rewrite !andb_true_iff in H.
    destruct H as [[[[Hhas Hty] Hm] Hi] Hc].
    destruct (sameBelow_allocated h h' _ Hs (hasProperty_isAllocated _ _ _ Hhas))
      as (_ & Hr & _).
    destruct (Hr "message") as [E0 E0']. destruct (Hr "messages") as [_ E1].
    destruct (Hr "cause") as [_ E2].
    rewrite E0, E0', E1, E2, Hhas, Hty.
    destruct (sameBelow_allocated h h' _ Hs Hm) as (Hm' & _ & Hitems).
    rewrite Hm', Hitems, (IH h h' _ Hs Hc). cbn [andb]. rewrite andb_true_r.
    rewrite forallb_forall in *. intros m Hin.
    apply (issueSafe_sameBelow h h' m Hs). apply Hi. exact Hin.
Qed.

(** [map] returns on elements that need no serialising. *)
Lemma mapIssues_returns h0 items : forall h,
  sameBelow (List.length h0) h0 h -> (List.length h0 <= List.length h)%nat ->
  forallb (issueSafe h0) items = true ->
  exists issues h', mapIssues h items = Return (issues, h').
Proof.
  induction items as [|m rest IH]; intros h Hs Hle Hall.
  - eexists _, _. reflexivity.
  - cbn [forallb] in Hall. apply andb_true_iff in Hall as [Hm Hrest].
    assert (Hstep : exists issue h1, reconstructIssue h m = Return (issue, h1)).
    { unfold reconstructIssue. unfold issueSafe in Hm.
      destruct (String.eqb (typeof m) "string") eqn:Hstr; [eexists _, _; reflexivity|].
      cbn [orb] in Hm. unfold isValidationIssue in Hm. rewrite !andb_true_iff in Hm.
      destruct Hm as [[[H1 H2] Hhas] Hty]. rewrite H1.
      destruct m as [| | | | | |l]; try discriminate Hhas.
      destruct (sameBelow_allocated h0 h _ Hs (hasProperty_isAllocated _ _ _ Hhas))
        as (_ & Hr & _).
      destruct (Hr "message") as [E _].
      cbn [js_in bind]. rewrite E, Hhas. eexists _, _; reflexivity. }
    destruct Hstep as (issue & h1 & E1).
    destruct (reconstructIssue_sameBelow _ _ _ _ E1) as [S1 L1].
    destruct (IH h1) as (issues & h2 & E2); [| lia | exact Hrest |].
    + eapply sameBelow_trans; [exact Hs|].
      eapply sameBelow_weaken; [|exact S1]. exact Hle.
    + cbn [mapIssues]. rewrite E1. cbn [bind]. rewrite E2. cbn [bind].
      eexists _, _. reflexivity.
Qed.

Lemma toIBaseError_returns d : forall h v,
  chainSafe d h v = true -> exists res h', toIBaseError (S d) h v = Return (res, h').
Proof.
  induction d as [|d IH]; intros h v Hsafe.
  - destruct v; try discriminate Hsafe; eexists _, _; reflexivity.
  - destruct v as [| | | | | |a]; try (eexists _, _; reflexivity).
    pose proof Hsafe as Hsafe'. cbn [chainSafe] in Hsafe'.
    rewrite !andb_true_iff in Hsafe'.
    destruct Hsafe' as [[[[Hhas Hty] Hm] Hi] Hc].
    pose proof (hasProperty_isAllocated _ _ _ Hhas) as Ha.
    pose proof (isAllocated_lt _ _ Ha) as Halt.
    pose proof (isAllocated_allocated _ _ Ha) as Ha'. cbn [allocated] in Ha'.
    destruct (shallowIsIBaseError h (JsRef a)) eqn:Hsh.
    + rewrite toIBaseError_kept by (reflexivity || exact Hsh).
      unfold correctCause.
      destruct (hasProperty h "cause" (JsRef a)); [|eexists _, _; reflexivity].
      destruct (_ || _); [eexists _, _; reflexivity|].
      destruct (IH h _ Hc) as (rc & h1 & E). rewrite E. cbn [bind].
      eexists _, _. reflexivity.
    + rewrite toIBaseError_reconstruct by exact Hsh.
      unfold reconstruct, reconstructMessage. rewrite Hhas, Hty.
      cbn [andb bind]. unfold alloc. cbv beta iota zeta.
      set (message := get h (JsRef a) "message").
      destruct (trace_h3 h a message Ha') as (S3 & [p3 P3] & _).
      set (h3 := copyIfTyped "status" "number" (JsRef a) (JsRef (List.length h)) _) in *.
      assert (L3 : (List.length h <= List.length h3)%nat).
      { apply Nat.lt_le_incl. eapply lookup_lt_Some; eauto. }
      assert (E4 : exists h4, reconstructMessages (JsRef a) (JsRef (List.length h)) h3
                              = Return h4).
      { unfold reconstructMessages.
        destruct (_ && _); [|eexists; reflexivity].
        destruct (sameBelow_allocated h h3 _ S3 Ha) as (_ & Hr & _).
        destruct (Hr "messages") as [_ ->].
        destruct (sameBelow_allocated h h3 _ S3 Hm) as (_ & _ & ->).
        destruct (mapIssues_returns h _ h3 S3 L3 Hi) as (issues & h3' & E).
        rewrite E. cbn [bind]. unfold alloc. eexists. reflexivity. }
      destruct E4 as [h4 E4]. rewrite E4. cbn [bind].
      destruct (trace_h7 h a message h4 Ha' E4) as (S7 & _ & _).
      set (h7 := copyIfTyped "silent" "boolean" (JsRef a) (JsRef (List.length h)) _) in *.
      assert (E8 : exists h8, reconstructCause (toIBaseError (S d)) (JsRef a)
                                (JsRef (List.length h)) h7 = Return h8).
      { unfold reconstructCause.
        destruct (_ && _); [|eexists; reflexivity].
        destruct (sameBelow_allocated h h7 _ S7 Ha) as (_ & Hr & _).
        destruct (Hr "cause") as [_ ->].
        destruct (IH h7 _ (chainSafe_sameBelow d h h7 _ S7 Hc)) as (rc & h8c & E).
        rewrite E. cbn [bind]. eexists. reflexivity. }
      destruct E8 as [h8 E8]. rewrite E8. cbn [bind].
      eexists _, _. reflexivity.
Qed.

(** X18: when the cause chain of the argument has at most [d] objects,
    each with a string [message], and every element of a [messages] is a
    string or an object with a string [message], the normaliser returns,
    and what it returns passes [isIBaseError]. *)
Theorem toIBaseError_total d h v :
  chainSafe d h v = true ->
  exists result h',
    toIBaseError (S d) h v = Return (result, h')
    /\ isIBaseError (S d) h' result = Some true.
Proof.
  intros Hsafe.
  destruct (toIBaseError_returns d h v Hsafe) as (result & h' & Hrun).
  exists result, h'. split; [exact Hrun|].
  exact (proj1 (toIBaseError_validates_chain (S d) d h v result h'
                  (chainSafe_chainOk d h v Hsafe) Hrun)).
Qed.

Lemma toIBaseError_total_witness :
  chainSafe 2 MoreExamples.safeChain (JsRef 0) = true
  /\ isIBaseError 3 MoreExamples.safeChain (JsRef 0) = Some false
  /\ exists result h',
       toIBaseError 3 MoreExamples.safeChain (JsRef 0) = Return (result, h')
       /\ isIBaseError 3 h' result = Some true.
Proof.
  split; [reflexivity|]. split; [reflexivity|].
  exact (toIBaseError_total 2 MoreExamples.safeChain (JsRef 0) eq_refl).
Defined.

(** X19: the normaliser applied to its own result returns the very same
    object once more; no object is added, and every property of every
    object reads as after the first application. *)
Theorem toIBaseError_idempotent fuel d h v result h' :
  chainOk d h v = true ->
  toIBaseError fuel h v = Return (result, h') ->
  exists h'',
    toIBaseError (S d) h' result = Return (result, h'')
    /\ List.length h'' = List.length h'
    /\ forall x key, get h'' x key = get h' x key.
Proof.
  intros Hok Hrun.
  pose proof (proj1 (toIBaseError_validates_chain fuel d h v result h' Hok Hrun))
    as Hval.
  apply isIBaseError_chainShallow in Hval.
  destruct (toIBaseError_chainShallow _ _ _ _ Hval) as (h'' & Hrun' & Hp & _).
  exists h''. split; [exact Hrun'|]. split; [exact (proj1 Hp)|].
  intros x key. apply pruned_false_get. exact Hp.
Qed.

Lemma toIBaseError_idempotent_witness :
  chainOk 3 MoreExamples.mixedChain (JsRef 0) = true
  /\ exists result h' h'',
       toIBaseError 4 MoreExamples.mixedChain (JsRef 0) = Return (result, h')
       /\ toIBaseError 4 h' result = Return (result, h'')
       /\ List.length h'' = List.length h'
       /\ forall x key, get h'' x key = get h' x key.
Proof.
  split; [reflexivity|].
  destruct (toIBaseError 4 MoreExamples.mixedChain (JsRef 0))
    as [[result h']| |] eqn:Hrun; [|discriminate Hrun|discriminate Hrun].
  destruct (toIBaseError_idempotent 4 3 MoreExamples.mixedChain (JsRef 0) result h'
              eq_refl Hrun) as (h'' & Hrun' & Hlen & Hget).
  exists result, h', h''. auto.
Defined.

End TotalFacts.
